(** * Weavy workflow tasks: a shallow embedding of the task and action code

    The development follows the TypeScript sources of the repository:

    - the Trigger.dev task [llm-gemini], [src/unnamed/part_002]
      (module [LlmTask]);
    - the server action [runLlm], [src/unnamed/part_005] (module [LlmAction]);
    - the Trigger.dev task [crop-image], first half of [src/unnamed/part_003]
      (module [CropImage]);
    - the Trigger.dev task [extract-video-frame], second half of
      [src/unnamed/part_003] (module [ExtractFrame]);
    - the workflow server actions, [src/src/lib/actions/workflow.ts]
      (module [WorkflowActions]);
    - the folder server actions, [src/unnamed/part_006] (module
      [FolderActions]);
    - the server-side auth helper [getAuthUser], [src/unnamed/part_007]
      (module [AuthServer]);
    - the client-side auth utilities, [src/src/lib/auth.ts] (module
      [ClientAuth]).

    Conventions of the embedding.

    - A JavaScript [string] is a [string]; the only character operations the
      code uses ([startsWith], [includes], [toLowerCase]) are written out.
      [toLowerCase] is written out for strings of ASCII characters
      ([Js.isAscii]); what is proved through it about other strings is said
      where it is proved.
    - A JavaScript [number] is the rational ([Q]) that the binary64 number
      denotes, and the arithmetic of the code is the arithmetic of binary64:
      [Js.mul], [Js.div] and [Js.add] round the exact result to the nearest
      binary64 number, ties to even, and [Js.number] reads a number of the
      payload as the binary64 number nearest to it.  Image dimensions, which
      [image-size] reports as integers, are [Z].  [NaN] and the infinities
      are the [None] of an [option]; a result beyond the range of binary64
      (an overflow to an infinity) is not modelled.
    - An [async] function is a computation in the monad [Async]: it threads
      a [World] (the scratch directories that exist and the state of
      everything outside the process), emits the observable events of the
      execution in order, and either returns a value or throws an error
      message.
    - Everything outside the process (HTTP, the file system contents, the
      FFmpeg binaries, Transloadit, Gemini) is a field of the record [Host];
      each field may answer differently each time it is asked. *)

From Stdlib Require Import ZArith QArith Qabs Qround Qpower Lqa String Ascii List Lia Bool.
From Stdlib Require PrimFloat FloatOps Uint63.
From stdpp Require Import gmap strings list.
Import ListNotations.

Open Scope string_scope.

(** ** JavaScript strings *)

Module Js.

(** [s.startsWith(p)] *)
Definition startsWith (s p : string) : bool := String.prefix p s.

(** [s.includes(p)]: [p] occurs at some position of [s]. *)
Fixpoint includes (s p : string) : bool :=
  String.prefix p s ||
  match s with
  | EmptyString => false
  | String _ s' => includes s' p
  end.

Definition lowerAscii (c : ascii) : ascii :=
  let n := nat_of_ascii c in
  if (65 <=? n)%nat && (n <=? 90)%nat then ascii_of_nat (n + 32) else c.

(** [s.toLowerCase()] of a string of ASCII characters: the letters [A] to
    [Z] become [a] to [z].  (On other characters JavaScript follows the
    Unicode case mapping, which is not written out here.) *)
Fixpoint toLowerCase (s : string) : string :=
  match s with
  | EmptyString => EmptyString
  | String c s' => String (lowerAscii c) (toLowerCase s')
  end.

(** Whether every character of [s] is an ASCII character. *)
Fixpoint isAscii (s : string) : bool :=
  match s with
  | EmptyString => true
  | String c s' => (nat_of_ascii c <? 128)%nat && isAscii s'
  end.

(** Truthiness of a string: every string but the empty one. *)
Definition truthy (s : string) : bool :=
  match s with EmptyString => false | _ => true end.

(** Truthiness of an optional string ([undefined] and [null] are falsy). *)
Definition truthyOpt (o : option string) : bool :=
  match o with Some s => truthy s | None => false end.

(** [a || b] on optional strings. *)
Definition or (a b : option string) : option string :=
  if truthyOpt a then a else b.

(** [a || "literal"]. *)
Definition orDefault (a : option string) (d : string) : string :=
  match a with
  | Some s => if truthy s then s else d
  | None => d
  end.

(** [o === s] for an optional string [o]. *)
Definition strictEq (o : option string) (s : string) : bool :=
  match o with Some s' => (s' =? s)%string | None => false end.

(** [path.join(dir, name)] *)
Definition pathJoin (dir name : string) : string := dir ++ "/" ++ name.

(** [path.basename(p)]: what follows the last separator. *)
Fixpoint basenameFrom (acc p : string) : string :=
  match p with
  | EmptyString => acc
  | String c p' =>
      if Ascii.eqb c "/" then basenameFrom EmptyString p'
      else basenameFrom (acc ++ String c EmptyString) p'
  end.
Definition basename (p : string) : string := basenameFrom EmptyString p.

(** *** Numbers

    A finite JavaScript number is a binary64 number: an integer of at most
    53 bits times a power of two, the exponent at least -1074. *)

(** [2^e], for an exponent of either sign. *)
Definition pow2 (e : Z) : Q := Qpower 2 e.

(** The binade of a positive [q]: the [k] with [2^k <= q < 2^(k+1)]. *)
Definition ilog2 (q : Q) : Z :=
  let k := (Z.log2 (Qnum q) - Z.log2 (Zpos (Qden q)))%Z in
  if Qle_bool (pow2 k) q then k else (k - 1)%Z.

(** The exponent of the unit in the last place of the binary64 numbers
    around [q]: 52 below the binade, and -1074 in the subnormal range. *)
Definition exponent (q : Q) : Z := Z.max (ilog2 (Qabs q) - 52) (-1074).

(** The integer nearest to [q], the even one of two that are equally near. *)
Definition roundTiesToEven (q : Q) : Z :=
  let n := Qfloor q in
  match Qcompare (q - inject_Z n) (1 # 2) with
  | Lt => n
  | Gt => (n + 1)%Z
  | Eq => if Z.even n then n else (n + 1)%Z
  end.

(** The binary64 number nearest to [q] (IEEE 754 roundTiesToEven). *)
Definition binary64 (q : Q) : Q :=
  let u := pow2 (exponent q) in
  Qred (inject_Z (roundTiesToEven (q / u)) * u).

(** Two numbers are compared as they are written before the rounding is
    unfolded. *)
Strategy 100 [binary64].

(** [Number(x)] for a number written [x] in the payload. *)
Definition number (x : Q) : Q := binary64 x.

(** [a * b], [a / b] (for [b] other than zero) and [a + b]. *)
Definition mul (a b : Q) : Q := binary64 (a * b).
Definition div (a b : Q) : Q := binary64 (a / b).
Definition add (a b : Q) : Q := binary64 (a + b).

(** [Math.round(q)]: the nearest integer, halves towards plus infinity. *)
Definition round (q : Q) : Z := Qfloor (q + (1 # 2)).

(** [parts.push(x)] *)
Definition push {A} (parts : list A) (x : A) : list A := (parts ++ [x])%list.

End Js.

(** ** Values exchanged with the outside *)

(** A part of a Gemini prompt: [{ text }] or [{ inlineData: { mimeType, data } }]. *)
Inductive Part : Type :=
| TextPart (text : string)
| InlineData (mimeType data : string).

(** [LLMTaskPayload.model] *)
Inductive Model : Type :=
| gemini_2_5_flash
| gemini_1_5_flash
| gemini_1_5_pro
| gemini_1_0_pro.

(** The three command lines the tasks hand to [execSync]. *)
Inductive Command : Type :=
| FfmpegCrop (ffmpegPath inputPath : string) (w h x y : Z) (outputPath : string)
| FfmpegFrame (ffmpegPath : string) (ss : Q) (videoPath framePath : string)
| FfprobeDuration (ffprobePath filePath : string).

(** The assemblies the tasks create at [api2.transloadit.com/assemblies]:
    - [FileImportStore]: steps [/file/import] then [/file/store], file in form field [file];
    - [FileImport]:      step [/file/import] with [result: true], file in form field [imported];
    - [ImageResizeCrop]: steps [/http/import] then [/image/resize] with a crop in percent;
    - [VideoThumbs]:     steps [/http/import] then [/video/thumbs] with [offsets: [offset]]. *)
Inductive Assembly : Type :=
| FileImportStore (key fileName : string)
| FileImport (key fileName : string)
| ImageResizeCrop (key url : string) (x1 y1 x2 y2 : Q)
| VideoThumbs (key url : string) (offset : Q).

(** What [fetch] resolves to, as far as the code looks: [ok] and [status]. *)
Record Response : Type := { resp_ok : bool; resp_status : string }.

(** The JSON answer to the creation of an assembly. *)
Record AssemblyData : Type :=
  { assembly_ssl_url : option string;
    data_error : option string;
    data_message : option string }.

(** The JSON answer to a poll of an assembly; [poll_ssl_url] is
    [results?.<step>?.[0]?.ssl_url] for the step the caller reads. *)
Record PollData : Type :=
  { poll_ok : option string;
    poll_ssl_url : option string;
    poll_error : option string }.

(** [process.env], and [os.tmpdir()]. *)
Record Env : Type :=
  { GOOGLE_GEMINI_API_KEY : option string;
    GOOGLE_GEMINI_API_KEY_BACKUP : option string;
    NEXT_PUBLIC_TRANSLOADIT_KEY : option string;
    os_tmpdir : string }.

(** ** Observable events *)

Inductive Level : Type := Info | Warn | Error.

Inductive Event : Type :=
| Log (lvl : Level) (msg : string)
| Fetch (url : string)
| WriteFile (path : string)
| ReadFile (path : string)
| ImageSize (path : string)
| Import (module : string)
| Exec (cmd : Command)
| CreateAssembly (a : Assembly)
| Sleep (ms : Z)
| PollAssembly (url : string)
| GenerateContent (key : string) (model : Model) (parts : list Part)
| Mkdtemp (dir : string)
| Rm (dir : string).

(** ** Asynchronous computations *)

(** The outcome of an [await]: a value, or a thrown [Error] with its message. *)
Inductive Result (A : Type) : Type :=
| Ok (a : A)
| Throw (message : string).
Arguments Ok {A} a.
Arguments Throw {A} message.

(** Everything outside the process.  [Ext] is the state of the outside; every
    question may change it, so the same question may be answered differently
    the next time. *)
Record Host (Ext : Type) : Type :=
  { (* fetch(url) *)
    host_fetch : string -> Ext -> Result Response * Ext;
    (* Buffer.from(await res.arrayBuffer()) and fs.writeFile(path, buffer) *)
    host_writeFile : string -> Ext -> Result unit * Ext;
    (* fs.readFile(path) *)
    host_readFile : string -> Ext -> Result unit * Ext;
    (* imageSizeFromFile(path): width and height, None when not a finite number *)
    host_imageSize : string -> Ext -> Result (option Z * option Z) * Ext;
    (* import("ffmpeg-static"): the module itself when a string, else its default *)
    host_importFfmpeg : Ext -> Result (option string) * Ext;
    (* import("ffprobe-static"): its path *)
    host_importFfprobe : Ext -> Result string * Ext;
    (* execSync of an ffmpeg command line *)
    host_exec : Command -> Ext -> Result unit * Ext;
    (* execSync of ffprobe: the trimmed output, and how parseFloat reads it
       (None: NaN or infinite) *)
    host_probe : Command -> Ext -> Result (string * option Q) * Ext;
    (* POST of an assembly and the JSON of the answer *)
    host_createAssembly : Assembly -> Ext -> Result AssemblyData * Ext;
    (* GET of the assembly URL and the JSON of the answer *)
    host_pollAssembly : string -> Ext -> Result PollData * Ext;
    (* generateContent(parts) of the model built from a key, and response.text() *)
    host_generateContent : string -> Model -> list Part -> Ext -> Result string * Ext;
    (* the unique directory name fs.mkdtemp picks for a prefix *)
    host_mkdtemp : string -> Ext -> Result string * Ext }.
Arguments host_fetch {Ext} _ _ _.
Arguments host_writeFile {Ext} _ _ _.
Arguments host_readFile {Ext} _ _ _.
Arguments host_imageSize {Ext} _ _ _.
Arguments host_importFfmpeg {Ext} _ _.
Arguments host_importFfprobe {Ext} _ _.
Arguments host_exec {Ext} _ _ _.
Arguments host_probe {Ext} _ _ _.
Arguments host_createAssembly {Ext} _ _ _.
Arguments host_pollAssembly {Ext} _ _ _.
Arguments host_generateContent {Ext} _ _ _ _ _.
Arguments host_mkdtemp {Ext} _ _ _.

(** The state an execution runs in. *)
Record World (Ext : Type) : Type :=
  { tmpdirs : gset string;     (* the scratch directories that exist *)
    ext : Ext }.               (* the state of the outside *)
Arguments tmpdirs {Ext} _.
Arguments ext {Ext} _.
Arguments Build_World {Ext} _ _.

(** What an execution leaves behind: its result, the events it emitted
    (oldest first) and the world after it. *)
Record Outcome (Ext A : Type) : Type :=
  { result : Result A;
    events : list Event;
    after : World Ext }.
Arguments result {Ext A} _.
Arguments events {Ext A} _.
Arguments after {Ext A} _.
Arguments Build_Outcome {Ext A} _ _ _.

Definition Async (Ext A : Type) : Type := World Ext -> Outcome Ext A.

Module Async.
Section Ops.
Context {Ext : Type}.

Definition ret {A} (a : A) : Async Ext A :=
  fun w => Build_Outcome (Ok a) [] w.

Definition throw {A} (message : string) : Async Ext A :=
  fun w => Build_Outcome (Throw message) [] w.

Definition bind {A B} (m : Async Ext A) (k : A -> Async Ext B) : Async Ext B :=
  fun w =>
    let o := m w in
    match result o with
    | Ok a =>
        let o' := k a (after o) in
        Build_Outcome (result o') (events o ++ events o') (after o')
    | Throw e => Build_Outcome (Throw e) (events o) (after o)
    end.

(** [try { body } catch (e) { handler(e) }] *)
Definition tryCatch {A} (body : Async Ext A) (handler : string -> Async Ext A) : Async Ext A :=
  fun w =>
    let o := body w in
    match result o with
    | Ok a => o
    | Throw e =>
        let o' := handler e (after o) in
        Build_Outcome (result o') (events o ++ events o') (after o')
    end.

(** [try { body } finally { cleanup }]: the cleanup runs on both outcomes; an
    error of the cleanup itself replaces the outcome of the body. *)
Definition tryFinally {A} (body : Async Ext A) (cleanup : Async Ext unit) : Async Ext A :=
  fun w =>
    let o := body w in
    let c := cleanup (after o) in
    Build_Outcome
      (match result c with Ok _ => result o | Throw e => Throw e end)
      (events o ++ events c)
      (after c).

(** Record an event. *)
Definition emit (e : Event) : Async Ext unit :=
  fun w => Build_Outcome (Ok tt) [e] w.

(** Ask the outside. *)
Definition ask {A} (q : Ext -> Result A * Ext) : Async Ext A :=
  fun w => Build_Outcome (fst (q (ext w))) [] (Build_World (tmpdirs w) (snd (q (ext w)))).

(** An awaited call to the outside, recorded in the trace. *)
Definition perform {A} (e : Event) (q : Ext -> Result A * Ext) : Async Ext A :=
  bind (emit e) (fun _ => ask q).

(** [for (let i = start; i < start + n; i++) body(i)], where the body either
    returns from the enclosing function ([Some]) or goes on ([None]). *)
Fixpoint forRange {A} (n : nat) (i : nat) (body : nat -> Async Ext (option A))
  : Async Ext (option A) :=
  match n with
  | O => ret None
  | S n' =>
      bind (body i) (fun r =>
        match r with
        | Some a => ret (Some a)
        | None => forRange n' (S i) body
        end)
  end.

(** [fs.mkdtemp(prefix)]: creates a directory that did not exist. *)
Definition mkdtemp (host : Host Ext) (prefix : string) : Async Ext string :=
  fun w =>
    match host_mkdtemp host prefix (ext w) with
    | (Ok dir, x) =>
        if bool_decide (dir ∈ tmpdirs w)
        then Build_Outcome (Throw "EEXIST: file already exists, mkdtemp") []
               (Build_World (tmpdirs w) x)
        else Build_Outcome (Ok dir) [Mkdtemp dir] (Build_World ({[dir]} ∪ tmpdirs w) x)
    | (Throw e, x) => Build_Outcome (Throw e) [] (Build_World (tmpdirs w) x)
    end.

(** [fs.rm(dir, { recursive: true, force: true })] *)
Definition rm (dir : string) : Async Ext unit :=
  fun w => Build_Outcome (Ok tt) [Rm dir] (Build_World (tmpdirs w ∖ {[dir]}) (ext w)).

End Ops.
End Async.

Declare Scope async_scope.
Delimit Scope async_scope with async.
Notation "x <- m ;; k" := (Async.bind m (fun x => k))
  (at level 100, m at next level, right associativity) : async_scope.
Notation "m ;; k" := (Async.bind m (fun _ => k))
  (at level 100, right associativity) : async_scope.
Open Scope async_scope.

(** * The task [llm-gemini] *)

Module LlmTask.

Record LLMTaskPayload : Type :=
  { model : Model;
    systemPrompt : option string;
    userMessage : string;
    images : option (list string) }.

Record LLMTaskResult : Type := { output : string }.

(** [detectImageMimeType]: MIME type from the first characters of base64 data. *)
Definition detectImageMimeType (imageBase64 : string) : string :=
  if Js.startsWith imageBase64 "/9j/" then "image/jpeg"
  else if Js.startsWith imageBase64 "iVBORw" then "image/png"
  else if Js.startsWith imageBase64 "R0lGOD" then "image/gif"
  else if Js.startsWith imageBase64 "UklGR" then "image/webp"
  else "image/jpeg".

(** The [retry] option of the task. *)
Record RetryOptions : Type :=
  { maxAttempts : nat; minTimeoutInMs : Z; maxTimeoutInMs : Z; factor : Z }.

Definition id : string := "llm-gemini".
Definition maxDuration : Z := 120.
Definition retry : RetryOptions :=
  {| maxAttempts := 2; minTimeoutInMs := 1000; maxTimeoutInMs := 5000; factor := 2 |}.

Definition newline : string := String (ascii_of_nat 10) EmptyString.

(** [isQuotaOrRate], on the lower-cased message. *)
Definition isQuotaOrRate (msg : string) : bool :=
  Js.includes msg "quota" || Js.includes msg "rate" || Js.includes msg "429"
  || Js.includes msg "resource_exhausted".

(** The second test of the [catch] block, on the lower-cased message. *)
Definition isApiKeyOrAuth (msg : string) : bool :=
  Js.includes msg "api key" || Js.includes msg "authentication".

Definition quotaExceeded (message : string) : string :=
  "API quota exceeded. Please try again later or check your API key limits. (API: "
  ++ message ++ ")".

Definition invalidApiKey (message : string) : string :=
  "Invalid API key. Please check your GOOGLE_GEMINI_API_KEY. (API: " ++ message ++ ")".

Section Run.
Context {Ext : Type} (host : Host Ext) (env : Env).

(** [callGemini(key)]: one [generateContent] with all the parts. *)
Definition callGemini (payload : LLMTaskPayload) (parts : list Part) (key : string)
  : Async Ext string :=
  Async.perform (GenerateContent key (model payload) parts)
    (host_generateContent host key (model payload) parts).

(** The [try]/[catch] statement of [run]: the call with the primary key, and
    what the [catch] block does with its error. *)
Definition generate (payload : LLMTaskPayload) (parts : list Part) (apiKey : string)
  : Async Ext LLMTaskResult :=
  Async.tryCatch
    (Async.emit (Log Info "Calling Gemini API...") ;;
     text <- callGemini payload parts apiKey ;;
     Async.emit (Log Info "LLM task completed") ;;
     Async.ret {| output := text |})
    (fun message =>
       let msg := Js.toLowerCase message in
       if isQuotaOrRate msg then
         returned <-
           match GOOGLE_GEMINI_API_KEY_BACKUP env with
           | Some backupKey =>
               if Js.truthy backupKey && negb (backupKey =? apiKey)%string then
                 Async.emit
                   (Log Info "Quota/rate limit hit with primary key, retrying with backup key...") ;;
                 Async.tryCatch
                   (text <- callGemini payload parts backupKey ;;
                    Async.emit (Log Info "LLM task completed with backup key") ;;
                    Async.ret (Some {| output := text |}))
                   (fun backupError =>
                      Async.emit (Log Error "Backup key also failed") ;;
                      Async.ret None)
               else Async.ret None
           | None => Async.ret None
           end ;;
         match returned with
         | Some r => Async.ret r
         | None => Async.throw (quotaExceeded message)
         end
       else if isApiKeyOrAuth msg then Async.throw (invalidApiKey message)
       else Async.throw message).

(** The [run] function of the task. *)
Definition run (payload : LLMTaskPayload) : Async Ext LLMTaskResult :=
  Async.emit (Log Info "Starting LLM task") ;;
  (* Check for API key *)
  match GOOGLE_GEMINI_API_KEY env with
  | None =>
      Async.throw
        "GOOGLE_GEMINI_API_KEY is not configured. Please add it to your environment variables."
  | Some apiKey =>
    if negb (Js.truthy apiKey) then
      Async.throw
        "GOOGLE_GEMINI_API_KEY is not configured. Please add it to your environment variables."
    else
    (* Build the prompt parts *)
    let parts : list Part := [] in
    (* Add system prompt if provided *)
    let parts :=
      match systemPrompt payload with
      | Some sp =>
          if Js.truthy sp
          then Js.push parts (TextPart ("System Instructions: " ++ sp ++ newline ++ newline))
          else parts
      | None => parts
      end in
    (* Add user message *)
    let parts := Js.push parts (TextPart (userMessage payload)) in
    (* Add images if provided *)
    parts <-
      match images payload with
      | Some imgs =>
          if (0 <? length imgs)%nat then
            Async.emit (Log Info "Adding images to prompt") ;;
            Async.ret
              (fold_left
                 (fun parts imageBase64 =>
                    Js.push parts (InlineData (detectImageMimeType imageBase64) imageBase64))
                 imgs parts)
          else Async.ret parts
      | None => Async.ret parts
      end ;;
    generate payload parts apiKey
  end.

End Run.

(** The prompt as the specification words it: the system instructions when a
    system prompt is configured, then the user message, then one segment per
    attachment, in the attachments' order. *)
Definition promptSegments (payload : LLMTaskPayload) : list Part :=
  (match systemPrompt payload with
  | Some sp =>
      if Js.truthy sp
      then [TextPart ("System Instructions: " ++ sp ++ newline ++ newline)]
      else []
  | None => []
  end
  ++ [TextPart (userMessage payload)]
  ++ map (fun imageBase64 => InlineData (detectImageMimeType imageBase64) imageBase64)
       (match images payload with Some imgs => imgs | None => [] end))%list.

End LlmTask.

(** * The server action [runLlm] *)

Module LlmAction.

(** [detectImageMimeType], the copy of the server action. *)
Definition detectImageMimeType (imageBase64 : string) : string :=
  if Js.startsWith imageBase64 "/9j/" then "image/jpeg"
  else if Js.startsWith imageBase64 "iVBORw" then "image/png"
  else if Js.startsWith imageBase64 "R0lGOD" then "image/gif"
  else if Js.startsWith imageBase64 "UklGR" then "image/webp"
  else "image/jpeg".

(** The tests of the [catch] block of [runLlm]: on the message as it is,
    without lower-casing. *)
Definition isQuotaOrRate (msg : string) : bool :=
  Js.includes msg "quota" || Js.includes msg "rate".

Definition isApiKeyOrAuth (msg : string) : bool :=
  Js.includes msg "API key" || Js.includes msg "authentication".

Definition quotaExceeded : string :=
  "API quota exceeded. Please try again later or check your API key limits.".

Definition invalidApiKey : string :=
  "Invalid API key. Please check your GOOGLE_GEMINI_API_KEY.".

Section RunLlm.
Context {Ext User : Type} (host : Host Ext) (env : Env).
(** What [getAuthUser()] resolves to, and what it does to the outside. *)
Context (getAuthUser : Ext -> Result User * Ext).

(** [runLlm(input)] *)
Definition runLlm (input : LlmTask.LLMTaskPayload) : Async Ext LlmTask.LLMTaskResult :=
  Async.ask getAuthUser ;;
  match GOOGLE_GEMINI_API_KEY env with
  | None =>
      Async.throw "GOOGLE_GEMINI_API_KEY is not configured. Please add it to your .env file."
  | Some apiKey =>
    if negb (Js.truthy apiKey) then
      Async.throw "GOOGLE_GEMINI_API_KEY is not configured. Please add it to your .env file."
    else
    let parts : list Part := [] in
    let parts :=
      match LlmTask.systemPrompt input with
      | Some sp =>
          if Js.truthy sp
          then Js.push parts
                 (TextPart ("System Instructions: " ++ sp ++ LlmTask.newline ++ LlmTask.newline))
          else parts
      | None => parts
      end in
    let parts := Js.push parts (TextPart (LlmTask.userMessage input)) in
    let parts :=
      match LlmTask.images input with
      | Some imgs =>
          if (0 <? length imgs)%nat then
            fold_left
              (fun parts imageBase64 =>
                 Js.push parts (InlineData (detectImageMimeType imageBase64) imageBase64))
              imgs parts
          else parts
      | None => parts
      end in
    Async.tryCatch
      (text <-
         Async.perform (GenerateContent apiKey (LlmTask.model input) parts)
           (host_generateContent host apiKey (LlmTask.model input) parts) ;;
       Async.ret {| LlmTask.output := text |})
      (fun msg =>
         if isQuotaOrRate msg then Async.throw quotaExceeded
         else if isApiKeyOrAuth msg then Async.throw invalidApiKey
         else Async.throw msg)
  end.

End RunLlm.

End LlmAction.

(** * The task [crop-image] *)

Module CropImage.

(** The numbers of a payload are the numbers as the payload spells them;
    the program holds each as [Js.number] of it. *)
Record CropImageTaskPayload : Type :=
  { imageUrl : string;
    cropX : Q;        (* percentage 0-100 *)
    cropY : Q;        (* percentage 0-100 *)
    cropWidth : Q;    (* percentage 0-100 *)
    cropHeight : Q }. (* percentage 0-100 *)

Record CropImageTaskResult : Type := { croppedImageUrl : string }.

Definition id : string := "crop-image".
Definition maxDuration : Z := 180.

(** The crop rectangle in pixels handed to FFmpeg. *)
Record CropBox : Type := { x1 : Z; y1 : Z; w1 : Z; h1 : Z }.

(** Step 2 of [run]: the percentages scaled to the image and rounded, then
    clamped to the image bounds.  The scaling is in the numbers of the
    program; the rounded values are integers, and so is what the clamps
    make of them. *)
Definition cropBox (width height : Z) (payload : CropImageTaskPayload) : CropBox :=
  let cropX := Js.number (cropX payload) in
  let cropY := Js.number (cropY payload) in
  let cropWidth := Js.number (cropWidth payload) in
  let cropHeight := Js.number (cropHeight payload) in
  let x := Js.round (Js.div (Js.mul (inject_Z width) cropX) 100) in
  let y := Js.round (Js.div (Js.mul (inject_Z height) cropY) 100) in
  let w := Js.round (Js.div (Js.mul (inject_Z width) cropWidth) 100) in
  let h := Js.round (Js.div (Js.mul (inject_Z height) cropHeight) 100) in
  (* Clamp to image bounds *)
  let x1 := Z.max 0 (Z.min x (width - 1)) in
  let y1 := Z.max 0 (Z.min y (height - 1)) in
  let w1 := Z.max 1 (Z.min w (width - x1)) in
  let h1 := Z.max 1 (Z.min h (height - y1)) in
  {| x1 := x1; y1 := y1; w1 := w1; h1 := h1 |}.

Section Run.
Context {Ext : Type} (host : Host Ext) (env : Env).

Definition TRANSLOADIT_AUTH_KEY : string :=
  Js.orDefault (NEXT_PUBLIC_TRANSLOADIT_KEY env) "".

(** [getImageDimensions(filePath)] *)
Definition getImageDimensions (filePath : string) : Async Ext (Z * Z) :=
  size <- Async.perform (ImageSize filePath) (host_imageSize host filePath) ;;
  match size with
  | (Some width, Some height) => Async.ret (width, height)
  | _ => Async.throw ("Could not get image dimensions: " ++ filePath)
  end.

(** [getFfmpegPath()] *)
Definition getFfmpegPath : Async Ext string :=
  p <- Async.perform (Import "ffmpeg-static") (host_importFfmpeg host) ;;
  match p with
  | Some p => if Js.truthy p then Async.ret p else Async.throw "ffmpeg-static path not found"
  | None => Async.throw "ffmpeg-static path not found"
  end.

(** [uploadCroppedImageToTransloadit(localPath)] *)
Definition uploadCroppedImageToTransloadit (localPath : string) : Async Ext string :=
  if negb (Js.truthy TRANSLOADIT_AUTH_KEY) then
    Async.throw "NEXT_PUBLIC_TRANSLOADIT_KEY is not configured."
  else
  Async.perform (ReadFile localPath) (host_readFile host localPath) ;;
  let fileName := Js.basename localPath in
  let request := FileImportStore TRANSLOADIT_AUTH_KEY fileName in
  data <- Async.perform (CreateAssembly request) (host_createAssembly host request) ;;
  if Js.truthyOpt (data_error data) || Js.truthyOpt (data_message data) then
    Async.throw
      (Js.orDefault (Js.or (data_message data) (data_error data)) "Transloadit assembly failed")
  else
  match assembly_ssl_url data with
  | None => Async.throw "No assembly URL in response"
  | Some assemblyUrl =>
    if negb (Js.truthy assemblyUrl) then Async.throw "No assembly URL in response" else
    (* Poll for completion *)
    returned <-
      Async.forRange 60 0 (fun attempt =>
        Async.emit (Sleep 1000) ;;
        pollData <-
          Async.perform (PollAssembly assemblyUrl) (host_pollAssembly host assemblyUrl) ;;
        if Js.strictEq (poll_ok pollData) "ASSEMBLY_COMPLETED" then
          match poll_ssl_url pollData with
          | Some url =>
              if Js.truthy url then Async.ret (Some url)
              else Async.throw "No export URL in assembly result"
          | None => Async.throw "No export URL in assembly result"
          end
        else
        match poll_error pollData with
        | Some e => if Js.truthy e then Async.throw e else Async.ret None
        | None => Async.ret None
        end) ;;
    match returned with
    | Some url => Async.ret url
    | None => Async.throw "Transloadit assembly timed out"
    end
  end.

(** [uploadCroppedImageToTransloaditV2(localPath)] *)
Definition uploadCroppedImageToTransloaditV2 (localPath : string) : Async Ext string :=
  if negb (Js.truthy TRANSLOADIT_AUTH_KEY) then
    Async.throw "NEXT_PUBLIC_TRANSLOADIT_KEY is not configured."
  else
  Async.perform (ReadFile localPath) (host_readFile host localPath) ;;
  let fileName := Js.basename localPath in
  let request := FileImport TRANSLOADIT_AUTH_KEY fileName in
  data <- Async.perform (CreateAssembly request) (host_createAssembly host request) ;;
  if Js.truthyOpt (data_error data) || Js.truthyOpt (data_message data) then
    Async.emit (Log Warn "Transloadit file/import failed, trying HTTP import fallback") ;;
    Async.throw
      ("Transloadit file upload not configured. Cropped image was created with FFmpeg but upload failed. "
       ++ "Ensure Transloadit supports file import or use a store step.")
  else
  match assembly_ssl_url data with
  | None => Async.throw "No assembly URL in response"
  | Some assemblyUrl =>
    if negb (Js.truthy assemblyUrl) then Async.throw "No assembly URL in response" else
    returned <-
      Async.forRange 60 0 (fun attempt =>
        Async.emit (Sleep 1000) ;;
        pollData <-
          Async.perform (PollAssembly assemblyUrl) (host_pollAssembly host assemblyUrl) ;;
        if Js.strictEq (poll_ok pollData) "ASSEMBLY_COMPLETED" then
          match poll_ssl_url pollData with
          | Some url =>
              if Js.truthy url then Async.ret (Some url)
              else Async.throw "No import URL in assembly result"
          | None => Async.throw "No import URL in assembly result"
          end
        else
        match poll_error pollData with
        | Some e => if Js.truthy e then Async.throw e else Async.ret None
        | None => Async.ret None
        end) ;;
    match returned with
    | Some url => Async.ret url
    | None => Async.throw "Transloadit assembly timed out"
    end
  end.

(** [cropViaTransloadit()], the function declared inside [run]: import from
    the URL and crop by percentages, without FFmpeg. *)
Definition cropViaTransloadit (payload : CropImageTaskPayload) : Async Ext string :=
  let cropX := Js.number (cropX payload) in
  let cropY := Js.number (cropY payload) in
  let cropWidth := Js.number (cropWidth payload) in
  let cropHeight := Js.number (cropHeight payload) in
  let request :=
    ImageResizeCrop TRANSLOADIT_AUTH_KEY (imageUrl payload)
      cropX cropY (Js.add cropX cropWidth) (Js.add cropY cropHeight) in
  data <- Async.perform (CreateAssembly request) (host_createAssembly host request) ;;
  if Js.truthyOpt (data_error data) || negb (Js.truthyOpt (assembly_ssl_url data)) then
    Async.throw (Js.orDefault (data_error data) "Transloadit assembly failed")
  else
  let assemblyUrl := Js.orDefault (assembly_ssl_url data) "" in
  returned <-
    Async.forRange 60 0 (fun i =>
      Async.emit (Sleep 1000) ;;
      pollJson <-
        Async.perform (PollAssembly assemblyUrl) (host_pollAssembly host assemblyUrl) ;;
      match
        (if Js.strictEq (poll_ok pollJson) "ASSEMBLY_COMPLETED" then
           match poll_ssl_url pollJson with
           | Some u => if Js.truthy u then Some u else None
           | None => None
           end
         else None)
      with
      | Some u => Async.ret (Some u)
      | None =>
          if (i =? 59)%nat then Async.throw "Transloadit assembly timed out"
          else Async.ret None
      end) ;;
  match returned with
  | Some u => Async.ret u
  | None => Async.throw "Transloadit assembly timed out"
  end.

(** Step 3 of [run]: the FFmpeg crop and its upload, and on any error of
    these the crop by Transloadit from the URL. *)
Definition cropAndUpload (payload : CropImageTaskPayload) (box : CropBox)
    (inputPath outputPath : string) : Async Ext string :=
  Async.tryCatch
    (ffmpegPath <- getFfmpegPath ;;
     (let cmd := FfmpegCrop ffmpegPath inputPath (w1 box) (h1 box) (x1 box) (y1 box) outputPath in
      Async.perform (Exec cmd) (host_exec host cmd)) ;;
     uploadCroppedImageToTransloaditV2 outputPath)
    (fun ffmpegOrUploadErr =>
       Async.emit (Log Warn "FFmpeg crop or upload failed; using Transloadit crop-from-URL") ;;
       cropViaTransloadit payload).

(** The [try] block of [run]. *)
Definition body (payload : CropImageTaskPayload) (inputPath outputPath : string)
  : Async Ext CropImageTaskResult :=
  (* 1. Download image *)
  imageRes <- Async.perform (Fetch (imageUrl payload)) (host_fetch host (imageUrl payload)) ;;
  if negb (resp_ok imageRes) then
    Async.throw ("Failed to fetch image: " ++ resp_status imageRes)
  else
  Async.perform (WriteFile inputPath) (host_writeFile host inputPath) ;;
  (* 2. Get dimensions *)
  dims <- getImageDimensions inputPath ;;
  let box := cropBox (fst dims) (snd dims) payload in
  Async.emit (Log Info "Crop dimensions") ;;
  (* 3. Try FFmpeg crop; if unavailable, use Transloadit-only *)
  croppedUrl <- cropAndUpload payload box inputPath outputPath ;;
  if negb (Js.truthy croppedUrl) then Async.throw "Failed to get cropped image URL" else
  Async.emit (Log Info "Crop image task completed") ;;
  Async.ret {| croppedImageUrl := croppedUrl |}.

(** The [run] function of the task. *)
Definition run (payload : CropImageTaskPayload) : Async Ext CropImageTaskResult :=
  Async.emit (Log Info "Starting crop image task (FFmpeg)") ;;
  tmpDir <- Async.mkdtemp host (Js.pathJoin (os_tmpdir env) "crop-") ;;
  let inputPath := Js.pathJoin tmpDir "input.jpg" in
  let outputPath := Js.pathJoin tmpDir "output.jpg" in
  Async.tryFinally (body payload inputPath outputPath) (Async.rm tmpDir).

End Run.
End CropImage.

(** * The task [extract-video-frame] *)

Module ExtractFrame.

Record ExtractFrameTaskPayload : Type :=
  { videoUrl : string;
    timestamp : Q;                  (* timestamp in seconds *)
    timestampPercent : option Q }.  (* optional: 0-100, percentage of duration *)

Record ExtractFrameTaskResult : Type := { frameImageUrl : string }.

Definition id : string := "extract-video-frame".
Definition maxDuration : Z := 300.

(** The timestamp the [try] block resolves from a percentage and the probed
    duration: [(Number(duration) * timestampPercent) / 100]. *)
Definition resolvedTimestamp (duration timestampPercent : Q) : Q :=
  Js.div (Js.mul (Js.number duration) (Js.number timestampPercent)) 100.

(** The offset the outer [catch] block computes:
    [(timestampPercent / 100) * 60], or [Number(timestamp)]. *)
Definition fallbackOffset (payload : ExtractFrameTaskPayload) : Q :=
  match timestampPercent payload with
  | Some timestampPercent => Js.mul (Js.div (Js.number timestampPercent) 100) 60
  | None => Js.number (timestamp payload)
  end.

Section Run.
Context {Ext : Type} (host : Host Ext) (env : Env).

Definition TRANSLOADIT_AUTH_KEY : string :=
  Js.orDefault (NEXT_PUBLIC_TRANSLOADIT_KEY env) "".

(** [getFfprobePath()] *)
Definition getFfprobePath : Async Ext string :=
  p <- Async.perform (Import "ffprobe-static") (host_importFfprobe host) ;;
  if negb (Js.truthy p) then Async.throw "ffprobe-static path not found"
  else Async.ret p.

(** [getFfmpegPath()] *)
Definition getFfmpegPath : Async Ext string :=
  p <- Async.perform (Import "ffmpeg-static") (host_importFfmpeg host) ;;
  match p with
  | Some p => if Js.truthy p then Async.ret p else Async.throw "ffmpeg-static path not found"
  | None => Async.throw "ffmpeg-static path not found"
  end.

(** [getVideoDuration(filePath)]: the duration in seconds, by ffprobe. *)
Definition getVideoDuration (filePath : string) : Async Ext Q :=
  ffprobePath <- getFfprobePath ;;
  probed <-
    (let cmd := FfprobeDuration ffprobePath filePath in
     Async.perform (Exec cmd) (host_probe host cmd)) ;;
  match snd probed with
  | Some duration =>
      if negb (Qle_bool 0 duration)
      then Async.throw ("Could not get video duration: " ++ fst probed)
      else Async.ret duration
  | None => Async.throw ("Could not get video duration: " ++ fst probed)
  end.

(** [uploadFrameToTransloadit(localPath)] *)
Definition uploadFrameToTransloadit (localPath : string) : Async Ext string :=
  if negb (Js.truthy TRANSLOADIT_AUTH_KEY) then
    Async.throw "NEXT_PUBLIC_TRANSLOADIT_KEY is not configured."
  else
  Async.perform (ReadFile localPath) (host_readFile host localPath) ;;
  let fileName := Js.basename localPath in
  let request := FileImport TRANSLOADIT_AUTH_KEY fileName in
  data <- Async.perform (CreateAssembly request) (host_createAssembly host request) ;;
  if Js.truthyOpt (data_error data) || Js.truthyOpt (data_message data) then
    Async.throw
      (Js.orDefault (Js.or (data_message data) (data_error data)) "Transloadit assembly failed")
  else
  match assembly_ssl_url data with
  | None => Async.throw "No assembly URL in response"
  | Some assemblyUrl =>
    if negb (Js.truthy assemblyUrl) then Async.throw "No assembly URL in response" else
    returned <-
      Async.forRange 90 0 (fun attempt =>
        Async.emit (Sleep 1000) ;;
        pollData <-
          Async.perform (PollAssembly assemblyUrl) (host_pollAssembly host assemblyUrl) ;;
        if Js.strictEq (poll_ok pollData) "ASSEMBLY_COMPLETED" then
          match poll_ssl_url pollData with
          | Some url =>
              if Js.truthy url then Async.ret (Some url)
              else Async.throw "No import URL in assembly result"
          | None => Async.throw "No import URL in assembly result"
          end
        else
        match poll_error pollData with
        | Some e => if Js.truthy e then Async.throw e else Async.ret None
        | None => Async.ret None
        end) ;;
    match returned with
    | Some url => Async.ret url
    | None => Async.throw "Transloadit assembly timed out"
    end
  end.

(** [extractFrameViaTransloadit(offsetSeconds)], the function declared inside
    [run]: a single frame by Transloadit's [/video/thumbs], without FFmpeg. *)
Definition extractFrameViaTransloadit (payload : ExtractFrameTaskPayload)
    (offsetSeconds : Q) : Async Ext string :=
  if negb (Js.truthy TRANSLOADIT_AUTH_KEY) then
    Async.throw "NEXT_PUBLIC_TRANSLOADIT_KEY is not configured"
  else
  let request := VideoThumbs TRANSLOADIT_AUTH_KEY (videoUrl payload) offsetSeconds in
  data <- Async.perform (CreateAssembly request) (host_createAssembly host request) ;;
  if Js.truthyOpt (data_error data) || negb (Js.truthyOpt (assembly_ssl_url data)) then
    Async.throw (Js.orDefault (data_error data) "Transloadit assembly failed")
  else
  let assemblyUrl := Js.orDefault (assembly_ssl_url data) "" in
  returned <-
    Async.forRange 90 0 (fun i =>
      Async.emit (Sleep 1000) ;;
      pollJson <-
        Async.perform (PollAssembly assemblyUrl) (host_pollAssembly host assemblyUrl) ;;
      match
        (if Js.strictEq (poll_ok pollJson) "ASSEMBLY_COMPLETED" then
           match poll_ssl_url pollJson with
           | Some u => if Js.truthy u then Some u else None
           | None => None
           end
         else None)
      with
      | Some u => Async.ret (Some u)
      | None =>
          if (i =? 89)%nat then Async.throw "Transloadit assembly timed out"
          else Async.ret None
      end) ;;
  match returned with
  | Some u => Async.ret u
  | None => Async.throw "Transloadit assembly timed out"
  end.

(** The inner [try] block of [run]: download, resolve the timestamp, extract
    the frame with FFmpeg, upload it (or, on an upload error, extract by
    Transloadit at the resolved timestamp). *)
Definition extractLocally (payload : ExtractFrameTaskPayload) (videoPath framePath : string)
  : Async Ext string :=
  (* 1. Download video *)
  videoRes <- Async.perform (Fetch (videoUrl payload)) (host_fetch host (videoUrl payload)) ;;
  if negb (resp_ok videoRes) then
    Async.throw ("Failed to fetch video: " ++ resp_status videoRes)
  else
  Async.perform (WriteFile videoPath) (host_writeFile host videoPath) ;;
  (* 2. Resolve timestamp: if percentage, get duration first *)
  timestampSeconds <-
    match timestampPercent payload with
    | Some timestampPercent =>
        duration <- getVideoDuration videoPath ;;
        Async.emit (Log Info "Resolved timestamp from percentage") ;;
        Async.ret (resolvedTimestamp duration timestampPercent)
    | None => Async.ret (Js.number (timestamp payload))
    end ;;
  (* 3. Extract frame with FFmpeg *)
  ffmpegPath <- getFfmpegPath ;;
  (let cmd := FfmpegFrame ffmpegPath timestampSeconds videoPath framePath in
   Async.perform (Exec cmd) (host_exec host cmd)) ;;
  (* 4. Upload frame to Transloadit (or fallback to Transloadit video/thumbs) *)
  Async.tryCatch
    (uploadFrameToTransloadit framePath)
    (fun uploadErr =>
       Async.emit
         (Log Warn "Transloadit file upload failed; using Transloadit video/thumbs fallback") ;;
       extractFrameViaTransloadit payload timestampSeconds).

(** The outer [try]/[catch] of [run]. *)
Definition extractWithFallback (payload : ExtractFrameTaskPayload)
    (videoPath framePath : string) : Async Ext string :=
  Async.tryCatch
    (extractLocally payload videoPath framePath)
    (fun ffmpegErr =>
       (* FFmpeg/ffprobe not available -> use Transloadit-only *)
       Async.emit (Log Warn "FFmpeg extract failed; using Transloadit video/thumbs") ;;
       let offsetSeconds := fallbackOffset payload in
       extractFrameViaTransloadit payload offsetSeconds).

(** The [try] block of [run] that the [finally] guards. *)
Definition body (payload : ExtractFrameTaskPayload) (videoPath framePath : string)
  : Async Ext ExtractFrameTaskResult :=
  frameUrl <- extractWithFallback payload videoPath framePath ;;
  if negb (Js.truthy frameUrl) then Async.throw "Failed to get frame image URL" else
  Async.emit (Log Info "Extract frame task completed") ;;
  Async.ret {| frameImageUrl := frameUrl |}.

(** The [run] function of the task. *)
Definition run (payload : ExtractFrameTaskPayload) : Async Ext ExtractFrameTaskResult :=
  Async.emit (Log Info "Starting extract frame task (FFmpeg)") ;;
  tmpDir <- Async.mkdtemp host (Js.pathJoin (os_tmpdir env) "extract-frame-") ;;
  let videoPath := Js.pathJoin tmpDir "video" in
  let framePath := Js.pathJoin tmpDir "frame.jpg" in
  Async.tryFinally (body payload videoPath framePath) (Async.rm tmpDir).

End Run.
End ExtractFrame.

(** * The workflow server actions *)

Module WorkflowActions.
Section Actions.
(** The JSON values of the [nodes] and [edges] columns. *)
Context {Json : Type}.

(** A row of the [workflow] table; its primary key [id] is the key of the map. *)
Record Workflow : Type :=
  { name : string;
    thumbnail : option string;
    folderId : option string;
    nodes : list Json;
    edges : list Json;
    userId : string }.

(** The [workflow] table: rows by primary key. *)
Abbreviation Table := (gmap string Workflow).

Record AuthUser : Type := { user_id : string; clerkUserId : string; email : string }.

(** The input of [updateWorkflow]; [None] is [undefined]. *)
Record UpdateInput : Type :=
  { id : string;
    new_name : option string;
    new_folderId : option (option string);
    new_nodes : option (list Json);
    new_edges : option (list Json);
    new_thumbnail : option string }.

(** The [data] object [updateWorkflow] builds: the fields that are not [undefined]. *)
Record UpdateData : Type :=
  { data_name : option string;
    data_folderId : option (option string);
    data_nodes : option (list Json);
    data_edges : option (list Json);
    data_thumbnail : option string }.

(** A server action: it reads and writes the table, and returns or throws. *)
Definition Action (A : Type) : Type := Table -> Result A * Table.

(** [prisma.workflow.findFirst({ where: { id, userId } })] *)
Definition findFirst (id userId' : string) (db : Table) : option Workflow :=
  match db !! id with
  | Some workflow => if (userId workflow =? userId')%string then Some workflow else None
  | None => None
  end.

Definition applyData (data : UpdateData) (workflow : Workflow) : Workflow :=
  {| name := match data_name data with Some n => n | None => name workflow end;
     thumbnail :=
       match data_thumbnail data with Some t => Some t | None => thumbnail workflow end;
     folderId := match data_folderId data with Some f => f | None => folderId workflow end;
     nodes := match data_nodes data with Some n => n | None => nodes workflow end;
     edges := match data_edges data with Some e => e | None => edges workflow end;
     userId := userId workflow |}.

(** [prisma.workflow.update({ where: { id }, data })] *)
Definition update (id : string) (data : UpdateData) : Action Workflow :=
  fun db =>
    match db !! id with
    | Some workflow =>
        let workflow' := applyData data workflow in
        (Ok workflow', <[id := workflow']> db)
    | None => (Throw "Record to update not found.", db)
    end.

(** [prisma.workflow.delete({ where: { id } })] *)
Definition delete (id : string) : Action Workflow :=
  fun db =>
    match db !! id with
    | Some workflow => (Ok workflow, base.delete id db)
    | None => (Throw "Record to delete does not exist.", db)
    end.

(** [updateWorkflow(input)]; [session] is what [getAuthUser()] resolves to. *)
Definition updateWorkflow (session : Result AuthUser) (input : UpdateInput)
  : Action Workflow :=
  fun db =>
    match session with
    | Throw e => (Throw e, db)
    | Ok user =>
        match findFirst (id input) (user_id user) db with
        | None => (Throw "Workflow not found", db)
        | Some existing =>
            let data :=
              {| data_name := new_name input;
                 data_folderId := new_folderId input;
                 data_nodes := new_nodes input;
                 data_edges := new_edges input;
                 data_thumbnail := new_thumbnail input |} in
            update (id input) data db
        end
    end.

(** [deleteWorkflow(input)] *)
Definition deleteWorkflow (session : Result AuthUser) (id : string) : Action string :=
  fun db =>
    match session with
    | Throw e => (Throw e, db)
    | Ok user =>
        match findFirst id (user_id user) db with
        | None => (Throw "Workflow not found", db)
        | Some existing =>
            match delete id db with
            | (Ok _, db') => (Ok "Workflow deleted successfully", db')
            | (Throw e, db') => (Throw e, db')
            end
        end
    end.

(** [getWorkflowById(input)] *)
Definition getWorkflowById (session : Result AuthUser) (id : string) : Action Workflow :=
  fun db =>
    match session with
    | Throw e => (Throw e, db)
    | Ok user =>
        match findFirst id (user_id user) db with
        | None => (Throw "Workflow not found", db)
        | Some workflow => (Ok workflow, db)
        end
    end.

(** The input of [createWorkflow]; [None] is [undefined], [Some None] is [null]. *)
Record CreateInput : Type :=
  { init_name : option string;
    init_folderId : option (option string);
    init_nodes : option (list Json);
    init_edges : option (list Json) }.

(** [prisma.workflow.create({ data })]; [generatedId] is the primary key the
    database gives the new row.  The [thumbnail] column, which [data] does
    not set, starts empty. *)
Definition create (generatedId : string) (workflow : Workflow) : Action Workflow :=
  fun db =>
    match db !! generatedId with
    | Some _ => (Throw "Unique constraint failed on the fields: (`id`)", db)
    | None => (Ok workflow, <[generatedId := workflow]> db)
    end.

(** [createWorkflow(input)]: the new row and its id. *)
Definition createWorkflow (session : Result AuthUser) (generatedId : string)
    (input : CreateInput) : Action (string * Workflow) :=
  fun db =>
    match session with
    | Throw e => (Throw e, db)
    | Ok user =>
        let data :=
          {| name := match init_name input with Some n => n | None => "untitled" end;
             thumbnail := None;
             folderId := match init_folderId input with Some f => f | None => None end;
             nodes := match init_nodes input with Some n => n | None => [] end;
             edges := match init_edges input with Some e => e | None => [] end;
             userId := user_id user |} in
        match create generatedId data db with
        | (Ok workflow, db') => (Ok (generatedId, workflow), db')
        | (Throw e, db') => (Throw e, db')
        end
    end.

End Actions.
End WorkflowActions.

(** * The folder server actions ([src/unnamed/part_006]) *)

Module FolderActions.
Section Actions.
Context {Json : Type}.
(** What the database does to [updatedAt] when it updates a row. *)
Context (touch : Z -> Z).

(** A row of the [folder] table; its primary key is the key of the map. *)
Record Folder : Type :=
  { name : string;
    parentId : option string;
    userId : string;
    createdAt : Z;
    updatedAt : Z }.

(** The two tables the folder actions read and write. *)
Record Db : Type :=
  { folders : gmap string Folder;
    workflows : gmap string (@WorkflowActions.Workflow Json) }.

(** What [formatFolder] returns. *)
Record FolderView : Type :=
  { view_id : string;
    view_name : string;
    view_parentId : option string;
    fileCount : nat;
    view_createdAt : Z;
    view_updatedAt : Z }.

Definition Action (A : Type) : Type := Db -> Result A * Db.

(** [_count: { workflows }]: the workflows filed in the folder. *)
Definition countWorkflows (id : string) (db : Db) : nat :=
  size (filter (fun kv => WorkflowActions.folderId (snd kv) = Some id) (workflows db)).

(** [formatFolder(folder)], with the [_count] the caller included, if any. *)
Definition formatFolder (id : string) (folder : Folder) (count : option nat) : FolderView :=
  {| view_id := id;
     view_name := name folder;
     view_parentId := parentId folder;
     fileCount := match count with Some n => n | None => 0%nat end;
     view_createdAt := createdAt folder;
     view_updatedAt := updatedAt folder |}.

(** [prisma.folder.findFirst({ where: { id, userId } })] *)
Definition findFirst (id userId' : string) (db : Db) : option Folder :=
  match folders db !! id with
  | Some folder => if (userId folder =? userId')%string then Some folder else None
  | None => None
  end.

(** [getFolderById(input)] *)
Definition getFolderById (session : Result WorkflowActions.AuthUser) (id : string)
  : Action FolderView :=
  fun db =>
    match session with
    | Throw e => (Throw e, db)
    | Ok user =>
        match findFirst id (WorkflowActions.user_id user) db with
        | None => (Throw "Folder not found", db)
        | Some folder => (Ok (formatFolder id folder (Some (countWorkflows id db))), db)
        end
    end.

(** The input of [createFolder]; for [parentId], [None] is [undefined] and
    [Some None] is [null]. *)
Record CreateInput : Type :=
  { new_name : string;
    new_parentId : option (option string) }.

(** [createFolder(input)]; [generatedId] and [now] are the primary key and
    the timestamps the database gives the new row. *)
Definition createFolder (session : Result WorkflowActions.AuthUser)
    (generatedId : string) (now : Z) (input : CreateInput) : Action FolderView :=
  fun db =>
    match session with
    | Throw e => (Throw e, db)
    | Ok user =>
        let parentMissing :=
          match new_parentId input with
          | Some (Some parent) =>
              if Js.truthy parent then
                match findFirst parent (WorkflowActions.user_id user) db with
                | Some _ => false
                | None => true
                end
              else false
          | _ => false
          end in
        if parentMissing then (Throw "Parent folder not found", db)
        else
          let folder :=
            {| name := new_name input;
               parentId := match new_parentId input with Some p => p | None => None end;
               userId := WorkflowActions.user_id user;
               createdAt := now;
               updatedAt := now |} in
          match folders db !! generatedId with
          | Some _ => (Throw "Unique constraint failed on the fields: (`id`)", db)
          | None =>
              (Ok (formatFolder generatedId folder (Some 0%nat)),
               {| folders := <[generatedId := folder]> (folders db);
                  workflows := workflows db |})
          end
    end.

(** [prisma.workflow.updateMany({ where: { userId, folderId }, data: { folderId: null } })] *)
Definition unfileWorkflows (userId' id : string)
    (table : gmap string (@WorkflowActions.Workflow Json))
  : gmap string (@WorkflowActions.Workflow Json) :=
  (fun workflow =>
     if (WorkflowActions.userId workflow =? userId')%string
        && bool_decide (WorkflowActions.folderId workflow = Some id)
     then
       {| WorkflowActions.name := WorkflowActions.name workflow;
          WorkflowActions.thumbnail := WorkflowActions.thumbnail workflow;
          WorkflowActions.folderId := None;
          WorkflowActions.nodes := WorkflowActions.nodes workflow;
          WorkflowActions.edges := WorkflowActions.edges workflow;
          WorkflowActions.userId := WorkflowActions.userId workflow |}
     else workflow) <$> table.

(** [prisma.folder.updateMany({ where: { userId, parentId }, data: { parentId: null } })] *)
Definition orphanFolders (userId' id : string) (table : gmap string Folder)
  : gmap string Folder :=
  (fun folder =>
     if (userId folder =? userId')%string && bool_decide (parentId folder = Some id)
     then
       {| name := name folder;
          parentId := None;
          userId := userId folder;
          createdAt := createdAt folder;
          updatedAt := touch (updatedAt folder) |}
     else folder) <$> table.

(** What becomes of a call to the database that the database may reject:
    with a rejection, the action throws it and the database stays as the
    calls before have left it. *)
Definition answered {A} (rejection : option string) (db : Db) (go : Result A * Db)
  : Result A * Db :=
  match rejection with
  | Some e => (Throw e, db)
  | None => go
  end.

(** [deleteFolder(input)]: a lookup and three writes in a row, outside any
    transaction.  [rejected n] is the error with which the database rejects
    the [n]-th of these four calls, if it rejects it. *)
Definition deleteFolder (session : Result WorkflowActions.AuthUser)
    (rejected : nat -> option string) (id : string) : Action string :=
  fun db =>
    match session with
    | Throw e => (Throw e, db)
    | Ok user =>
        answered (rejected 0%nat) db
          match findFirst id (WorkflowActions.user_id user) db with
          | None => (Throw "Folder not found", db)
          | Some existing =>
              answered (rejected 1%nat) db
                (let db1 :=
                   {| folders := folders db;
                      workflows :=
                        unfileWorkflows (WorkflowActions.user_id user) id (workflows db) |} in
                 answered (rejected 2%nat) db1
                   (let db2 :=
                      {| folders :=
                           orphanFolders (WorkflowActions.user_id user) id (folders db1);
                         workflows := workflows db1 |} in
                    answered (rejected 3%nat) db2
                      match folders db2 !! id with
                      | Some _ =>
                          (Ok "Folder deleted successfully",
                           {| folders := base.delete id (folders db2);
                              workflows := workflows db2 |})
                      | None => (Throw "Record to delete does not exist.", db2)
                      end))
          end
    end.

(** The input of [updateFolder]; [None] is [undefined], [Some None] is [null]. *)
Record UpdateInput : Type :=
  { id : string;
    upd_name : option string;
    upd_parentId : option (option string) }.

(** [updateFolder(input)]: [data] is the input without its [id]. *)
Definition updateFolder (session : Result WorkflowActions.AuthUser) (input : UpdateInput)
  : Action FolderView :=
  fun db =>
    match session with
    | Throw e => (Throw e, db)
    | Ok user =>
        match findFirst (id input) (WorkflowActions.user_id user) db with
        | None => (Throw "Folder not found", db)
        | Some existing =>
            match folders db !! id input with
            | Some folder =>
                let folder' :=
                  {| name := match upd_name input with Some n => n | None => name folder end;
                     parentId :=
                       match upd_parentId input with Some p => p | None => parentId folder end;
                     userId := userId folder;
                     createdAt := createdAt folder;
                     updatedAt := touch (updatedAt folder) |} in
                let db' :=
                  {| folders := <[id input := folder']> (folders db);
                     workflows := workflows db |} in
                (Ok (formatFolder (id input) folder' (Some (countWorkflows (id input) db'))),
                 db')
            | None => (Throw "Record to update not found.", db)
            end
        end
    end.

End Actions.
End FolderActions.

(** * The server-side auth helper ([src/unnamed/part_007]) *)

Module AuthServer.

Record AuthUser : Type :=
  { id : string;
    clerkUserId : string;
    email : string;
    name : string;
    avatar : option string;
    createdAt : Z;
    updatedAt : Z }.

(** What the code reads of a Clerk user. *)
Record EmailAddress : Type := { address_id : string; emailAddress : string }.

Record ClerkUser : Type :=
  { emailAddresses : list EmailAddress;
    primaryEmailAddressId : option string;
    firstName : option string;
    lastName : option string;
    imageUrl : option string }.

(** What the awaited calls answer: [auth()] (the session's user id, or
    [null]); whether the database answers the lookup
    [prisma.user.findUnique] (with the row of the table, if there is one) or
    rejects it; [clerkClient()] and [users.getUser(id)]; and the id and time
    the database gives a new row (or the error of [prisma.user.create]). *)
Record Outside : Type :=
  { auth : Result (option string);
    findUnique : Result unit;
    getUser : string -> Result ClerkUser;
    generated : Result (string * Z) }.

(** The [user] table, by its unique column [clerkUserId]. *)
Abbreviation Users := (gmap string AuthUser).

Definition masked : string := "User not found. Please sign out and sign in again.".

(** [primaryEmail?.emailAddress ?? clerkUser.emailAddresses[0]?.emailAddress] *)
Definition chosenEmail (clerkUser : ClerkUser) : option string :=
  match
    find (fun e => Js.strictEq (primaryEmailAddressId clerkUser) (address_id e))
      (emailAddresses clerkUser)
  with
  | Some primaryEmail => Some (emailAddress primaryEmail)
  | None =>
      match emailAddresses clerkUser with
      | first :: _ => Some (emailAddress first)
      | [] => None
      end
  end.

(** [email.split('@')[0]] *)
Fixpoint beforeAt (s : string) : string :=
  match s with
  | EmptyString => EmptyString
  | String c s' => if Ascii.eqb c "@" then EmptyString else String c (beforeAt s')
  end.

(** [[firstName, lastName].filter(Boolean).join(' ')] *)
Definition joinedNames (clerkUser : ClerkUser) : string :=
  match Js.truthyOpt (firstName clerkUser), Js.truthyOpt (lastName clerkUser) with
  | true, true =>
      Js.orDefault (firstName clerkUser) "" ++ " " ++ Js.orDefault (lastName clerkUser) ""
  | true, false => Js.orDefault (firstName clerkUser) ""
  | false, true => Js.orDefault (lastName clerkUser) ""
  | false, false => ""
  end.

(** [getAuthUser()] *)
Definition getAuthUser (outside : Outside) (users : Users) : Result AuthUser * Users :=
  match auth outside with
  | Throw e => (Throw e, users)
  | Ok session =>
      if negb (Js.truthyOpt session) then (Throw "Authentication required", users)
      else
        let clerkUserId := Js.orDefault session "" in
        (* the lookup is awaited before the [try]: its error is thrown as it is *)
        match findUnique outside with
        | Throw e => (Throw e, users)
        | Ok _ =>
            match users !! clerkUserId with
            | Some user => (Ok user, users)
            | None =>
                (* try *)
                match getUser outside clerkUserId with
                | Throw _ => (Throw masked, users)
                | Ok clerkUser =>
                    if negb (Js.truthyOpt (chosenEmail clerkUser)) then (Throw masked, users)
                    else
                      let email := Js.orDefault (chosenEmail clerkUser) "" in
                      let name :=
                        if Js.truthy (joinedNames clerkUser) then joinedNames clerkUser
                        else beforeAt email in
                      match generated outside with
                      | Throw _ => (Throw masked, users)
                      | Ok (newId, now) =>
                          let user :=
                            {| id := newId;
                               clerkUserId := clerkUserId;
                               email := email;
                               name := name;
                               avatar := imageUrl clerkUser;
                               createdAt := now;
                               updatedAt := now |} in
                          (Ok user, <[clerkUserId := user]> users)
                      end
                end
            end
        end
  end.

End AuthServer.

(** * The client-side auth utilities ([src/src/lib/auth.ts]) *)

Module ClientAuth.

Definition AUTH_TOKEN_KEY : string := "weavyai:token".
Definition AUTH_USER_KEY : string := "weavyai:user".

(** Where the code runs: whether [window] is defined, and [localStorage]. *)
Record Browser : Type :=
  { window : bool;
    localStorage : gmap string string }.

(** [getStoredToken()] *)
Definition getStoredToken (b : Browser) : option string :=
  if negb (window b) then None else localStorage b !! AUTH_TOKEN_KEY.

(** [setStoredToken(token)] *)
Definition setStoredToken (token : option string) (b : Browser) : Browser :=
  if negb (window b) then b
  else if Js.truthyOpt token
       then {| window := window b;
               localStorage := <[AUTH_TOKEN_KEY := Js.orDefault token ""]> (localStorage b) |}
       else {| window := window b;
               localStorage := base.delete AUTH_TOKEN_KEY (localStorage b) |}.

(** [isAuthenticated()] *)
Definition isAuthenticated (b : Browser) : bool := Js.truthyOpt (getStoredToken b).

Section Json.
(** The values handed to [setStoredUser], with [JSON.stringify], [JSON.parse]
    ([None] when it throws or yields [null]) and truthiness. *)
Context {Value : Type}.
Context (stringify : Value -> string) (parse : string -> option Value)
        (truthy : Value -> bool).

(** [getStoredUser()]; [None] is [null]. *)
Definition getStoredUser (b : Browser) : option Value :=
  if negb (window b) then None
  else
    match localStorage b !! AUTH_USER_KEY with
    | Some raw => if Js.truthy raw then parse raw else None
    | None => None
    end.

(** [setStoredUser(user)]; [None] is [null]. *)
Definition setStoredUser (user : option Value) (b : Browser) : Browser :=
  if negb (window b) then b
  else
    match user with
    | Some u =>
        if truthy u
        then {| window := window b;
                localStorage := <[AUTH_USER_KEY := stringify u]> (localStorage b) |}
        else {| window := window b;
                localStorage := base.delete AUTH_USER_KEY (localStorage b) |}
    | None => {| window := window b;
                 localStorage := base.delete AUTH_USER_KEY (localStorage b) |}
    end.

(** [clearAuth()] *)
Definition clearAuth (b : Browser) : Browser :=
  setStoredUser None (setStoredToken None b).

End Json.
End ClientAuth.

(** * Scripted outsides

    Concrete hosts to run the tasks against.  The state of a scripted outside
    is the number of assemblies created so far, so that a script can answer
    the first creation differently from the second. *)

Module Scripted.

Record Script : Type :=
  { fetchAnswer : Result Response;
    writeAnswer : Result unit;
    readAnswer : Result unit;
    imageSizeAnswer : Result (option Z * option Z);
    ffmpegAnswer : Result (option string);
    ffprobeAnswer : Result string;
    execAnswer : Result unit;
    probeAnswer : Result (string * option Q);
    assemblyAnswer : nat -> Assembly -> Result AssemblyData;
    pollAnswer : Result PollData;
    geminiAnswer : string -> Result string;
    mkdtempAnswer : string -> Result string }.

Definition host (s : Script) : Host nat :=
  {| host_fetch := fun _ n => (fetchAnswer s, n);
     host_writeFile := fun _ n => (writeAnswer s, n);
     host_readFile := fun _ n => (readAnswer s, n);
     host_imageSize := fun _ n => (imageSizeAnswer s, n);
     host_importFfmpeg := fun n => (ffmpegAnswer s, n);
     host_importFfprobe := fun n => (ffprobeAnswer s, n);
     host_exec := fun _ n => (execAnswer s, n);
     host_probe := fun _ n => (probeAnswer s, n);
     host_createAssembly := fun a n => (assemblyAnswer s n a, S n);
     host_pollAssembly := fun _ n => (pollAnswer s, n);
     host_generateContent := fun key _ _ n => (geminiAnswer s key, n);
     host_mkdtemp := fun prefix n => (mkdtempAnswer s prefix, n) |}.

Definition created (url : string) : AssemblyData :=
  {| assembly_ssl_url := Some url; data_error := None; data_message := None |}.

Definition refused (error : string) : AssemblyData :=
  {| assembly_ssl_url := None; data_error := Some error; data_message := None |}.

Definition completed (url : string) : PollData :=
  {| poll_ok := Some "ASSEMBLY_COMPLETED"; poll_ssl_url := Some url; poll_error := None |}.

Definition executing : PollData :=
  {| poll_ok := Some "ASSEMBLY_EXECUTING"; poll_ssl_url := None; poll_error := None |}.

(** Everything works: a 1000 by 500 image, a video of 120 seconds, both
    binaries present, assemblies created and completed at the first poll. *)
Definition allWell : Script :=
  {| fetchAnswer := Ok {| resp_ok := true; resp_status := "200" |};
     writeAnswer := Ok tt;
     readAnswer := Ok tt;
     imageSizeAnswer := Ok (Some 1000%Z, Some 500%Z);
     ffmpegAnswer := Ok (Some "/opt/ffmpeg");
     ffprobeAnswer := Ok "/opt/ffprobe";
     execAnswer := Ok tt;
     probeAnswer := Ok ("120.000000", Some 120%Q);
     assemblyAnswer := fun _ _ => Ok (created "https://api2.transloadit.com/assemblies/1");
     pollAnswer := Ok (completed "https://cdn.example.com/result.jpg");
     geminiAnswer := fun _ => Ok "Hello.";
     mkdtempAnswer := fun prefix => Ok (prefix ++ "Ab12Cd") |}.

Definition withFfmpeg (a : Result (option string)) (s : Script) : Script :=
  {| fetchAnswer := fetchAnswer s; writeAnswer := writeAnswer s; readAnswer := readAnswer s;
     imageSizeAnswer := imageSizeAnswer s; ffmpegAnswer := a;
     ffprobeAnswer := ffprobeAnswer s; execAnswer := execAnswer s;
     probeAnswer := probeAnswer s; assemblyAnswer := assemblyAnswer s;
     pollAnswer := pollAnswer s; geminiAnswer := geminiAnswer s;
     mkdtempAnswer := mkdtempAnswer s |}.

Definition withAssemblies (a : nat -> Assembly -> Result AssemblyData) (s : Script) : Script :=
  {| fetchAnswer := fetchAnswer s; writeAnswer := writeAnswer s; readAnswer := readAnswer s;
     imageSizeAnswer := imageSizeAnswer s; ffmpegAnswer := ffmpegAnswer s;
     ffprobeAnswer := ffprobeAnswer s; execAnswer := execAnswer s;
     probeAnswer := probeAnswer s; assemblyAnswer := a;
     pollAnswer := pollAnswer s; geminiAnswer := geminiAnswer s;
     mkdtempAnswer := mkdtempAnswer s |}.

Definition withPolls (a : Result PollData) (s : Script) : Script :=
  {| fetchAnswer := fetchAnswer s; writeAnswer := writeAnswer s; readAnswer := readAnswer s;
     imageSizeAnswer := imageSizeAnswer s; ffmpegAnswer := ffmpegAnswer s;
     ffprobeAnswer := ffprobeAnswer s; execAnswer := execAnswer s;
     probeAnswer := probeAnswer s; assemblyAnswer := assemblyAnswer s;
     pollAnswer := a; geminiAnswer := geminiAnswer s;
     mkdtempAnswer := mkdtempAnswer s |}.

Definition withGemini (a : string -> Result string) (s : Script) : Script :=
  {| fetchAnswer := fetchAnswer s; writeAnswer := writeAnswer s; readAnswer := readAnswer s;
     imageSizeAnswer := imageSizeAnswer s; ffmpegAnswer := ffmpegAnswer s;
     ffprobeAnswer := ffprobeAnswer s; execAnswer := execAnswer s;
     probeAnswer := probeAnswer s; assemblyAnswer := assemblyAnswer s;
     pollAnswer := pollAnswer s; geminiAnswer := a;
     mkdtempAnswer := mkdtempAnswer s |}.

(** The environment of the examples. *)
Definition env : Env :=
  {| GOOGLE_GEMINI_API_KEY := Some "primary-key";
     GOOGLE_GEMINI_API_KEY_BACKUP := Some "backup-key";
     NEXT_PUBLIC_TRANSLOADIT_KEY := Some "transloadit-key";
     os_tmpdir := "/tmp" |}.

(** The world before anything ran: no scratch directory, no assembly. *)
Definition start : World nat := {| tmpdirs := ∅; ext := 0 |}.

(** A backend that never finishes an assembly. *)
Definition stalledBackend : Script := withPolls (Ok executing) allWell.

(** *** Scripts for the inference task *)

Definition prompt : LlmTask.LLMTaskPayload :=
  {| LlmTask.model := gemini_2_5_flash;
     LlmTask.systemPrompt := Some "Be brief.";
     LlmTask.userMessage := "Describe the image.";
     LlmTask.images := Some ["iVBORw0KGgoAAAANSUhEUg"; "/9j/4AAQSkZJRgABAQ"] |}.

Definition quotaMessage : string :=
  "[429 Too Many Requests] You exceeded your current quota.".

(** The primary key is out of quota, the backup key works. *)
Definition quotaThenOk : Script :=
  withGemini
    (fun key => if (key =? "primary-key")%string then Throw quotaMessage else Ok "Hello.")
    allWell.

Definition keyMessage : string := "API key not valid. Please pass a valid API key.".

(** Every key is rejected. *)
Definition keyRejected : Script := withGemini (fun _ => Throw keyMessage) allWell.

(** The rejection of a key as the Gemini SDK words a failed fetch: the
    message names the URL of the [generateContent] endpoint. *)
Definition keyFetchMessage : string :=
  "[GoogleGenerativeAI Error]: Error fetching from "
  ++ "https://generativelanguage.googleapis.com/v1beta/models/gemini-2.5-flash:generateContent: "
  ++ "[400 Bad Request] API key not valid. Please pass a valid API key.".

(** The primary key is rejected with that message, the backup key works. *)
Definition keyFetchRejected : Script :=
  withGemini
    (fun key => if (key =? "primary-key")%string then Throw keyFetchMessage else Ok "Hello.")
    allWell.

(** Both keys are rejected with that message. *)
Definition keysFetchRejected : Script := withGemini (fun _ => Throw keyFetchMessage) allWell.

(** *** Scripts for the frame-extraction task *)

Definition halfway : ExtractFrame.ExtractFrameTaskPayload :=
  {| ExtractFrame.videoUrl := "https://example.com/clip.mp4";
     ExtractFrame.timestamp := 0;
     ExtractFrame.timestampPercent := Some 50%Q |}.

Definition atFiveSeconds : ExtractFrame.ExtractFrameTaskPayload :=
  {| ExtractFrame.videoUrl := "https://example.com/clip.mp4";
     ExtractFrame.timestamp := 5;
     ExtractFrame.timestampPercent := None |}.

(** The FFmpeg binary is not in the bundle; ffprobe is, and reports 120 seconds. *)
Definition ffmpegMissing : Script :=
  withFfmpeg (Throw "Cannot find module 'ffmpeg-static'") allWell.

(** The upload of the extracted frame is refused, the first [/video/thumbs]
    assembly is refused too, and the next one is accepted. *)
Definition uploadAndFirstThumbsRefused : Script :=
  withAssemblies
    (fun n _ =>
       match n with
       | 0 => Ok (refused "FILE_IMPORT_NOT_ALLOWED")
       | 1 => Ok (refused "SERVER_TEMPORARILY_UNAVAILABLE")
       | _ => Ok (created "https://api2.transloadit.com/assemblies/3")
       end)
    allWell.

(** The upload of the result is refused; the remote assemblies are accepted. *)
Definition uploadRefused : Script :=
  withAssemblies
    (fun n _ =>
       match n with
       | 0 => Ok (refused "FILE_IMPORT_NOT_ALLOWED")
       | _ => Ok (created "https://api2.transloadit.com/assemblies/2")
       end)
    allWell.

(** Every assembly is refused. *)
Definition allRefused : Script :=
  withAssemblies (fun _ _ => Ok (refused "SERVER_TEMPORARILY_UNAVAILABLE")) allWell.

Definition squarePart : CropImage.CropImageTaskPayload :=
  {| CropImage.imageUrl := "https://example.com/photo.jpg";
     CropImage.cropX := 10; CropImage.cropY := 20;
     CropImage.cropWidth := 50; CropImage.cropHeight := 60 |}.

(** *** A table for the workflow actions *)

Definition flow (owner name : string) : @WorkflowActions.Workflow string :=
  {| WorkflowActions.name := name;
     WorkflowActions.thumbnail := None;
     WorkflowActions.folderId := None;
     WorkflowActions.nodes := [];
     WorkflowActions.edges := [];
     WorkflowActions.userId := owner |}.

(** Two workflows: [wf-1] of Ada, [wf-2] of Bob. *)
Definition table : gmap string (@WorkflowActions.Workflow string) :=
  <["wf-1" := flow "user-ada" "Poster"]> (<["wf-2" := flow "user-bob" "Teaser"]> ∅).

Definition ada : WorkflowActions.AuthUser :=
  {| WorkflowActions.user_id := "user-ada";
     WorkflowActions.clerkUserId := "clerk-ada";
     WorkflowActions.email := "ada@example.com" |}.

Definition rename (id name : string) : @WorkflowActions.UpdateInput string :=
  {| WorkflowActions.id := id;
     WorkflowActions.new_name := Some name;
     WorkflowActions.new_folderId := None;
     WorkflowActions.new_nodes := None;
     WorkflowActions.new_edges := None;
     WorkflowActions.new_thumbnail := None |}.

(** The environment without a Transloadit key. *)
Definition envWithoutTransloadit : Env :=
  {| GOOGLE_GEMINI_API_KEY := Some "primary-key";
     GOOGLE_GEMINI_API_KEY_BACKUP := Some "backup-key";
     NEXT_PUBLIC_TRANSLOADIT_KEY := None;
     os_tmpdir := "/tmp" |}.

Definition withFetch (a : Result Response) (s : Script) : Script :=
  {| fetchAnswer := a; writeAnswer := writeAnswer s; readAnswer := readAnswer s;
     imageSizeAnswer := imageSizeAnswer s; ffmpegAnswer := ffmpegAnswer s;
     ffprobeAnswer := ffprobeAnswer s; execAnswer := execAnswer s;
     probeAnswer := probeAnswer s; assemblyAnswer := assemblyAnswer s;
     pollAnswer := pollAnswer s; geminiAnswer := geminiAnswer s;
     mkdtempAnswer := mkdtempAnswer s |}.

(** The file is gone: every download is answered with status 404. *)
Definition gone : Script :=
  withFetch (Ok {| resp_ok := false; resp_status := "404" |}) allWell.

(** The network is down: every call to the model fails the same way. *)
Definition networkMessage : string := "fetch failed".
Definition networkDown : Script := withGemini (fun _ => Throw networkMessage) allWell.

(** A session that is always there, and one that is not. *)
Definition signedIn : nat -> Result string * nat := fun n => (Ok "user-ada", n).
Definition signedOut : nat -> Result string * nat :=
  fun n => (Throw "Authentication required", n).

(** *** Tables for the folder actions *)

Definition folder (owner name : string) (parent : option string) : FolderActions.Folder :=
  {| FolderActions.name := name;
     FolderActions.parentId := parent;
     FolderActions.userId := owner;
     FolderActions.createdAt := 1700000000000;
     FolderActions.updatedAt := 1700000000000 |}.

Definition filed (owner name folderId : string) : @WorkflowActions.Workflow string :=
  {| WorkflowActions.name := name;
     WorkflowActions.thumbnail := None;
     WorkflowActions.folderId := Some folderId;
     WorkflowActions.nodes := [];
     WorkflowActions.edges := [];
     WorkflowActions.userId := owner |}.

(** Ada's folder [f-1] holds her folder [f-2] and her workflow [wf-1]; Bob
    has a folder [f-3] and a workflow [wf-2] of his own. *)
Definition shelves : @FolderActions.Db string :=
  {| FolderActions.folders :=
       <["f-1" := folder "user-ada" "Clients" None]>
         (<["f-2" := folder "user-ada" "Drafts" (Some "f-1")]>
            (<["f-3" := folder "user-bob" "Private" None]> ∅));
     FolderActions.workflows :=
       <["wf-1" := filed "user-ada" "Poster" "f-1"]>
         (<["wf-2" := filed "user-bob" "Teaser" "f-3"]> ∅) |}.

(** The database stamps an updated row with the time of the update. *)
Definition stamp : Z -> Z := fun _ => 1700000360000%Z.

(** Move a folder to the top and call it [Archive]. *)
Definition archive (id : string) : FolderActions.UpdateInput :=
  {| FolderActions.id := id;
     FolderActions.upd_name := Some "Archive";
     FolderActions.upd_parentId := Some None |}.

(** *** Clerk and the user table *)

Definition adaAtClerk : AuthServer.ClerkUser :=
  {| AuthServer.emailAddresses :=
       [{| AuthServer.address_id := "idn_1"; AuthServer.emailAddress := "ada@old.example.com" |};
        {| AuthServer.address_id := "idn_2"; AuthServer.emailAddress := "ada@example.com" |}];
     AuthServer.primaryEmailAddressId := Some "idn_2";
     AuthServer.firstName := Some "Ada";
     AuthServer.lastName := None;
     AuthServer.imageUrl := None |}.

(** Ada is signed in; Clerk knows her, the database gives the new row the id
    [user-ada]. *)
Definition firstVisit : AuthServer.Outside :=
  {| AuthServer.auth := Ok (Some "clerk-ada");
     AuthServer.findUnique := Ok tt;
     AuthServer.getUser := fun _ => Ok adaAtClerk;
     AuthServer.generated := Ok ("user-ada", 1700000000000%Z) |}.

(** Ada is signed in, and Clerk cannot be reached. *)
Definition clerkDown : AuthServer.Outside :=
  {| AuthServer.auth := Ok (Some "clerk-ada");
     AuthServer.findUnique := Ok tt;
     AuthServer.getUser := fun _ => Throw "connect ETIMEDOUT";
     AuthServer.generated := Ok ("user-ada", 1700000000000%Z) |}.

(** Ada is signed in, and the database cannot be reached. *)
Definition databaseMessage : string := "Can't reach database server at `db:5432`".
Definition databaseDown : AuthServer.Outside :=
  {| AuthServer.auth := Ok (Some "clerk-ada");
     AuthServer.findUnique := Throw databaseMessage;
     AuthServer.getUser := fun _ => Ok adaAtClerk;
     AuthServer.generated := Ok ("user-ada", 1700000000000%Z) |}.

(** Bob at Clerk: two addresses, and a primary id that neither carries. *)
Definition bobAtClerk : AuthServer.ClerkUser :=
  {| AuthServer.emailAddresses :=
       [{| AuthServer.address_id := "idn_7"; AuthServer.emailAddress := "bob@example.com" |};
        {| AuthServer.address_id := "idn_8"; AuthServer.emailAddress := "bob@work.example.com" |}];
     AuthServer.primaryEmailAddressId := Some "idn_5";
     AuthServer.firstName := None;
     AuthServer.lastName := None;
     AuthServer.imageUrl := None |}.

(** Bob's first visit. *)
Definition bobsFirstVisit : AuthServer.Outside :=
  {| AuthServer.auth := Ok (Some "clerk-bob");
     AuthServer.findUnique := Ok tt;
     AuthServer.getUser := fun _ => Ok bobAtClerk;
     AuthServer.generated := Ok ("user-bob", 1700000000000%Z) |}.

(** *** Answers of the database to the calls of [deleteFolder] *)

(** Every call is carried out. *)
Definition carriedOut : nat -> option string := fun _ => None.

(** The connection is lost before the last call, the deletion itself. *)
Definition connectionLost : string := "Server has closed the connection.".
Definition deletionRejected : nat -> option string :=
  fun n => if (n =? 3)%nat then Some connectionLost else None.

End Scripted.

(** * Vocabulary of the properties *)

(** ** MIME types *)

Definition mimeTypes : list string :=
  ["image/jpeg"; "image/png"; "image/gif"; "image/webp"].

Definition magicPrefixes : list string := ["/9j/"; "iVBORw"; "R0lGOD"; "UklGR"].

(** ** Scratch directories *)

(** A computation that leaves the set of scratch directories as it found it. *)
Definition keepsDirs {Ext A} (m : Async Ext A) : Prop :=
  forall w, tmpdirs (after (m w)) = tmpdirs w.

(** An execution that started in [w], announced itself with [start] and
    ended as [o] released its scratch storage: the directories that exist
    are those of [w]; and either no directory was made (making it failed,
    the execution threw and did nothing else), or the directory made was
    new, the last thing the execution did was to remove it, and it is gone. *)
Definition scratchReleased {Ext A} (start : Event) (w : World Ext) (o : Outcome Ext A)
  : Prop :=
  tmpdirs (after o) = tmpdirs w /\
  ((exists e, result o = Throw e /\ events o = [start]) \/
   (exists dir evs,
       events o = (start :: Mkdtemp dir :: evs ++ [Rm dir])%list /\
       (dir ∉ tmpdirs w) /\ (dir ∉ tmpdirs (after o)))).

(** ** Polling *)

Definition isPoll (e : Event) : bool :=
  match e with PollAssembly _ => true | _ => false end.

(** How many times an execution asked for the state of an assembly. *)
Definition pollCount (evs : list Event) : nat := length (filter isPoll evs).

(** A computation that polls at most [n] times, whatever the outside does. *)
Definition pollsAtMost {Ext A} (n : nat) (m : Async Ext A) : Prop :=
  forall w, pollCount (events (m w)) <= n.

(** An answer to a poll that reports no terminal state: the assembly is not
    completed and carries no error. *)
Definition pending (pd : PollData) : Prop :=
  Js.strictEq (poll_ok pd) "ASSEMBLY_COMPLETED" = false /\
  Js.truthyOpt (poll_error pd) = false.

(** A backend that stalls: every poll is answered, and never with a terminal state. *)
Definition stalled {Ext} (host : Host Ext) : Prop :=
  forall url x, exists pd, fst (host_pollAssembly host url x) = Ok pd /\ pending pd.

Definition timedOut : string := "Transloadit assembly timed out".

(** The outcome of an await against a stalled backend: it throws, either
    before the first poll, or with the timeout error after exactly [ceiling]
    polls. *)
Definition timesOut {Ext A} (ceiling : nat) (o : Outcome Ext A) : Prop :=
  exists e,
    result o = Throw e /\
    (pollCount (events o) = 0 \/ (e = timedOut /\ pollCount (events o) = ceiling)).

(** An await under a poll-attempt ceiling: it never polls more than [ceiling]
    times, and against a stalled backend it fails rather than going on. *)
Definition boundedAwait {Ext A} (host : Host Ext) (ceiling : nat) (m : Async Ext A) : Prop :=
  (forall w, pollCount (events (m w)) <= ceiling) /\
  (stalled host -> forall w, timesOut ceiling (m w)).

(** ** Model inference *)

Definition callKey (e : Event) : option string :=
  match e with GenerateContent key _ _ => Some key | _ => None end.

(** The credentials of the [generateContent] calls of an execution, in order. *)
Definition geminiCalls (evs : list Event) : list string := omap callKey evs.

Definition isLog (e : Event) : bool :=
  match e with Log _ _ => true | _ => false end.

(** Whether the [catch] block has a second credential to turn to. *)
Definition usableBackup (env : Env) (apiKey backupKey : string) : Prop :=
  GOOGLE_GEMINI_API_KEY_BACKUP env = Some backupKey /\
  Js.truthy backupKey = true /\ backupKey <> apiKey.

(** ** Outcomes *)

(** [o] with [evs] put before its events. *)
Definition prepend {Ext A} (evs : list Event) (o : Outcome Ext A) : Outcome Ext A :=
  Build_Outcome (result o) (evs ++ events o) (after o).

(** ** Frame extraction *)

Definition thumbsOffset (e : Event) : option Q :=
  match e with CreateAssembly (VideoThumbs _ _ offset) => Some offset | _ => None end.

(** The offsets of the [/video/thumbs] assemblies an execution created, in order. *)
Definition requestedOffsets (evs : list Event) : list Q := omap thumbsOffset evs.

Definition frameSeek (e : Event) : option Q :=
  match e with Exec (FfmpegFrame _ ss _ _) => Some ss | _ => None end.

(** The positions FFmpeg was asked to seek to, in order. *)
Definition seekPositions (evs : list Event) : list Q := omap frameSeek evs.

(** ** Budgets *)

(** What an execution spent: the sum of the costs of its events. *)
Definition spent (cost : Event -> N) (evs : list Event) : N :=
  fold_right (fun e n => (cost e + n)%N) 0%N evs.

(** A computation that spends at most [n], whatever the outside does. *)
Definition spendsAtMost {Ext A} (cost : Event -> N) (n : N) (m : Async Ext A) : Prop :=
  forall w, (spent cost (events (m w)) <= n)%N.

(** The costs counted: polls of an assembly, milliseconds slept, assemblies
    created, command lines executed, downloads. *)
Definition polls (e : Event) : N :=
  match e with PollAssembly _ => 1 | _ => 0 end.

Definition sleptMs (e : Event) : N :=
  match e with Sleep ms => Z.to_N ms | _ => 0 end.

Definition assemblies (e : Event) : N :=
  match e with CreateAssembly _ => 1 | _ => 0 end.

Definition commands (e : Event) : N :=
  match e with Exec _ => 1 | _ => 0 end.

Definition downloads (e : Event) : N :=
  match e with Fetch _ => 1 | _ => 0 end.

(** ** Failures *)

(** A computation that never returns: every execution of it throws. *)
Definition neverReturns {Ext A} (m : Async Ext A) : Prop :=
  forall w, exists e, result (m w) = Throw e.

(** A download that is refused: every request for [url] is answered, with a
    status that is not ok. *)
Definition refusesDownload {Ext} (host : Host Ext) (url : string) : Prop :=
  forall x, exists resp, fst (host_fetch host url x) = Ok resp /\ resp_ok resp = false.

(** The error of a refused download: the prefix the task puts before the
    status of some answer of the host. *)
Definition downloadError {Ext} (host : Host Ext) (url prefix e : string) : Prop :=
  exists x resp, fst (host_fetch host url x) = Ok resp /\ e = prefix ++ resp_status resp.

Definition transloaditKeyMissing : string := "NEXT_PUBLIC_TRANSLOADIT_KEY is not configured".

(** Whether an execution got as far as making its scratch directory. *)
Definition madeScratchDir (evs : list Event) : Prop := exists dir, In (Mkdtemp dir) evs.

(** ** Results *)

(** A computation that returns only values that satisfy [R], together with
    the events of the execution that returned them. *)
Definition returnsOnly {Ext A} (R : list Event -> A -> Prop) (m : Async Ext A) : Prop :=
  forall w a, result (m w) = Ok a -> R (events (m w)) a.

(** A property of events and a value that stays true when more happens. *)
Definition monotone {A} (R : list Event -> A -> Prop) : Prop :=
  forall evs evs' a, (forall e, In e evs -> In e evs') -> R evs a -> R evs' a.

(** A URL that Transloadit reported: among the events there is a poll of an
    assembly that the backend answers with the assembly completed and this
    URL, not empty, as its result. *)
Definition reportedResult {Ext} (host : Host Ext) (evs : list Event) (url : string) : Prop :=
  exists assemblyUrl x pollData,
    In (PollAssembly assemblyUrl) evs /\
    fst (host_pollAssembly host assemblyUrl x) = Ok pollData /\
    Js.strictEq (poll_ok pollData) "ASSEMBLY_COMPLETED" = true /\
    poll_ssl_url pollData = Some url /\
    Js.truthy url = true.

(** What a polling loop hands back: nothing yet, or a reported URL. *)
Definition reportedSoFar {Ext} (host : Host Ext) (evs : list Event)
    (returned : option string) : Prop :=
  forall url, returned = Some url -> reportedResult host evs url.

(** ** Events of an execution *)

(** A computation all of whose events satisfy [P], whatever the outside does. *)
Definition emitsOnly {Ext A} (P : Event -> Prop) (m : Async Ext A) : Prop :=
  forall w, Forall P (events (m w)).

(** ** Crop geometry *)

(** [(side * percent) / 100] in the numbers of the program. *)
Definition scaledPercent (side : Z) (percent : Q) : Q :=
  Js.div (Js.mul (inject_Z side) (Js.number percent)) 100.

(** [r] is [side * percent / 100] rounded to the nearest integer, up to what
    the arithmetic of binary64 moved the scaled value by, which is at most
    [side / 2^51]. *)
Definition roundedScaling (side : Z) (percent : Q) (r : Z) : Prop :=
  (Qabs (inject_Z r - inject_Z side * percent / 100)
   <= (1 # 2) + inject_Z side * (1 # 2251799813685248))%Q.

(** What is asked of an event of the crop task: when it is the FFmpeg
    command, the image is the file whose dimensions [image-size] reported as
    some [W] by [H], and the rectangle of the command is [cropBox W H] of the
    payload. *)
Definition cropsTheBox {Ext} (host : Host Ext) (payload : CropImage.CropImageTaskPayload)
    (e : Event) : Prop :=
  match e with
  | Exec (FfmpegCrop _ inputPath w h x y _) =>
      exists W H s,
        fst (host_imageSize host inputPath s) = Ok (Some W, Some H) /\
        CropImage.cropBox W H payload
        = {| CropImage.x1 := x; CropImage.y1 := y; CropImage.w1 := w; CropImage.h1 := h |}
  | _ => True
  end.

(** ** Folders *)

(** The database after the first write of [deleteFolder], and after the
    second. *)
Definition unfiled {Json} (caller : WorkflowActions.AuthUser) (id : string)
    (db : @FolderActions.Db Json) : @FolderActions.Db Json :=
  {| FolderActions.folders := FolderActions.folders db;
     FolderActions.workflows :=
       FolderActions.unfileWorkflows (WorkflowActions.user_id caller) id
         (FolderActions.workflows db) |}.

Definition orphaned {Json} (touch : Z -> Z) (caller : WorkflowActions.AuthUser)
    (id : string) (db : @FolderActions.Db Json) : @FolderActions.Db Json :=
  {| FolderActions.folders :=
       FolderActions.orphanFolders touch (WorkflowActions.user_id caller) id
         (FolderActions.folders db);
     FolderActions.workflows :=
       FolderActions.unfileWorkflows (WorkflowActions.user_id caller) id
         (FolderActions.workflows db) |}.

(** What [deleteFolder] may have done to a database short of deleting a
    folder: every workflow that was not filed in the folder and every other
    folder that was not inside it is as it was, and every workflow is still
    there with its name, thumbnail, nodes, edges and owner. *)
Definition referencesOnly {Json} (id : string) (db db' : @FolderActions.Db Json) : Prop :=
  (forall key workflow,
      FolderActions.workflows db !! key = Some workflow ->
      WorkflowActions.folderId workflow <> Some id ->
      FolderActions.workflows db' !! key = Some workflow) /\
  (forall key folder,
      FolderActions.folders db !! key = Some folder ->
      key <> id ->
      FolderActions.parentId folder <> Some id ->
      FolderActions.folders db' !! key = Some folder) /\
  (forall key workflow,
      FolderActions.workflows db !! key = Some workflow ->
      exists workflow',
        FolderActions.workflows db' !! key = Some workflow' /\
        WorkflowActions.name workflow' = WorkflowActions.name workflow /\
        WorkflowActions.thumbnail workflow' = WorkflowActions.thumbnail workflow /\
        WorkflowActions.nodes workflow' = WorkflowActions.nodes workflow /\
        WorkflowActions.edges workflow' = WorkflowActions.edges workflow /\
        WorkflowActions.userId workflow' = WorkflowActions.userId workflow).

(** ** The address of a new user *)

(** [address] is the address [getAuthUser] takes of those Clerk has for a
    user: the first one that carries the primary id, or, when none carries
    it, the first one. *)
Definition primaryOrFirst (clerkUser : AuthServer.ClerkUser)
    (address : AuthServer.EmailAddress) : Prop :=
  (AuthServer.primaryEmailAddressId clerkUser = Some (AuthServer.address_id address) /\
   exists before after,
     AuthServer.emailAddresses clerkUser = (before ++ address :: after)%list /\
     forall earlier,
       In earlier before ->
       AuthServer.primaryEmailAddressId clerkUser
       <> Some (AuthServer.address_id earlier)) \/
  ((forall other,
       In other (AuthServer.emailAddresses clerkUser) ->
       AuthServer.primaryEmailAddressId clerkUser <> Some (AuthServer.address_id other)) /\
   exists rest, AuthServer.emailAddresses clerkUser = address :: rest).

(** ** The binary64 numbers of the processor *)

(** The rational that a finite binary64 number of the processor denotes. *)
Definition floatValue (f : PrimFloat.float) : option Q :=
  match FloatOps.Prim2SF f with
  | SpecFloat.S754_zero _ => Some 0%Q
  | SpecFloat.S754_finite s m e =>
      Some (Qred ((if s then -1 else 1) * inject_Z (Zpos m) * Js.pow2 e))
  | _ => None
  end.

(** The binary64 number of the processor for an integer from 0 to [2^53]. *)
Definition floatOfZ (z : Z) : PrimFloat.float := PrimFloat.of_uint63 (Uint63.of_Z z).

Definition sameNumber (f : PrimFloat.float) (q : Q) : bool :=
  match floatValue f with
  | Some v => Qeq_bool v q
  | None => false
  end.

(** Whether the processor computes [(side * percent) / 100], for the
    percentage [k / 1000], to the number the model computes. *)
Definition processorScales (side k : Z) : bool :=
  sameNumber
    (PrimFloat.div
       (PrimFloat.mul (floatOfZ side) (PrimFloat.div (floatOfZ k) (floatOfZ 1000)))
       (floatOfZ 100))
    (scaledPercent side (k # 1000)).

(** The same for the two timestamps of the frame extraction,
    [(duration * percent) / 100] and [(percent / 100) * 60]. *)
Definition processorResolves (duration k : Z) : bool :=
  let percent := PrimFloat.div (floatOfZ k) (floatOfZ 1000) in
  sameNumber
    (PrimFloat.div (PrimFloat.mul (floatOfZ duration) percent) (floatOfZ 100))
    (ExtractFrame.resolvedTimestamp (inject_Z duration) (k # 1000))
  && sameNumber
       (PrimFloat.mul (PrimFloat.div percent (floatOfZ 100)) (floatOfZ 60))
       (ExtractFrame.fallbackOffset
          {| ExtractFrame.videoUrl := ""; ExtractFrame.timestamp := 0;
             ExtractFrame.timestampPercent := Some (k # 1000) |}).

(** [start], [start + 1], ..., [n] integers in all. *)
Fixpoint upFrom (n : nat) (start : Z) : list Z :=
  match n with
  | O => []
  | S n' => start :: upFrom n' (start + 1)%Z
  end.

(** ** Errors of the inference code *)

(** What the [catch] block of the task makes of the message of a failed
    call, when it throws. *)
Definition taskError (message : string) : string :=
  if LlmTask.isQuotaOrRate (Js.toLowerCase message) then LlmTask.quotaExceeded message
  else if LlmTask.isApiKeyOrAuth (Js.toLowerCase message) then LlmTask.invalidApiKey message
  else message.

(** What the [catch] block of the server action throws for the message of
    the failed call. *)
Definition actionError (message : string) : string :=
  if LlmAction.isQuotaOrRate message then LlmAction.quotaExceeded
  else if LlmAction.isApiKeyOrAuth message then LlmAction.invalidApiKey
  else message.

Definition notConfiguredTask : string :=
  "GOOGLE_GEMINI_API_KEY is not configured. Please add it to your environment variables.".

Definition notConfiguredAction : string :=
  "GOOGLE_GEMINI_API_KEY is not configured. Please add it to your .env file.".

(** * Properties *)

(** ** Strings *)

Lemma append_String (c : ascii) (p rest : string) :
  String c p ++ rest = String c (p ++ rest).
Proof. reflexivity. Qed.

Lemma startsWith_spec (s p : string) :
  Js.startsWith s p = true <-> exists rest, s = p ++ rest.
Proof.
  unfold Js.startsWith. revert s.
  induction p as [|c p IH]; intros s.
  - destruct s; simpl; (split; [intros _; eexists; reflexivity | reflexivity]).
  - destruct s as [|d s]; simpl.
    + split; [discriminate | intros [rest Hrest]; discriminate].
    + destruct (ascii_dec c d) as [->|Hne].
      * rewrite IH.
        split; intros [rest Hrest]; exists rest; rewrite append_String in *; congruence.
      * split; [discriminate|].
        intros [rest Hrest]. rewrite append_String in Hrest. congruence.
Qed.

Lemma startsWith_false (s p : string) :
  (~ exists rest, s = p ++ rest) -> Js.startsWith s p = false.
Proof.
  intros Hno. destruct (Js.startsWith s p) eqn:E; [|reflexivity].
  apply startsWith_spec in E. contradiction.
Qed.

(** ** MIME type detection *)

(** C9.  [detectImageMimeType] is a total function into the four MIME types;
    on an input that starts with none of the four magic prefixes it answers
    ["image/jpeg"]; and the copy of the task and the copy of the server action
    agree on every input. *)
Theorem detectImageMimeType_closed :
  (forall s, In (LlmTask.detectImageMimeType s) mimeTypes) /\
  (forall s,
      (forall p, In p magicPrefixes -> ~ exists rest, s = p ++ rest) ->
      LlmTask.detectImageMimeType s = "image/jpeg") /\
  (forall s, LlmTask.detectImageMimeType s = LlmAction.detectImageMimeType s).
Proof.
  split; [|split].
  - intros s. unfold LlmTask.detectImageMimeType, mimeTypes.
    repeat match goal with |- context [if ?b then _ else _] => destruct b end;
      simpl; auto.
  - intros s Hnone. unfold LlmTask.detectImageMimeType.
    rewrite !startsWith_false; [reflexivity | ..];
      apply Hnone; unfold magicPrefixes; simpl; auto.
  - intros s. reflexivity.
Qed.

Example detectImageMimeType_png :
  LlmTask.detectImageMimeType "iVBORw0KGgoAAAANSUhEUg" = "image/png".
Proof. reflexivity. Qed.

Example detectImageMimeType_unknown :
  LlmAction.detectImageMimeType "Qk02AAAA" = "image/jpeg".
Proof. reflexivity. Qed.

(** ** Numbers *)

Lemma pow2_pos (e : Z) : (0 < Js.pow2 e)%Q.
Proof. apply Qpower_0_lt. reflexivity. Qed.

Lemma pow2_plus (a b : Z) : (Js.pow2 (a + b) == Js.pow2 a * Js.pow2 b)%Q.
Proof. apply Qpower_plus. discriminate. Qed.

Lemma pow2_inject (n : Z) : (0 <= n)%Z -> (Js.pow2 n == inject_Z (2 ^ n))%Q.
Proof. intros Hn. unfold Js.pow2. rewrite Zpower_Qpower by exact Hn. reflexivity. Qed.

Lemma pow2_minus (a b : Z) : (Js.pow2 (a - b) == Js.pow2 a / Js.pow2 b)%Q.
Proof.
  unfold Z.sub. rewrite pow2_plus. unfold Js.pow2 at 2. rewrite Qpower_opp. reflexivity.
Qed.

(** [ilog2 q] is the binade of [q]. *)
Lemma ilog2_spec (q : Q) :
  (0 < q)%Q -> (Js.pow2 (Js.ilog2 q) <= q)%Q /\ (q < Js.pow2 (Js.ilog2 q + 1))%Q.
Proof.
  intros Hq. destruct q as [n d].
  assert (0 < n)%Z as Hn by (unfold Qlt in Hq; simpl in Hq; lia).
  unfold Js.ilog2. cbn [Qnum Qden].
  set (a := Z.log2 n). set (b := Z.log2 (Z.pos d)).
  destruct (Z.log2_spec n Hn) as [Ha1 Ha2]. fold a in Ha1, Ha2.
  destruct (Z.log2_spec (Z.pos d) (Pos2Z.is_pos d)) as [Hb1 Hb2]. fold b in Hb1, Hb2.
  assert (0 <= a)%Z as Ha0 by apply Z.log2_nonneg.
  assert (0 <= b)%Z as Hb0 by apply Z.log2_nonneg.
  assert (n # d == inject_Z n / inject_Z (Z.pos d))%Q as Hq' by apply Qmake_Qdiv.
  assert (0 < inject_Z (Z.pos d))%Q as Hd by (rewrite <- (Zlt_Qlt 0); lia).
  assert (0 < inject_Z (2 ^ b))%Q as Hpb by (rewrite <- (Zlt_Qlt 0); lia).
  assert (0 < inject_Z (2 ^ (b + 1)))%Q as Hpb1
    by (rewrite <- (Zlt_Qlt 0); apply Z.pow_pos_nonneg; lia).
  assert (Js.pow2 (a - b - 1) <= n # d)%Q as Hlow.
  { replace (a - b - 1)%Z with (a - (b + 1))%Z by lia.
    rewrite pow2_minus, !pow2_inject, Hq' by lia.
    apply Qle_shift_div_l; [exact Hd|].
    unfold Qdiv. rewrite <- Qmult_assoc, (Qmult_comm (/ _)), Qmult_assoc.
    apply Qle_shift_div_r; [exact Hpb1|].
    rewrite <- !inject_Z_mult, <- Zle_Qle.
    assert (Z.pos d <= 2 ^ (b + 1))%Z by (rewrite Z.add_1_r; lia).
    nia. }
  assert (n # d < Js.pow2 (a - b + 1))%Q as Hhigh.
  { replace (a - b + 1)%Z with ((a + 1) - b)%Z by lia.
    rewrite pow2_minus, !pow2_inject, Hq' by lia.
    apply Qlt_shift_div_r; [exact Hd|].
    unfold Qdiv. rewrite <- Qmult_assoc, (Qmult_comm (/ _)), Qmult_assoc.
    apply Qlt_shift_div_l; [exact Hpb|].
    rewrite <- !inject_Z_mult, <- Zlt_Qlt.
    rewrite Z.add_1_r. nia. }
  destruct (Qle_bool (Js.pow2 (a - b)) (n # d)) eqn:Htest.
  - apply Qle_bool_iff in Htest. split; assumption.
  - replace (a - b - 1 + 1)%Z with (a - b)%Z by lia. split; [exact Hlow|].
    apply Qnot_le_lt. intros Hle. apply Qle_bool_iff in Hle. congruence.
Qed.

Lemma roundTiesToEven_close (t : Q) :
  (t - (1 # 2) <= inject_Z (Js.roundTiesToEven t) <= t + (1 # 2))%Q.
Proof.
  unfold Js.roundTiesToEven.
  pose proof (Qfloor_le t) as Hlo. pose proof (Qlt_floor t) as Hhi.
  rewrite inject_Z_plus in Hhi. change (inject_Z 1) with 1%Q in Hhi.
  set (n := Qfloor t) in *.
  destruct (Qcompare_spec (t - inject_Z n) (1 # 2)) as [He|Hl|Hg].
  - destruct (Z.even n); [|rewrite inject_Z_plus; change (inject_Z 1) with 1%Q]; lra.
  - lra.
  - rewrite inject_Z_plus. change (inject_Z 1) with 1%Q. lra.
Qed.

Lemma roundTiesToEven_nonneg (t : Q) : (0 <= t)%Q -> (0 <= Js.roundTiesToEven t)%Z.
Proof.
  intros Ht. unfold Js.roundTiesToEven.
  assert (0 <= Qfloor t)%Z as Hn
    by (change 0%Z with (Qfloor 0); apply Qfloor_resp_le; exact Ht).
  destruct (Qcompare _ _); [destruct (Z.even _)| |]; lia.
Qed.

Lemma binary64_value (q : Q) :
  (Js.binary64 q
   == inject_Z (Js.roundTiesToEven (q / Js.pow2 (Js.exponent q)))
      * Js.pow2 (Js.exponent q))%Q.
Proof. unfold Js.binary64. cbv zeta. apply Qred_correct. Qed.

(** The unit in the last place of [q] is at most [|q| / 2^52], or it is the
    least positive number. *)
Lemma ulp_bound (q : Q) :
  (0 < Qabs q)%Q ->
  (Js.pow2 (Js.exponent q) <= Qabs q * Js.pow2 (-52))%Q \/ Js.exponent q = (-1074)%Z.
Proof.
  intros Hpos. unfold Js.exponent.
  destruct (Z.max_spec (Js.ilog2 (Qabs q) - 52) (-1074)) as [[Hlt ->]|[Hge ->]];
    [right; reflexivity|].
  left.
  destruct (ilog2_spec (Qabs q) Hpos) as [Hlow _].
  replace (Js.ilog2 (Qabs q) - 52)%Z with (Js.ilog2 (Qabs q) + -52)%Z by lia.
  rewrite pow2_plus. apply Qmult_le_compat_r; [exact Hlow|].
  apply Qlt_le_weak, pow2_pos.
Qed.

(** Rounding to binary64 moves a number by at most half a unit in the last
    place: by [|q| / 2^53], or in the subnormal range by [2^-1075]. *)
Lemma binary64_close (q : Q) :
  (Qabs (Js.binary64 q - q) <= Qabs q * (1 # 9007199254740992) + Js.pow2 (-1075))%Q.
Proof.
  rewrite binary64_value.
  set (u := Js.pow2 (Js.exponent q)).
  assert (0 < u)%Q as Hu by apply pow2_pos.
  pose proof (roundTiesToEven_close (q / u)) as [Hlo Hhi].
  set (m := inject_Z (Js.roundTiesToEven (q / u))) in *.
  assert (Qabs (m * u - q) <= u * (1 # 2))%Q as Herr.
  { apply Qabs_Qle_condition.
    assert (m * u - q == (m - q / u) * u)%Q as -> by (field; lra).
    split.
    - assert (- (u * (1 # 2)) == (- (1 # 2)) * u)%Q as -> by ring.
      apply Qmult_le_compat_r; lra.
    - rewrite (Qmult_comm u). apply Qmult_le_compat_r; lra. }
  pose proof (Qabs_nonneg q) as Habs.
  assert (0 < Js.pow2 (-1075))%Q as Ht by apply pow2_pos.
  destruct (Qlt_le_dec 0 (Qabs q)) as [Hpos|Hzero].
  - destruct (ulp_bound q Hpos) as [Hb|He].
    + fold u in Hb.
      assert (Js.pow2 (-52) == 1 # 4503599627370496)%Q as H52 by reflexivity.
      rewrite H52 in Hb.
      set (a := Qabs q) in *. set (t := Js.pow2 (-1075)) in *.
      set (r := Qabs (m * u - q)) in *. lra.
    + assert (u == Js.pow2 (-1075) * 2)%Q as Hu2.
      { unfold u. rewrite He. replace (-1074)%Z with (-1075 + 1)%Z by lia.
        rewrite pow2_plus. reflexivity. }
      set (a := Qabs q) in *. set (t := Js.pow2 (-1075)) in *.
      set (r := Qabs (m * u - q)) in *.
      assert (0 <= a * (1 # 9007199254740992))%Q by lra. lra.
  - (* zero is a binary64 number *)
    assert (Qabs q == 0)%Q as Hz by (apply Qle_antisym; [exact Hzero | exact Habs]).
    assert (q == 0)%Q as Hq.
    { apply Qabs_Qle_condition in Hzero. lra. }
    assert (q / u == 0)%Q as Hqu by (rewrite Hq; field; lra).
    rewrite Hqu in Hlo, Hhi.
    assert (Js.roundTiesToEven (q / u) = 0%Z) as Hm.
    { assert (-1 < Js.roundTiesToEven (q / u) < 1)%Z as [? ?]; [|lia].
      rewrite !Zlt_Qlt. fold m.
      change (inject_Z (-1)) with (-1)%Q. change (inject_Z 1) with 1%Q. lra. }
    assert (m * u - q == 0)%Q as -> by (subst m; rewrite Hm, Hq; ring).
    rewrite Hz. change (Qabs 0) with 0%Q. lra.
Qed.

Lemma binary64_nonneg (q : Q) : (0 <= q)%Q -> (0 <= Js.binary64 q)%Q.
Proof.
  intros Hq. rewrite binary64_value.
  pose proof (pow2_pos (Js.exponent q)) as Hu.
  apply Qmult_le_0_compat; [|lra].
  change 0%Q with (inject_Z 0). rewrite <- Zle_Qle.
  apply roundTiesToEven_nonneg.
  apply Qle_shift_div_l; [exact Hu | lra].
Qed.

Lemma binary64_close_nonneg (q : Q) :
  (0 <= q)%Q ->
  (0 <= Js.binary64 q)%Q /\
  (q - (q * (1 # 9007199254740992) + Js.pow2 (-1075)) <= Js.binary64 q)%Q /\
  (Js.binary64 q <= q + (q * (1 # 9007199254740992) + Js.pow2 (-1075)))%Q.
Proof.
  intros Hq. split; [apply binary64_nonneg; exact Hq|].
  pose proof (binary64_close q) as H. rewrite (Qabs_pos q Hq) in H.
  apply Qabs_Qle_condition in H. destruct H as [H1 H2].
  set (b := Js.binary64 q) in *. set (t := Js.pow2 (-1075)) in *. split; lra.
Qed.

Lemma tiny_bound : (Js.pow2 (-1075) <= 1 # 1152921504606846976)%Q.
Proof. apply Qle_bool_imp_le. vm_compute. reflexivity. Qed.

(** The arithmetic of the model is the arithmetic of the processor: on
    these images and percentages (every thousandth of a percent from 0 to 1,
    around 50 and up to 100), and on these durations, the binary64 unit of
    the processor computes the very numbers of [scaledPercent],
    [resolvedTimestamp] and [fallbackOffset]. *)
Example numbers_of_the_processor :
  forallb
    (fun side =>
       forallb (processorScales side)
         (upFrom 101 0 ++ upFrom 101 34950 ++ upFrom 101 49950 ++ upFrom 101 99900))
    [1; 2; 3; 7; 64; 333; 640; 1000; 1080; 1920; 4096; 65535; 4294967295]%Z
  = true /\
  forallb
    (fun duration =>
       forallb (processorResolves duration)
         (upFrom 101 0 ++ upFrom 101 2950 ++ upFrom 101 49950 ++ upFrom 101 99900))
    [1; 7; 60; 120; 3600; 86399]%Z
  = true.
Proof. split; vm_compute; reflexivity. Qed.

(** In binary64, 3 percent of a minute is not 1.8 seconds both ways:
    [(3 / 100) * 60] is the number below [(60 * 3) / 100]. *)
Example three_percent_of_a_minute :
  (Js.mul (Js.div 3 100) 60 < Js.div (Js.mul 60 3) 100)%Q /\
  Js.mul (Js.div 3 100) 60 = (2026619832316723 # 1125899906842624)%Q.
Proof. split; vm_compute; reflexivity. Qed.

(** ** Scratch directories *)

Section Frame.
Context {Ext : Type}.

Lemma keepsDirs_ret {A} (a : A) : keepsDirs (@Async.ret Ext A a).
Proof. intros w. reflexivity. Qed.

Lemma keepsDirs_throw {A} (e : string) : keepsDirs (@Async.throw Ext A e).
Proof. intros w. reflexivity. Qed.

Lemma keepsDirs_emit (e : Event) : keepsDirs (@Async.emit Ext e).
Proof. intros w. reflexivity. Qed.

Lemma keepsDirs_ask {A} (q : Ext -> Result A * Ext) : keepsDirs (Async.ask q).
Proof. intros w. reflexivity. Qed.

Lemma keepsDirs_bind {A B} (m : Async Ext A) (k : A -> Async Ext B) :
  keepsDirs m -> (forall a, keepsDirs (k a)) -> keepsDirs (Async.bind m k).
Proof.
  intros Hm Hk w. unfold Async.bind.
  destruct (result (m w)) as [a|e]; simpl.
  - rewrite Hk. apply Hm.
  - apply Hm.
Qed.

Lemma keepsDirs_perform {A} (e : Event) (q : Ext -> Result A * Ext) :
  keepsDirs (Async.perform e q).
Proof.
  apply keepsDirs_bind; [apply keepsDirs_emit | intros _; apply keepsDirs_ask].
Qed.

Lemma keepsDirs_tryCatch {A} (body : Async Ext A) (handler : string -> Async Ext A) :
  keepsDirs body -> (forall e, keepsDirs (handler e)) ->
  keepsDirs (Async.tryCatch body handler).
Proof.
  intros Hb Hh w. unfold Async.tryCatch.
  destruct (result (body w)) as [a|e]; simpl.
  - apply Hb.
  - rewrite Hh. apply Hb.
Qed.

Lemma keepsDirs_forRange {A} (n i : nat) (body : nat -> Async Ext (option A)) :
  (forall j, keepsDirs (body j)) -> keepsDirs (Async.forRange n i body).
Proof.
  intros Hbody. revert i.
  induction n as [|n IH]; intros i; simpl.
  - apply keepsDirs_ret.
  - apply keepsDirs_bind; [apply Hbody|].
    intros [a|]; [apply keepsDirs_ret | apply IH].
Qed.

(** The shape of both [run] functions: make a scratch directory, run the
    body under [finally { rm }].  Whatever the body does, the directories
    that exist afterwards are those that existed before, and when a
    directory was made, it is the one removed at the end. *)
Lemma scratch_released {A} (host : Host Ext) (prefix : string)
      (body : string -> Async Ext A) (w : World Ext) :
  (forall dir, keepsDirs (body dir)) ->
  let o :=
    Async.bind (Async.mkdtemp host prefix)
      (fun tmpDir => Async.tryFinally (body tmpDir) (Async.rm tmpDir)) w in
  tmpdirs (after o) = tmpdirs w /\
  ((exists e, result o = Throw e /\ events o = []) \/
   (exists dir evs,
       events o = (Mkdtemp dir :: evs ++ [Rm dir])%list /\
       (dir ∉ tmpdirs w) /\ (dir ∉ tmpdirs (after o)))).
Proof.
  intros Hbody. unfold Async.bind, Async.mkdtemp.
  destruct (host_mkdtemp host prefix (ext w)) as [[dir|e] x].
  - destruct (bool_decide (dir ∈ tmpdirs w)) eqn:Hin; simpl.
    + split; [reflexivity | left; eauto].
    + apply bool_decide_eq_false in Hin.
      unfold Async.tryFinally, Async.rm; simpl.
      rewrite Hbody; simpl.
      split.
      * apply set_eq. intros d.
        rewrite elem_of_difference, elem_of_union, !elem_of_singleton.
        split.
        -- intros [[->|Hd] Hne]; [contradiction (Hne eq_refl) | exact Hd].
        -- intros Hd. split; [right; exact Hd | intros ->; contradiction].
      * right. eexists dir, _. split; [reflexivity|]. split; [exact Hin|].
        rewrite elem_of_difference, elem_of_singleton. intros [_ Hne].
        exact (Hne eq_refl).
  - simpl. split; [reflexivity | left; eauto].
Qed.

End Frame.

(** Discharges [keepsDirs] for code built from the operations above. *)
Ltac keeps_dirs_step :=
  lazymatch goal with
  | |- keepsDirs (Async.ret _) => apply keepsDirs_ret
  | |- keepsDirs (Async.throw _) => apply keepsDirs_throw
  | |- keepsDirs (Async.emit _) => apply keepsDirs_emit
  | |- keepsDirs (Async.perform _ _) => apply keepsDirs_perform
  | |- keepsDirs (Async.ask _) => apply keepsDirs_ask
  | |- keepsDirs (Async.bind _ _) => apply keepsDirs_bind; [|intros ?]
  | |- keepsDirs (Async.tryCatch _ _) => apply keepsDirs_tryCatch; [|intros ?]
  | |- keepsDirs (Async.forRange _ _ _) => apply keepsDirs_forRange; intros ?
  | |- keepsDirs (let _ := _ in _) => cbv zeta
  | |- keepsDirs (match ?x with _ => _ end) => destruct x
  end.
Ltac keeps_dirs := repeat keeps_dirs_step.

Lemma scratchReleased_run {Ext A} (host : Host Ext) (start : Event) (prefix : string)
      (body : string -> Async Ext A) (w : World Ext) :
  (forall dir, keepsDirs (body dir)) ->
  scratchReleased start w
    ((Async.emit start ;;
      tmpDir <- Async.mkdtemp host prefix ;;
      Async.tryFinally (body tmpDir) (Async.rm tmpDir)) w).
Proof.
  intros Hbody.
  destruct (scratch_released host prefix body w Hbody) as [Hdirs Hcases].
  unfold scratchReleased. unfold Async.bind at 1. simpl.
  split; [exact Hdirs|].
  destruct Hcases as [(e & Hres & Hevs) | (dir & evs & Hevs & Hnew & Hgone)].
  - left. exists e. rewrite Hres, Hevs. split; reflexivity.
  - right. exists dir, evs. rewrite Hevs. repeat split; assumption.
Qed.

Lemma crop_body_keepsDirs {Ext} (host : Host Ext) (env : Env)
      (payload : CropImage.CropImageTaskPayload) (inputPath outputPath : string) :
  keepsDirs (CropImage.body host env payload inputPath outputPath).
Proof.
  unfold CropImage.body, CropImage.cropAndUpload, CropImage.getImageDimensions,
    CropImage.getFfmpegPath, CropImage.uploadCroppedImageToTransloaditV2,
    CropImage.cropViaTransloadit.
  keeps_dirs.
Qed.

Lemma extract_body_keepsDirs {Ext} (host : Host Ext) (env : Env)
      (payload : ExtractFrame.ExtractFrameTaskPayload) (videoPath framePath : string) :
  keepsDirs (ExtractFrame.body host env payload videoPath framePath).
Proof.
  unfold ExtractFrame.body, ExtractFrame.extractWithFallback, ExtractFrame.extractLocally,
    ExtractFrame.getVideoDuration, ExtractFrame.getFfprobePath, ExtractFrame.getFfmpegPath,
    ExtractFrame.uploadFrameToTransloadit, ExtractFrame.extractFrameViaTransloadit.
  keeps_dirs.
Qed.

(** C7.  Every execution of the crop task and of the frame-extraction task
    releases its scratch directory, whether it returns or throws, and
    wherever it throws: for every behaviour of the outside and every payload,
    the run ends with the directories it started with, and the directory it
    made is removed as its last action. *)
Theorem scratch_directory_removed {Ext} (host : Host Ext) (env : Env) (w : World Ext) :
  (forall payload,
      scratchReleased (Log Info "Starting crop image task (FFmpeg)") w
        (CropImage.run host env payload w)) /\
  (forall payload,
      scratchReleased (Log Info "Starting extract frame task (FFmpeg)") w
        (ExtractFrame.run host env payload w)).
Proof.
  split; intros payload.
  - unfold CropImage.run. apply scratchReleased_run.
    intros dir. apply crop_body_keepsDirs.
  - unfold ExtractFrame.run. apply scratchReleased_run.
    intros dir. apply extract_body_keepsDirs.
Qed.

(** ** Polling *)

Lemma pollCount_app (l1 l2 : list Event) :
  pollCount (l1 ++ l2) = pollCount l1 + pollCount l2.
Proof. unfold pollCount. rewrite filter_app, length_app. reflexivity. Qed.

Section Polls.
Context {Ext : Type}.

Lemma pollsAtMost_weaken {A} (n n' : nat) (m : Async Ext A) :
  n <= n' -> pollsAtMost n m -> pollsAtMost n' m.
Proof. intros Hle Hm w. specialize (Hm w). lia. Qed.

Lemma pollsAtMost_ret {A} (a : A) : pollsAtMost 0 (@Async.ret Ext A a).
Proof. intros w. reflexivity. Qed.

Lemma pollsAtMost_throw {A} (e : string) : pollsAtMost 0 (@Async.throw Ext A e).
Proof. intros w. reflexivity. Qed.

Lemma pollsAtMost_emit (e : Event) : isPoll e = false -> pollsAtMost 0 (@Async.emit Ext e).
Proof. intros He w. destruct e; try discriminate He; reflexivity. Qed.

Lemma pollsAtMost_perform {A} (e : Event) (q : Ext -> Result A * Ext) :
  pollsAtMost (if isPoll e then 1 else 0) (Async.perform e q).
Proof.
  intros w. destruct e; simpl; unfold pollCount; simpl; lia.
Qed.

Lemma pollsAtMost_bind {A B} (n1 n2 : nat) (m : Async Ext A) (k : A -> Async Ext B) :
  pollsAtMost n1 m -> (forall a, pollsAtMost n2 (k a)) ->
  pollsAtMost (n1 + n2) (Async.bind m k).
Proof.
  intros Hm Hk w. unfold Async.bind.
  specialize (Hm w).
  destruct (result (m w)) as [a|e]; simpl.
  - rewrite pollCount_app. specialize (Hk a (after (m w))). lia.
  - lia.
Qed.

Lemma pollsAtMost_tryCatch {A} (n1 n2 : nat) (body : Async Ext A)
      (handler : string -> Async Ext A) :
  pollsAtMost n1 body -> (forall e, pollsAtMost n2 (handler e)) ->
  pollsAtMost (n1 + n2) (Async.tryCatch body handler).
Proof.
  intros Hb Hh w. unfold Async.tryCatch.
  specialize (Hb w).
  destruct (result (body w)) as [a|e]; simpl.
  - lia.
  - rewrite pollCount_app. specialize (Hh e (after (body w))). lia.
Qed.

(** A loop of [n] rounds whose body polls at most once polls at most [n] times. *)
Lemma pollsAtMost_forRange {A} (n i : nat) (body : nat -> Async Ext (option A)) :
  (forall j, pollsAtMost 1 (body j)) -> pollsAtMost n (Async.forRange n i body).
Proof.
  intros Hbody. revert i.
  induction n as [|n IH]; intros i; simpl.
  - apply pollsAtMost_ret.
  - change (S n) with (1 + n). apply pollsAtMost_bind; [apply Hbody|].
    intros [a|]; [|apply IH].
    eapply pollsAtMost_weaken; [|apply pollsAtMost_ret]. lia.
Qed.

End Polls.

(** Discharges [pollsAtMost n] for code whose polls are those of one loop of
    [n] rounds, each round a sleep and a poll. *)
Ltac polls_step :=
  lazymatch goal with
  | |- pollsAtMost _ (Async.ret _) =>
      eapply pollsAtMost_weaken; [|apply pollsAtMost_ret]; lia
  | |- pollsAtMost _ (Async.throw _) =>
      eapply pollsAtMost_weaken; [|apply pollsAtMost_throw]; lia
  | |- pollsAtMost _ (Async.emit _) =>
      eapply pollsAtMost_weaken; [|apply pollsAtMost_emit; reflexivity]; lia
  | |- pollsAtMost _ (Async.perform (PollAssembly _) _) =>
      eapply pollsAtMost_weaken;
      [|apply (pollsAtMost_perform (PollAssembly _))]; simpl; lia
  | |- pollsAtMost _ (Async.perform ?e _) =>
      eapply pollsAtMost_weaken; [|apply (pollsAtMost_perform e)]; simpl; lia
  | |- pollsAtMost ?n (Async.forRange ?n _ _) =>
      apply pollsAtMost_forRange; intros ?
  | |- pollsAtMost ?n (Async.bind (Async.forRange _ _ _) _) =>
      apply (pollsAtMost_bind n 0); [|intros ?]
  | |- pollsAtMost ?n (Async.bind (Async.perform (PollAssembly _) _) _) =>
      apply (pollsAtMost_bind n 0); [|intros ?]
  | |- pollsAtMost ?n (Async.bind _ _) =>
      apply (pollsAtMost_bind 0 n); [|intros ?]
  | |- pollsAtMost ?n (Async.tryCatch _ _) =>
      apply (pollsAtMost_tryCatch 0 n); [|intros ?]
  | |- pollsAtMost _ (let _ := _ in _) => cbv zeta
  | |- pollsAtMost _ (match ?x with _ => _ end) => destruct x
  end.
Ltac polls_in_loop := repeat polls_step.
Ltac no_polls := repeat polls_step.

Section Ceiling.
Context {Ext : Type} (host : Host Ext) (env : Env).

Lemma uploadCroppedImage_polls (localPath : string) :
  pollsAtMost 60 (CropImage.uploadCroppedImageToTransloadit host env localPath).
Proof. unfold CropImage.uploadCroppedImageToTransloadit. polls_in_loop. Qed.

Lemma uploadCroppedImageV2_polls (localPath : string) :
  pollsAtMost 60 (CropImage.uploadCroppedImageToTransloaditV2 host env localPath).
Proof. unfold CropImage.uploadCroppedImageToTransloaditV2. polls_in_loop. Qed.

Lemma cropViaTransloadit_polls (payload : CropImage.CropImageTaskPayload) :
  pollsAtMost 60 (CropImage.cropViaTransloadit host env payload).
Proof. unfold CropImage.cropViaTransloadit. polls_in_loop. Qed.

Lemma uploadFrame_polls (localPath : string) :
  pollsAtMost 90 (ExtractFrame.uploadFrameToTransloadit host env localPath).
Proof. unfold ExtractFrame.uploadFrameToTransloadit. polls_in_loop. Qed.

Lemma extractFrameViaTransloadit_polls
      (payload : ExtractFrame.ExtractFrameTaskPayload) (offsetSeconds : Q) :
  pollsAtMost 90 (ExtractFrame.extractFrameViaTransloadit host env payload offsetSeconds).
Proof. unfold ExtractFrame.extractFrameViaTransloadit. polls_in_loop. Qed.

End Ceiling.

Section Stalled.
Context {Ext : Type}.

Lemma timesOut_throw {A} (ceiling : nat) (e : string) (w : World Ext) :
  timesOut ceiling (@Async.throw Ext A e w).
Proof. exists e. split; [reflexivity | left; reflexivity]. Qed.

Lemma timesOut_bind {A B} (ceiling : nat) (m : Async Ext A) (k : A -> Async Ext B) :
  pollsAtMost 0 m ->
  (forall a w, timesOut ceiling (k a w)) ->
  forall w, timesOut ceiling (Async.bind m k w).
Proof.
  intros Hm Hk w. unfold Async.bind.
  pose proof (Hm w) as Hzero.
  destruct (result (m w)) as [a|e] eqn:Hres; simpl.
  - destruct (Hk a (after (m w))) as (e & He & Hcount).
    exists e. simpl. split; [exact He|].
    rewrite pollCount_app. destruct Hcount as [H0 | [Ht Hc]]; [left | right; split; trivial]; lia.
  - exists e. simpl. split; [reflexivity | left; lia].
Qed.

(** A loop whose every round polls once and goes on. *)
Lemma forRange_goes_on {A} (n i : nat) (body : nat -> Async Ext (option A)) (w : World Ext) :
  (forall j w', result (body j w') = Ok None /\ pollCount (events (body j w')) = 1) ->
  result (Async.forRange n i body w) = Ok None /\
  pollCount (events (Async.forRange n i body w)) = n.
Proof.
  intros Hbody. revert i w.
  induction n as [|n IH]; intros i w; simpl.
  - split; reflexivity.
  - unfold Async.bind. destruct (Hbody i w) as [Hres Hcount].
    rewrite Hres. simpl. destruct (IH (S i) (after (body i w))) as [Hres' Hcount'].
    split; [exact Hres'|]. rewrite pollCount_app. lia.
Qed.

(** A loop whose rounds poll once and go on, but for the last, which polls
    once and throws. *)
Lemma forRange_throws_at_last {A} (n i : nat) (body : nat -> Async Ext (option A))
      (e : string) (w : World Ext) :
  (forall j w', j < i + n ->
                result (body j w') = Ok None /\ pollCount (events (body j w')) = 1) ->
  (forall w', result (body (i + n) w') = Throw e /\
              pollCount (events (body (i + n) w')) = 1) ->
  result (Async.forRange (S n) i body w) = Throw e /\
  pollCount (events (Async.forRange (S n) i body w)) = S n.
Proof.
  revert i w.
  induction n as [|n IH]; intros i w Hbody Hlast.
  - simpl. unfold Async.bind. rewrite Nat.add_0_r in Hlast.
    destruct (Hlast w) as [Hres Hcount]. rewrite Hres. simpl. split; [reflexivity | exact Hcount].
  - change (Async.forRange (S (S n)) i body w)
      with (Async.bind (body i) (fun r =>
              match r with
              | Some a => Async.ret (Some a)
              | None => Async.forRange (S n) (S i) body
              end) w).
    unfold Async.bind. destruct (Hbody i w ltac:(lia)) as [Hres Hcount].
    rewrite Hres. cbv iota beta zeta.
    destruct (IH (S i) (after (body i w))) as [Hres' Hcount'].
    + intros j w' Hj. apply Hbody. lia.
    + intros w'. replace (S i + n) with (i + S n) by lia. apply Hlast.
    + cbn [result events]. split; [exact Hres'|]. rewrite pollCount_app. lia.
Qed.

(** The loops of the three uploads against a stalled backend. *)
Lemma timesOut_loop {A} (ceiling : nat) (body : nat -> Async Ext (option A))
      (k : option A -> Async Ext A) (w : World Ext) :
  (forall j w', result (body j w') = Ok None /\ pollCount (events (body j w')) = 1) ->
  (forall w', result (k None w') = Throw timedOut /\ events (k None w') = []) ->
  timesOut ceiling (Async.bind (Async.forRange ceiling 0 body) k w).
Proof.
  intros Hbody Hk. unfold Async.bind.
  destruct (forRange_goes_on ceiling 0 body w Hbody) as [Hres Hcount].
  rewrite Hres. cbv iota beta zeta.
  destruct (Hk (after (Async.forRange ceiling 0 body w))) as [Hthrow Hnone].
  exists timedOut. cbn [result events]. split; [exact Hthrow|].
  right. split; [reflexivity|].
  rewrite pollCount_app, Hnone, Hcount. change (pollCount []) with 0. lia.
Qed.

(** The loops of the two remote transforms against a stalled backend. *)
Lemma timesOut_loop_last {A} (n : nat) (body : nat -> Async Ext (option A))
      (k : option A -> Async Ext A) (w : World Ext) :
  (forall j w', j < n ->
                result (body j w') = Ok None /\ pollCount (events (body j w')) = 1) ->
  (forall w', result (body n w') = Throw timedOut /\ pollCount (events (body n w')) = 1) ->
  timesOut (S n) (Async.bind (Async.forRange (S n) 0 body) k w).
Proof.
  intros Hbody Hlast. unfold Async.bind.
  destruct (forRange_throws_at_last n 0 body timedOut w Hbody Hlast) as [Hres Hcount].
  rewrite Hres. exists timedOut. cbn [result events]. split; [reflexivity|].
  right. split; [reflexivity | exact Hcount].
Qed.

End Stalled.

(** ** Stepping through a computation *)

Section Steps.
Context {Ext : Type}.

Lemma bind_Ok {A B} (m : Async Ext A) (k : A -> Async Ext B) (w : World Ext) (a : A) :
  result (m w) = Ok a ->
  Async.bind m k w =
  Build_Outcome (result (k a (after (m w))))
    (events (m w) ++ events (k a (after (m w))))
    (after (k a (after (m w)))).
Proof. intros H. unfold Async.bind. rewrite H. reflexivity. Qed.

Lemma bind_Throw {A B} (m : Async Ext A) (k : A -> Async Ext B) (w : World Ext) (e : string) :
  result (m w) = Throw e ->
  Async.bind m k w = Build_Outcome (Throw e) (events (m w)) (after (m w)).
Proof. intros H. unfold Async.bind. rewrite H. reflexivity. Qed.

Lemma tryCatch_Ok {A} (body : Async Ext A) (handler : string -> Async Ext A)
      (w : World Ext) (a : A) :
  result (body w) = Ok a -> Async.tryCatch body handler w = body w.
Proof. intros H. unfold Async.tryCatch. rewrite H. reflexivity. Qed.

Lemma tryCatch_Throw {A} (body : Async Ext A) (handler : string -> Async Ext A)
      (w : World Ext) (e : string) :
  result (body w) = Throw e ->
  Async.tryCatch body handler w =
  Build_Outcome (result (handler e (after (body w))))
    (events (body w) ++ events (handler e (after (body w))))
    (after (handler e (after (body w)))).
Proof. intros H. unfold Async.tryCatch. rewrite H. reflexivity. Qed.

Lemma perform_result {A} (e : Event) (q : Ext -> Result A * Ext) (w : World Ext) :
  result (Async.perform e q w) = fst (q (ext w)).
Proof. reflexivity. Qed.

Lemma perform_events {A} (e : Event) (q : Ext -> Result A * Ext) (w : World Ext) :
  events (Async.perform e q w) = [e].
Proof. reflexivity. Qed.

Lemma perform_after {A} (e : Event) (q : Ext -> Result A * Ext) (w : World Ext) :
  after (Async.perform e q w) = Build_World (tmpdirs w) (snd (q (ext w))).
Proof. reflexivity. Qed.

End Steps.

(** Walks through what precedes the loop of an await. *)
Ltac times_out_step :=
  lazymatch goal with
  | |- timesOut _ (Async.throw _ _) => apply timesOut_throw
  | |- timesOut _ (Async.bind (Async.forRange _ _ _) _ _) => fail
  | |- timesOut _ (Async.bind _ _ _) =>
      apply timesOut_bind; [solve [no_polls] | intros ? ?]
  | |- timesOut _ ((let _ := _ in _) _) => cbv zeta
  | |- timesOut _ ((match ?x with _ => _ end) _) => destruct x
  end.
Ltac times_out_prefix := repeat times_out_step.

(** One round of a loop against a stalled backend: a sleep, a poll, and the
    answer is not a terminal one. *)
Ltac stalled_round Hstalled :=
  let pd := fresh "pd" in
  let Hfst := fresh "Hfst" in
  let Hok := fresh "Hok" in
  let Herr := fresh "Herr" in
  match goal with
  | |- context [Async.perform (PollAssembly ?url) _] =>
      match goal with
      | |- context [Async.bind (Async.emit ?ev) ?k ?w] =>
          rewrite (bind_Ok (Async.emit ev) k w tt) by reflexivity;
          cbn [result events after Async.emit];
          destruct (Hstalled url (ext w)) as (pd & Hfst & Hok & Herr);
          match goal with
          | |- context [Async.bind (Async.perform ?e ?q) ?k' w] =>
              rewrite (bind_Ok (Async.perform e q) k' w pd)
                by (rewrite perform_result; exact Hfst)
          end
      end
  end;
  rewrite ?perform_events; cbn [result events after]; rewrite ?Hok.

Ltac upload_round Hstalled :=
  intros ? ?; stalled_round Hstalled;
  match goal with
  | Hpd : Js.truthyOpt (poll_error ?pd) = false |- _ =>
      destruct (poll_error pd) as [?e|];
      [cbn [Js.truthyOpt] in Hpd; rewrite Hpd|];
      split; reflexivity
  end.

Section StalledAwaits.
Context {Ext : Type} (host : Host Ext) (env : Env).
Hypothesis Hstalled : stalled host.

Lemma uploadCroppedImage_timesOut (localPath : string) (w : World Ext) :
  timesOut 60 (CropImage.uploadCroppedImageToTransloadit host env localPath w).
Proof.
  unfold CropImage.uploadCroppedImageToTransloadit.
  times_out_prefix.
  apply timesOut_loop; [upload_round Hstalled | intros w'; split; reflexivity].
Qed.

Lemma uploadCroppedImageV2_timesOut (localPath : string) (w : World Ext) :
  timesOut 60 (CropImage.uploadCroppedImageToTransloaditV2 host env localPath w).
Proof.
  unfold CropImage.uploadCroppedImageToTransloaditV2.
  times_out_prefix.
  apply timesOut_loop; [upload_round Hstalled | intros w'; split; reflexivity].
Qed.

Lemma uploadFrame_timesOut (localPath : string) (w : World Ext) :
  timesOut 90 (ExtractFrame.uploadFrameToTransloadit host env localPath w).
Proof.
  unfold ExtractFrame.uploadFrameToTransloadit.
  times_out_prefix.
  apply timesOut_loop; [upload_round Hstalled | intros w'; split; reflexivity].
Qed.

Lemma cropViaTransloadit_timesOut (payload : CropImage.CropImageTaskPayload)
      (w : World Ext) :
  timesOut 60 (CropImage.cropViaTransloadit host env payload w).
Proof.
  unfold CropImage.cropViaTransloadit.
  times_out_prefix.
  apply (timesOut_loop_last 59).
  - intros j w' Hj. stalled_round Hstalled.
    rewrite (proj2 (Nat.eqb_neq j 59)) by lia. split; reflexivity.
  - intros w'. stalled_round Hstalled. split; reflexivity.
Qed.

Lemma extractFrameViaTransloadit_timesOut
      (payload : ExtractFrame.ExtractFrameTaskPayload) (offsetSeconds : Q) (w : World Ext) :
  timesOut 90 (ExtractFrame.extractFrameViaTransloadit host env payload offsetSeconds w).
Proof.
  unfold ExtractFrame.extractFrameViaTransloadit.
  times_out_prefix.
  apply (timesOut_loop_last 89).
  - intros j w' Hj. stalled_round Hstalled.
    rewrite (proj2 (Nat.eqb_neq j 89)) by lia. split; reflexivity.
  - intros w'. stalled_round Hstalled. split; reflexivity.
Qed.

End StalledAwaits.


Lemma stalledBackend_stalled : stalled (Scripted.host Scripted.stalledBackend).
Proof.
  intros url x. exists Scripted.executing. split; [reflexivity|]. split; reflexivity.
Qed.


Example stalled_upload_runs :
  let o :=
    CropImage.uploadCroppedImageToTransloadit (Scripted.host Scripted.stalledBackend)
      Scripted.env "/tmp/crop-Ab12Cd/output.jpg" Scripted.start in
  result o = Throw "Transloadit assembly timed out" /\ pollCount (events o) = 60.
Proof. vm_compute. split; reflexivity. Qed.

Example stalled_remote_frame_runs :
  let o :=
    ExtractFrame.extractFrameViaTransloadit (Scripted.host Scripted.stalledBackend)
      Scripted.env
      {| ExtractFrame.videoUrl := "https://example.com/v.mp4";
         ExtractFrame.timestamp := 5; ExtractFrame.timestampPercent := None |}
      5 Scripted.start in
  result o = Throw "Transloadit assembly timed out" /\ pollCount (events o) = 90.
Proof. vm_compute. split; reflexivity. Qed.

(** ** Model inference *)

Lemma geminiCalls_app (l1 l2 : list Event) :
  geminiCalls (l1 ++ l2) = (geminiCalls l1 ++ geminiCalls l2)%list.
Proof. apply omap_app. Qed.

Lemma geminiCalls_logs (evs : list Event) :
  Forall (fun e => isLog e = true) evs -> geminiCalls evs = [].
Proof.
  induction 1 as [|e evs He _ IH]; [reflexivity|].
  destruct e; try discriminate He. exact IH.
Qed.

Lemma fold_left_push {A B} (f : A -> B) (xs : list A) (parts : list B) :
  fold_left (fun parts x => Js.push parts (f x)) xs parts = (parts ++ map f xs)%list.
Proof.
  revert parts. induction xs as [|x xs IH]; intros parts; simpl.
  - symmetry. apply app_nil_r.
  - rewrite IH. unfold Js.push. rewrite <- app_assoc. reflexivity.
Qed.

Section Inference.
Context {Ext : Type} (host : Host Ext) (env : Env).

(** With a key configured, [run] logs, assembles the prompt of the
    specification and goes on as [generate] does with it. *)
Lemma run_generate (payload : LlmTask.LLMTaskPayload) (apiKey : string) (w : World Ext) :
  GOOGLE_GEMINI_API_KEY env = Some apiKey ->
  Js.truthy apiKey = true ->
  exists pre,
    Forall (fun e => isLog e = true) pre /\
    result (LlmTask.run host env payload w)
    = result (LlmTask.generate host env payload (LlmTask.promptSegments payload) apiKey w) /\
    events (LlmTask.run host env payload w)
    = (pre ++ events (LlmTask.generate host env payload
                        (LlmTask.promptSegments payload) apiKey w))%list /\
    after (LlmTask.run host env payload w)
    = after (LlmTask.generate host env payload (LlmTask.promptSegments payload) apiKey w).
Proof.
  intros Hkey Htruthy. unfold LlmTask.run. rewrite Hkey, Htruthy.
  cbn [negb]. cbv zeta.
  unfold LlmTask.promptSegments.
  set (sys := match LlmTask.systemPrompt payload with
              | Some sp => if Js.truthy sp then _ else _
              | None => _ end).
  assert (forall parts pre,
             Forall (fun e => isLog e = true) pre ->
             forall m : Async Ext (list Part),
             (forall w', m w' = Build_Outcome (Ok parts) pre w') ->
             exists pre',
               Forall (fun e => isLog e = true) pre' /\
               result ((Async.emit (Log Info "Starting LLM task") ;;
                        parts <- m ;; LlmTask.generate host env payload parts apiKey) w)
               = result (LlmTask.generate host env payload parts apiKey w) /\
               events ((Async.emit (Log Info "Starting LLM task") ;;
                        parts <- m ;; LlmTask.generate host env payload parts apiKey) w)
               = (pre' ++ events (LlmTask.generate host env payload parts apiKey w))%list /\
               after ((Async.emit (Log Info "Starting LLM task") ;;
                       parts <- m ;; LlmTask.generate host env payload parts apiKey) w)
               = after (LlmTask.generate host env payload parts apiKey w)) as Hgo.
  { intros parts pre Hpre m Hm.
    exists (Log Info "Starting LLM task" :: pre).
    split; [constructor; [reflexivity | exact Hpre]|].
    unfold Async.bind. cbn [Async.emit result events after]. rewrite Hm.
    cbn [result events after]. repeat split. }
  destruct (LlmTask.images payload) as [imgs|].
  - destruct imgs as [|img imgs].
    + cbn [length Nat.ltb Nat.leb map]. rewrite app_nil_r.
      apply (Hgo _ []); [constructor | reflexivity].
    + cbn [length Nat.ltb Nat.leb]. rewrite fold_left_push.
      unfold Js.push. rewrite <- app_assoc.
      apply (Hgo _ [Log Info "Adding images to prompt"]);
        [repeat constructor | reflexivity].
  - cbn [map]. rewrite app_nil_r.
    apply (Hgo _ []); [constructor | reflexivity].
Qed.

End Inference.

(** *** Stepping through the events of a computation *)

Section Outcomes.
Context {Ext : Type}.

Lemma bind_outcome_Ok {A B} (m : Async Ext A) (k : A -> Async Ext B) (w w' : World Ext)
      (a : A) (evs : list Event) :
  m w = Build_Outcome (Ok a) evs w' -> Async.bind m k w = prepend evs (k a w').
Proof. intros H. unfold Async.bind. rewrite H. reflexivity. Qed.

Lemma bind_outcome_Throw {A B} (m : Async Ext A) (k : A -> Async Ext B) (w w' : World Ext)
      (e : string) (evs : list Event) :
  m w = Build_Outcome (Throw e) evs w' ->
  Async.bind m k w = Build_Outcome (Throw e) evs w'.
Proof. intros H. unfold Async.bind. rewrite H. reflexivity. Qed.

Lemma tryCatch_outcome_Ok {A} (body : Async Ext A) (handler : string -> Async Ext A)
      (w w' : World Ext) (a : A) (evs : list Event) :
  body w = Build_Outcome (Ok a) evs w' ->
  Async.tryCatch body handler w = Build_Outcome (Ok a) evs w'.
Proof. intros H. unfold Async.tryCatch. rewrite H. reflexivity. Qed.

Lemma tryCatch_outcome_Throw {A} (body : Async Ext A) (handler : string -> Async Ext A)
      (w w' : World Ext) (e : string) (evs : list Event) :
  body w = Build_Outcome (Throw e) evs w' ->
  Async.tryCatch body handler w = prepend evs (handler e w').
Proof. intros H. unfold Async.tryCatch. rewrite H. reflexivity. Qed.

Lemma bind_emit {B} (e : Event) (k : unit -> Async Ext B) (w : World Ext) :
  Async.bind (Async.emit e) k w = prepend [e] (k tt w).
Proof. reflexivity. Qed.

Lemma bind_perform_Ok {A B} (e : Event) (q : Ext -> Result A * Ext)
      (k : A -> Async Ext B) (w : World Ext) (a : A) :
  fst (q (ext w)) = Ok a ->
  Async.bind (Async.perform e q) k w
  = prepend [e] (k a (Build_World (tmpdirs w) (snd (q (ext w))))).
Proof.
  intros H. apply bind_outcome_Ok.
  unfold Async.perform. rewrite bind_emit. unfold Async.ask, prepend. simpl.
  rewrite H. reflexivity.
Qed.

Lemma bind_perform_Throw {A B} (e : Event) (q : Ext -> Result A * Ext)
      (k : A -> Async Ext B) (w : World Ext) (message : string) :
  fst (q (ext w)) = Throw message ->
  Async.bind (Async.perform e q) k w
  = Build_Outcome (Throw message) [e] (Build_World (tmpdirs w) (snd (q (ext w)))).
Proof.
  intros H. apply bind_outcome_Throw.
  unfold Async.perform. rewrite bind_emit. unfold Async.ask, prepend. simpl.
  rewrite H. reflexivity.
Qed.

End Outcomes.

(** *** The five ways [generate] ends *)

Section Generate.
Context {Ext : Type} (host : Host Ext) (env : Env).
Variables (payload : LlmTask.LLMTaskPayload) (parts : list Part) (apiKey : string).
Variable w : World Ext.

Local Abbreviation primary :=
  (host_generateContent host apiKey (LlmTask.model payload) parts (ext w)).

Lemma generate_primary_ok (text : string) :
  fst primary = Ok text ->
  LlmTask.generate host env payload parts apiKey w =
  Build_Outcome (Ok {| LlmTask.output := text |})
    [Log Info "Calling Gemini API...";
     GenerateContent apiKey (LlmTask.model payload) parts;
     Log Info "LLM task completed"]
    (Build_World (tmpdirs w) (snd primary)).
Proof.
  intros Hprimary. unfold LlmTask.generate.
  apply tryCatch_outcome_Ok.
  rewrite bind_emit. unfold LlmTask.callGemini.
  rewrite (bind_perform_Ok _ _ _ _ text Hprimary), bind_emit.
  reflexivity.
Qed.

(** Steps to the [catch] block after the primary call threw. *)
Ltac primary_throws Hprimary :=
  unfold LlmTask.generate;
  erewrite tryCatch_outcome_Throw;
  [|rewrite bind_emit; unfold LlmTask.callGemini;
    rewrite (bind_perform_Throw _ _ _ _ _ Hprimary); reflexivity];
  cbv beta zeta.

Lemma generate_invalid_key (message : string) :
  fst primary = Throw message ->
  LlmTask.isQuotaOrRate (Js.toLowerCase message) = false ->
  LlmTask.isApiKeyOrAuth (Js.toLowerCase message) = true ->
  LlmTask.generate host env payload parts apiKey w =
  Build_Outcome (Throw (LlmTask.invalidApiKey message))
    [Log Info "Calling Gemini API...";
     GenerateContent apiKey (LlmTask.model payload) parts]
    (Build_World (tmpdirs w) (snd primary)).
Proof.
  intros Hprimary Hquota Hauth.
  primary_throws Hprimary.
  rewrite Hquota, Hauth. reflexivity.
Qed.

Lemma generate_other_error (message : string) :
  fst primary = Throw message ->
  LlmTask.isQuotaOrRate (Js.toLowerCase message) = false ->
  LlmTask.isApiKeyOrAuth (Js.toLowerCase message) = false ->
  LlmTask.generate host env payload parts apiKey w =
  Build_Outcome (Throw message)
    [Log Info "Calling Gemini API...";
     GenerateContent apiKey (LlmTask.model payload) parts]
    (Build_World (tmpdirs w) (snd primary)).
Proof.
  intros Hprimary Hquota Hauth.
  primary_throws Hprimary.
  rewrite Hquota, Hauth. reflexivity.
Qed.

Lemma generate_quota_no_backup (message : string) :
  fst primary = Throw message ->
  LlmTask.isQuotaOrRate (Js.toLowerCase message) = true ->
  (forall backupKey, ~ usableBackup env apiKey backupKey) ->
  LlmTask.generate host env payload parts apiKey w =
  Build_Outcome (Throw (LlmTask.quotaExceeded message))
    [Log Info "Calling Gemini API...";
     GenerateContent apiKey (LlmTask.model payload) parts]
    (Build_World (tmpdirs w) (snd primary)).
Proof.
  intros Hprimary Hquota Hnone.
  primary_throws Hprimary.
  rewrite Hquota.
  destruct (GOOGLE_GEMINI_API_KEY_BACKUP env) as [backupKey|] eqn:Hbackup;
    [|reflexivity].
  destruct (Js.truthy backupKey) eqn:Htruthy; [|reflexivity].
  destruct (String.eqb_spec backupKey apiKey) as [Heq|Hne]; [reflexivity|].
  exfalso. apply (Hnone backupKey). repeat split; assumption.
Qed.

Lemma generate_quota_backup (message backupKey : string) :
  fst primary = Throw message ->
  LlmTask.isQuotaOrRate (Js.toLowerCase message) = true ->
  usableBackup env apiKey backupKey ->
  let secondary :=
    host_generateContent host backupKey (LlmTask.model payload) parts (snd primary) in
  LlmTask.generate host env payload parts apiKey w =
  Build_Outcome
    (match fst secondary with
     | Ok text => Ok {| LlmTask.output := text |}
     | Throw _ => Throw (LlmTask.quotaExceeded message)
     end)
    [Log Info "Calling Gemini API...";
     GenerateContent apiKey (LlmTask.model payload) parts;
     Log Info "Quota/rate limit hit with primary key, retrying with backup key...";
     GenerateContent backupKey (LlmTask.model payload) parts;
     match fst secondary with
     | Ok _ => Log Info "LLM task completed with backup key"
     | Throw _ => Log Error "Backup key also failed"
     end]
    (Build_World (tmpdirs w) (snd secondary)).
Proof.
  intros Hprimary Hquota (Hbackup & Htruthy & Hne) secondary.
  primary_throws Hprimary.
  rewrite Hquota, Hbackup, Htruthy.
  destruct (String.eqb_spec backupKey apiKey) as [Heq|_]; [contradiction|].
  cbn [andb negb].
  destruct (fst secondary) as [text|e] eqn:Hsecondary;
    subst secondary;
    change (snd (host_generateContent host apiKey (LlmTask.model payload) parts (ext w)))
      with (ext (Build_World (tmpdirs w)
                   (snd (host_generateContent host apiKey (LlmTask.model payload)
                           parts (ext w))))) in Hsecondary.
  - erewrite bind_outcome_Ok.
    2:{ rewrite bind_emit. erewrite tryCatch_outcome_Ok; [reflexivity|].
        unfold LlmTask.callGemini.
        rewrite (bind_perform_Ok _ _ _ _ text Hsecondary), bind_emit. reflexivity. }
    reflexivity.
  - erewrite bind_outcome_Ok.
    2:{ rewrite bind_emit. erewrite tryCatch_outcome_Throw.
        2:{ unfold LlmTask.callGemini.
            rewrite (bind_perform_Throw _ _ _ _ e Hsecondary). reflexivity. }
        rewrite bind_emit. reflexivity. }
    reflexivity.
Qed.

End Generate.

(** C3.  When the call with the primary key fails with a message classified
    as quota or rate-limit exhaustion and a backup key other than the primary
    is configured, the execution calls the model exactly twice, first with
    the primary and then once with the backup key; if the backup call
    succeeds the execution returns its text, and only if it fails too does
    the execution throw the quota error.  The primary key is not tried again. *)
Theorem quota_failover {Ext} (host : Host Ext) (env : Env)
        (payload : LlmTask.LLMTaskPayload) (apiKey backupKey message : string)
        (w : World Ext) :
  GOOGLE_GEMINI_API_KEY env = Some apiKey ->
  Js.truthy apiKey = true ->
  usableBackup env apiKey backupKey ->
  fst (host_generateContent host apiKey (LlmTask.model payload)
         (LlmTask.promptSegments payload) (ext w)) = Throw message ->
  LlmTask.isQuotaOrRate (Js.toLowerCase message) = true ->
  let primary :=
    host_generateContent host apiKey (LlmTask.model payload)
      (LlmTask.promptSegments payload) (ext w) in
  let secondary :=
    host_generateContent host backupKey (LlmTask.model payload)
      (LlmTask.promptSegments payload) (snd primary) in
  let o := LlmTask.run host env payload w in
  geminiCalls (events o) = [apiKey; backupKey] /\
  (forall text, fst secondary = Ok text -> result o = Ok {| LlmTask.output := text |}) /\
  (forall e, fst secondary = Throw e -> result o = Throw (LlmTask.quotaExceeded message)).
Proof.
  intros Hkey Htruthy Hbackup Hprimary Hquota primary secondary o.
  destruct (run_generate host env payload apiKey w Hkey Htruthy)
    as (pre & Hpre & Hres & Hevs & _).
  subst o. rewrite Hres, Hevs.
  rewrite (generate_quota_backup host env payload _ apiKey w message backupKey
             Hprimary Hquota Hbackup).
  cbn [result events]. fold primary. fold secondary.
  rewrite geminiCalls_app, (geminiCalls_logs pre Hpre).
  split; [|split].
  - destruct (fst secondary); reflexivity.
  - intros text ->. reflexivity.
  - intros e ->. reflexivity.
Qed.

(** When the quota test does not match first, the [catch] block does reach
    its test for a credential failure: a message that, in lower case,
    contains ["api key"] or ["authentication"] and none of the quota
    patterns makes the execution throw the invalid-API-key error around that
    message after this one call. *)
Lemma invalid_key_surfaced {Ext} (host : Host Ext) (env : Env)
        (payload : LlmTask.LLMTaskPayload) (apiKey message : string) (w : World Ext) :
  GOOGLE_GEMINI_API_KEY env = Some apiKey ->
  Js.truthy apiKey = true ->
  fst (host_generateContent host apiKey (LlmTask.model payload)
         (LlmTask.promptSegments payload) (ext w)) = Throw message ->
  LlmTask.isApiKeyOrAuth (Js.toLowerCase message) = true ->
  LlmTask.isQuotaOrRate (Js.toLowerCase message) = false ->
  let o := LlmTask.run host env payload w in
  result o = Throw (LlmTask.invalidApiKey message) /\
  geminiCalls (events o) = [apiKey].
Proof.
  intros Hkey Htruthy Hprimary Hauth Hquota o.
  destruct (run_generate host env payload apiKey w Hkey Htruthy)
    as (pre & Hpre & Hres & Hevs & _).
  subst o. rewrite Hres, Hevs.
  rewrite (generate_invalid_key host env payload _ apiKey w message Hprimary Hquota Hauth).
  cbn [result events].
  rewrite geminiCalls_app, (geminiCalls_logs pre Hpre).
  split; reflexivity.
Qed.

(** C8.  With a key configured, the execution submits the prompt of the
    specification: the first call to the model carries, in one request, the
    system instructions (when a system prompt is configured), then the user
    message, then one segment per attachment in the attachments' order; and
    every call the execution makes carries this same list. *)
Theorem prompt_segments_submitted {Ext} (host : Host Ext) (env : Env)
        (payload : LlmTask.LLMTaskPayload) (apiKey : string) (w : World Ext) :
  GOOGLE_GEMINI_API_KEY env = Some apiKey ->
  Js.truthy apiKey = true ->
  let o := LlmTask.run host env payload w in
  (exists pre post,
      events o =
      (pre ++ GenerateContent apiKey (LlmTask.model payload)
                (LlmTask.promptSegments payload) :: post)%list /\
      Forall (fun e => isLog e = true) pre) /\
  (forall key model parts,
      In (GenerateContent key model parts) (events o) ->
      model = LlmTask.model payload /\ parts = LlmTask.promptSegments payload).
Proof.
  intros Hkey Htruthy o.
  destruct (run_generate host env payload apiKey w Hkey Htruthy)
    as (pre & Hpre & _ & Hevs & _).
  subst o. rewrite Hevs. clear Hevs.
  set (parts := LlmTask.promptSegments payload).
  assert (exists post,
             events (LlmTask.generate host env payload parts apiKey w) =
             Log Info "Calling Gemini API..."
               :: GenerateContent apiKey (LlmTask.model payload) parts :: post /\
             forall key model parts',
               In (GenerateContent key model parts') post ->
               model = LlmTask.model payload /\ parts' = parts) as (post & Hgen & Hpost).
  { destruct (fst (host_generateContent host apiKey (LlmTask.model payload) parts (ext w)))
      as [text|message] eqn:Hprimary.
    - rewrite (generate_primary_ok host env payload parts apiKey w text Hprimary).
      eexists. split; [reflexivity|].
      intros key model parts' [H|[]]; discriminate H.
    - destruct (LlmTask.isQuotaOrRate (Js.toLowerCase message)) eqn:Hquota.
      + destruct (GOOGLE_GEMINI_API_KEY_BACKUP env) as [backupKey|] eqn:Hbackup.
        * destruct (Js.truthy backupKey) eqn:Hbt.
          -- destruct (String.eqb_spec backupKey apiKey) as [Heq|Hne].
             ++ rewrite (generate_quota_no_backup host env payload parts apiKey w message
                           Hprimary Hquota).
                ** eexists. split; [reflexivity | intros ? ? ? []].
                ** intros k (Hk & _ & Hk'). congruence.
             ++ rewrite (generate_quota_backup host env payload parts apiKey w message
                           backupKey Hprimary Hquota (conj Hbackup (conj Hbt Hne))).
                eexists. split; [reflexivity|].
                intros key model parts' [H|[H|[H|[]]]]; try discriminate H.
                ** injection H as <- <- <-. split; reflexivity.
                ** destruct (fst _) in H; discriminate H.
          -- rewrite (generate_quota_no_backup host env payload parts apiKey w message
                        Hprimary Hquota).
             ++ eexists. split; [reflexivity | intros ? ? ? []].
             ++ intros k (Hk & Hk' & _). congruence.
        * rewrite (generate_quota_no_backup host env payload parts apiKey w message
                     Hprimary Hquota).
          -- eexists. split; [reflexivity | intros ? ? ? []].
          -- intros k (Hk & _). congruence.
      + destruct (LlmTask.isApiKeyOrAuth (Js.toLowerCase message)) eqn:Hauth.
        * rewrite (generate_invalid_key host env payload parts apiKey w message
                     Hprimary Hquota Hauth).
          eexists. split; [reflexivity | intros ? ? ? []].
        * rewrite (generate_other_error host env payload parts apiKey w message
                     Hprimary Hquota Hauth).
          eexists. split; [reflexivity | intros ? ? ? []]. }
  rewrite Hgen. split.
  - exists (pre ++ [Log Info "Calling Gemini API..."])%list, post. split.
    + rewrite <- app_assoc. reflexivity.
    + apply Forall_app. split; [exact Hpre | repeat constructor].
  - intros key model parts' Hin.
    apply in_app_or in Hin. destruct Hin as [Hin|[Hin|[Hin|Hin]]].
    + pose proof (proj1 (List.Forall_forall _ pre) Hpre _ Hin) as Hlog.
      discriminate Hlog.
    + discriminate Hin.
    + injection Hin as <- <- <-. split; reflexivity.
    + apply (Hpost key model parts' Hin).
Qed.

(** The quota failover, run: the primary key is out of quota, the backup key
    answers. *)
Lemma quota_failover_runs :
  let o :=
    LlmTask.run (Scripted.host Scripted.quotaThenOk) Scripted.env Scripted.prompt
      Scripted.start in
  geminiCalls (events o) = ["primary-key"; "backup-key"] /\
  result o = Ok {| LlmTask.output := "Hello." |}.
Proof.
  intros o.
  assert (LlmTask.isQuotaOrRate (Js.toLowerCase Scripted.quotaMessage) = true) as Hquota
    by (vm_compute; reflexivity).
  assert (fst (host_generateContent (Scripted.host Scripted.quotaThenOk) "primary-key"
                 (LlmTask.model Scripted.prompt)
                 (LlmTask.promptSegments Scripted.prompt) (ext Scripted.start))
          = Throw Scripted.quotaMessage) as Hprimary by reflexivity.
  assert (usableBackup Scripted.env "primary-key" "backup-key") as Hbackup
    by (split; [reflexivity | split; [reflexivity | discriminate]]).
  pose proof (quota_failover (Scripted.host Scripted.quotaThenOk) Scripted.env
                Scripted.prompt "primary-key" "backup-key" Scripted.quotaMessage
                Scripted.start eq_refl eq_refl Hbackup Hprimary Hquota) as H.
  cbv zeta in H. destruct H as (Hcalls & Hok & _).
  split; [exact Hcalls | apply Hok; reflexivity].
Defined.

(** A key rejected with the plain words of the API, run: one call, and the
    invalid-API-key error. *)
Lemma invalid_key_runs :
  let o :=
    LlmTask.run (Scripted.host Scripted.keyRejected) Scripted.env Scripted.prompt
      Scripted.start in
  result o = Throw (LlmTask.invalidApiKey Scripted.keyMessage) /\
  geminiCalls (events o) = ["primary-key"].
Proof.
  assert (LlmTask.isApiKeyOrAuth (Js.toLowerCase Scripted.keyMessage) = true) as Hauth
    by (vm_compute; reflexivity).
  assert (LlmTask.isQuotaOrRate (Js.toLowerCase Scripted.keyMessage) = false) as Hquota
    by (vm_compute; reflexivity).
  assert (fst (host_generateContent (Scripted.host Scripted.keyRejected) "primary-key"
                 (LlmTask.model Scripted.prompt)
                 (LlmTask.promptSegments Scripted.prompt) (ext Scripted.start))
          = Throw Scripted.keyMessage) as Hprimary by reflexivity.
  exact (invalid_key_surfaced (Scripted.host Scripted.keyRejected) Scripted.env
           Scripted.prompt "primary-key" Scripted.keyMessage Scripted.start
           eq_refl eq_refl Hprimary Hauth Hquota).
Defined.

(** C4 at the failing input.  The primary key is not valid, and the call
    fails as the SDK words a failed request: the message names the URL of
    the [generateContent] endpoint and then says that the API key is not
    valid.  The message indicates an invalid credential (it contains
    ["api key"], and none of ["quota"], ["429"], ["resource_exhausted"]),
    but the [catch] block tests for quota and rate limits first, by bare
    substrings, and ["generatecontent"] contains ["rate"].  So the error is
    not surfaced as an invalid-API-key error: the execution fails over to
    the backup key and, when that key works, returns its answer; when the
    backup key is rejected in the same way, the execution throws the quota
    error. *)
Theorem invalid_key_taken_for_quota :
  let message := Scripted.keyFetchMessage in
  let o :=
    LlmTask.run (Scripted.host Scripted.keyFetchRejected) Scripted.env Scripted.prompt
      Scripted.start in
  let o' :=
    LlmTask.run (Scripted.host Scripted.keysFetchRejected) Scripted.env Scripted.prompt
      Scripted.start in
  (LlmTask.isApiKeyOrAuth (Js.toLowerCase message) = true /\
   Js.isAscii message = true /\
   Js.includes (Js.toLowerCase message) "quota" = false /\
   Js.includes (Js.toLowerCase message) "429" = false /\
   Js.includes (Js.toLowerCase message) "resource_exhausted" = false /\
   Js.includes "generatecontent" "rate" = true /\
   LlmTask.isQuotaOrRate (Js.toLowerCase message) = true) /\
  (geminiCalls (events o) = ["primary-key"; "backup-key"] /\
   result o = Ok {| LlmTask.output := "Hello." |}) /\
  (geminiCalls (events o') = ["primary-key"; "backup-key"] /\
   result o' = Throw (LlmTask.quotaExceeded message)) /\
  result o <> Throw (LlmTask.invalidApiKey message) /\
  result o' <> Throw (LlmTask.invalidApiKey message).
Proof.
  vm_compute. repeat split; try reflexivity; discriminate.
Qed.

(** The prompt of the example, submitted. *)
Lemma prompt_segments_runs :
  let o :=
    LlmTask.run (Scripted.host Scripted.allWell) Scripted.env Scripted.prompt
      Scripted.start in
  exists pre post,
    events o =
    (pre ++ GenerateContent "primary-key" gemini_2_5_flash
              (LlmTask.promptSegments Scripted.prompt) :: post)%list /\
    Forall (fun e => isLog e = true) pre.
Proof.
  exact (proj1 (prompt_segments_submitted (Scripted.host Scripted.allWell) Scripted.env
                  Scripted.prompt "primary-key" Scripted.start eq_refl eq_refl)).
Defined.

Example prompt_of_the_example :
  LlmTask.promptSegments Scripted.prompt =
  [TextPart ("System Instructions: Be brief." ++ LlmTask.newline ++ LlmTask.newline);
   TextPart "Describe the image.";
   InlineData "image/png" "iVBORw0KGgoAAAANSUhEUg";
   InlineData "image/jpeg" "/9j/4AAQSkZJRgABAQ"].
Proof. reflexivity. Qed.

(** No system prompt, or an empty one, and no attachment: the prompt is the
    user message alone. *)
Example prompt_without_system :
  LlmTask.promptSegments
    {| LlmTask.model := gemini_1_5_pro; LlmTask.systemPrompt := None;
       LlmTask.userMessage := "Hi"; LlmTask.images := None |}
  = [TextPart "Hi"] /\
  LlmTask.promptSegments
    {| LlmTask.model := gemini_1_5_pro; LlmTask.systemPrompt := Some "";
       LlmTask.userMessage := "Hi"; LlmTask.images := Some [] |}
  = [TextPart "Hi"].
Proof. split; reflexivity. Qed.

Example prompt_run_events :
  events (LlmTask.run (Scripted.host Scripted.allWell) Scripted.env Scripted.prompt
            Scripted.start) =
  [Log Info "Starting LLM task";
   Log Info "Adding images to prompt";
   Log Info "Calling Gemini API...";
   GenerateContent "primary-key" gemini_2_5_flash (LlmTask.promptSegments Scripted.prompt);
   Log Info "LLM task completed"].
Proof. vm_compute. reflexivity. Qed.

(** ** Workflow actions *)

Section Ownership.
Context {Json : Type}.
Implicit Types (db : gmap string (@WorkflowActions.Workflow Json)).

Lemma findFirst_None (id userId : string) db :
  (forall workflow, db !! id = Some workflow ->
                    WorkflowActions.userId workflow <> userId) ->
  WorkflowActions.findFirst id userId db = None.
Proof.
  intros Hnone. unfold WorkflowActions.findFirst.
  destruct (db !! id) as [workflow|] eqn:Hrow; [|reflexivity].
  destruct (String.eqb_spec (WorkflowActions.userId workflow) userId) as [Heq|Hne];
    [|reflexivity].
  exfalso. exact (Hnone workflow eq_refl Heq).
Qed.

Lemma findFirst_Some (id userId : string) db (workflow : WorkflowActions.Workflow) :
  WorkflowActions.findFirst id userId db = Some workflow ->
  db !! id = Some workflow /\ WorkflowActions.userId workflow = userId.
Proof.
  unfold WorkflowActions.findFirst.
  destruct (db !! id) as [row|]; [|discriminate].
  destruct (String.eqb_spec (WorkflowActions.userId row) userId) as [Heq|Hne];
    [|discriminate].
  intros [= <-]. split; [reflexivity | exact Heq].
Qed.

(** C10.  When no workflow with the given id belongs to the authenticated
    user, [updateWorkflow] and [deleteWorkflow] throw ["Workflow not found"]
    and leave the table as it was; and whenever either of them changes the
    table, the caller is authenticated and the row with the given id has the
    caller's id as its [userId]. *)
Theorem workflow_not_found_unchanged
        (user : WorkflowActions.AuthUser) (input : @WorkflowActions.UpdateInput Json) db :
  (forall workflow, db !! WorkflowActions.id input = Some workflow ->
                    WorkflowActions.userId workflow <> WorkflowActions.user_id user) ->
  (WorkflowActions.updateWorkflow (Ok user) input db
   = (Throw "Workflow not found", db) /\
   WorkflowActions.deleteWorkflow (Ok user) (WorkflowActions.id input) db
   = (Throw "Workflow not found", db)) /\
  (forall session input' db',
      (snd (WorkflowActions.updateWorkflow session input' db') <> db' \/
       snd (WorkflowActions.deleteWorkflow session (WorkflowActions.id input') db') <> db') ->
      exists caller workflow,
        session = Ok caller /\
        db' !! WorkflowActions.id input' = Some workflow /\
        WorkflowActions.userId workflow = WorkflowActions.user_id caller).
Proof.
  intros Hnone. split.
  - unfold WorkflowActions.updateWorkflow, WorkflowActions.deleteWorkflow.
    rewrite (findFirst_None _ _ _ Hnone). split; reflexivity.
  - intros session input' db' Hchanged.
    unfold WorkflowActions.updateWorkflow, WorkflowActions.deleteWorkflow in Hchanged.
    destruct session as [caller|e]; [|destruct Hchanged as [H|H]; contradiction].
    destruct (WorkflowActions.findFirst (WorkflowActions.id input')
                (WorkflowActions.user_id caller) db') as [workflow|] eqn:Hfound;
      [|destruct Hchanged as [H|H]; contradiction].
    apply findFirst_Some in Hfound. destruct Hfound as [Hrow Howner].
    exists caller, workflow. repeat split; assumption.
Qed.

End Ownership.

(** Ada renames and deletes Bob's workflow: not found, and the table is as it was. *)
Lemma workflow_not_found_runs :
  WorkflowActions.updateWorkflow (Ok Scripted.ada) (Scripted.rename "wf-2" "Mine")
    Scripted.table
  = (Throw "Workflow not found", Scripted.table) /\
  WorkflowActions.deleteWorkflow (Ok Scripted.ada) "wf-2" Scripted.table
  = (Throw "Workflow not found", Scripted.table).
Proof.
  refine (proj1 (workflow_not_found_unchanged Scripted.ada
                   (Scripted.rename "wf-2" "Mine") Scripted.table _)).
  intros workflow Hrow.
  assert (Scripted.table !! "wf-2" = Some (Scripted.flow "user-bob" "Teaser")) as Hbob
    by (vm_compute; reflexivity).
  cbn [WorkflowActions.id Scripted.rename] in Hrow.
  rewrite Hbob in Hrow. injection Hrow as <-. discriminate.
Defined.

Example ada_renames_her_workflow :
  fst (WorkflowActions.updateWorkflow (Ok Scripted.ada) (Scripted.rename "wf-1" "Banner")
         Scripted.table)
  = Ok (Scripted.flow "user-ada" "Banner").
Proof. vm_compute. reflexivity. Qed.

Example ada_deletes_her_workflow :
  snd (WorkflowActions.deleteWorkflow (Ok Scripted.ada) "wf-1" Scripted.table) !! "wf-1"
  = None.
Proof. vm_compute. reflexivity. Qed.

(** ** Frame extraction: timestamps and fallbacks *)

(** Whatever made the inner block of [run] throw, the outer [catch] logs that
    FFmpeg failed and extracts remotely at [fallbackOffset]: 60 seconds times
    the percentage, whatever the duration of the video. *)
Lemma outer_catch_offset {Ext} (host : Host Ext) (env : Env)
      (payload : ExtractFrame.ExtractFrameTaskPayload) (videoPath framePath : string)
      (w : World Ext) (e : string) :
  result (ExtractFrame.extractLocally host env payload videoPath framePath w) = Throw e ->
  let inner := ExtractFrame.extractLocally host env payload videoPath framePath w in
  ExtractFrame.extractWithFallback host env payload videoPath framePath w =
  prepend (events inner ++ [Log Warn "FFmpeg extract failed; using Transloadit video/thumbs"])
    (ExtractFrame.extractFrameViaTransloadit host env payload
       (ExtractFrame.fallbackOffset payload) (after inner)).
Proof.
  intros Hthrow inner. unfold ExtractFrame.extractWithFallback.
  rewrite (tryCatch_Throw _ _ w e Hthrow). rewrite bind_emit.
  unfold prepend. cbn [result events after]. rewrite <- app_assoc. reflexivity.
Qed.

(** With every tool at hand, a percentage is resolved against the probed
    duration: 50 percent of 120 seconds is a seek to second 60. *)
Example percent_resolved_locally :
  let o :=
    ExtractFrame.run (Scripted.host Scripted.allWell) Scripted.env Scripted.halfway
      Scripted.start in
  seekPositions (events o) = [ExtractFrame.resolvedTimestamp 120 50] /\
  (ExtractFrame.resolvedTimestamp 120 50 == 60)%Q /\
  requestedOffsets (events o) = [] /\
  result o = Ok {| ExtractFrame.frameImageUrl := "https://cdn.example.com/result.jpg" |}.
Proof. vm_compute. repeat split; reflexivity. Qed.

(** C1 at the failing input.  The video lasts 120 seconds and the payload
    asks for 50 percent; ffprobe reports the duration, then the FFmpeg binary
    turns out to be missing.  The remote extraction is requested at
    [fallbackOffset], which is second 30, not [120 * 50 / 100 = 60]. *)
Theorem percent_fallback_offset :
  let o :=
    ExtractFrame.run (Scripted.host Scripted.ffmpegMissing) Scripted.env Scripted.halfway
      Scripted.start in
  events o =
  [Log Info "Starting extract frame task (FFmpeg)";
   Mkdtemp "/tmp/extract-frame-Ab12Cd";
   Fetch "https://example.com/clip.mp4";
   WriteFile "/tmp/extract-frame-Ab12Cd/video";
   Import "ffprobe-static";
   Exec (FfprobeDuration "/opt/ffprobe" "/tmp/extract-frame-Ab12Cd/video");
   Log Info "Resolved timestamp from percentage";
   Import "ffmpeg-static";
   Log Warn "FFmpeg extract failed; using Transloadit video/thumbs";
   CreateAssembly
     (VideoThumbs "transloadit-key" "https://example.com/clip.mp4"
        (ExtractFrame.fallbackOffset Scripted.halfway));
   Sleep 1000;
   PollAssembly "https://api2.transloadit.com/assemblies/1";
   Log Info "Extract frame task completed";
   Rm "/tmp/extract-frame-Ab12Cd"] /\
  (ExtractFrame.fallbackOffset Scripted.halfway == 30)%Q /\
  (ExtractFrame.resolvedTimestamp 120 50 == 60)%Q /\
  ~ (ExtractFrame.fallbackOffset Scripted.halfway
     == ExtractFrame.resolvedTimestamp 120 50)%Q /\
  result o = Ok {| ExtractFrame.frameImageUrl := "https://cdn.example.com/result.jpg" |}.
Proof.
  vm_compute. repeat split; try reflexivity. discriminate.
Qed.

(** C5 at the failing input.  FFmpeg extracts the frame; the upload of the
    frame is refused, and so is the [/video/thumbs] assembly of the first
    fallback.  Both strategies have failed, yet the execution does not fail
    with the error of the remote one: the outer [catch], written for a
    missing FFmpeg, catches it, logs that FFmpeg failed, and starts the
    remote strategy a second time, whose result the execution returns. *)
Theorem remote_strategy_tried_twice :
  let o :=
    ExtractFrame.run (Scripted.host Scripted.uploadAndFirstThumbsRefused) Scripted.env
      Scripted.atFiveSeconds Scripted.start in
  events o =
  [Log Info "Starting extract frame task (FFmpeg)";
   Mkdtemp "/tmp/extract-frame-Ab12Cd";
   Fetch "https://example.com/clip.mp4";
   WriteFile "/tmp/extract-frame-Ab12Cd/video";
   Import "ffmpeg-static";
   Exec (FfmpegFrame "/opt/ffmpeg" 5 "/tmp/extract-frame-Ab12Cd/video"
           "/tmp/extract-frame-Ab12Cd/frame.jpg");
   ReadFile "/tmp/extract-frame-Ab12Cd/frame.jpg";
   CreateAssembly (FileImport "transloadit-key" "frame.jpg");
   Log Warn "Transloadit file upload failed; using Transloadit video/thumbs fallback";
   CreateAssembly (VideoThumbs "transloadit-key" "https://example.com/clip.mp4" 5);
   Log Warn "FFmpeg extract failed; using Transloadit video/thumbs";
   CreateAssembly (VideoThumbs "transloadit-key" "https://example.com/clip.mp4" 5);
   Sleep 1000;
   PollAssembly "https://api2.transloadit.com/assemblies/3";
   Log Info "Extract frame task completed";
   Rm "/tmp/extract-frame-Ab12Cd"] /\
  result o = Ok {| ExtractFrame.frameImageUrl := "https://cdn.example.com/result.jpg" |}.
Proof. vm_compute. split; reflexivity. Qed.

(** The same with a percentage: the second remote attempt is made at another
    position (second 30) than the first (second 60). *)
Example remote_retry_changes_offset :
  let o :=
    ExtractFrame.run (Scripted.host Scripted.uploadAndFirstThumbsRefused) Scripted.env
      Scripted.halfway Scripted.start in
  requestedOffsets (events o)
  = [ExtractFrame.resolvedTimestamp 120 50; ExtractFrame.fallbackOffset Scripted.halfway] /\
  result o = Ok {| ExtractFrame.frameImageUrl := "https://cdn.example.com/result.jpg" |}.
Proof. vm_compute. split; reflexivity. Qed.

(** The crop task has one [try]/[catch]: the local strategy, then the remote
    one, once. *)
Example crop_falls_back_once :
  let o :=
    CropImage.run (Scripted.host Scripted.uploadRefused) Scripted.env Scripted.squarePart
      Scripted.start in
  events o =
  [Log Info "Starting crop image task (FFmpeg)";
   Mkdtemp "/tmp/crop-Ab12Cd";
   Fetch "https://example.com/photo.jpg";
   WriteFile "/tmp/crop-Ab12Cd/input.jpg";
   ImageSize "/tmp/crop-Ab12Cd/input.jpg";
   Log Info "Crop dimensions";
   Import "ffmpeg-static";
   Exec (FfmpegCrop "/opt/ffmpeg" "/tmp/crop-Ab12Cd/input.jpg" 500 300 100 100
           "/tmp/crop-Ab12Cd/output.jpg");
   ReadFile "/tmp/crop-Ab12Cd/output.jpg";
   CreateAssembly (FileImport "transloadit-key" "output.jpg");
   Log Warn "Transloadit file/import failed, trying HTTP import fallback";
   Log Warn "FFmpeg crop or upload failed; using Transloadit crop-from-URL";
   CreateAssembly
     (ImageResizeCrop "transloadit-key" "https://example.com/photo.jpg" 10 20 (10 + 50)
        (20 + 60));
   Sleep 1000;
   PollAssembly "https://api2.transloadit.com/assemblies/2";
   Log Info "Crop image task completed";
   Rm "/tmp/crop-Ab12Cd"] /\
  result o = Ok {| CropImage.croppedImageUrl := "https://cdn.example.com/result.jpg" |}.
Proof. vm_compute. split; reflexivity. Qed.

Example crop_fails_with_the_remote_error :
  result (CropImage.run (Scripted.host Scripted.allRefused) Scripted.env Scripted.squarePart
            Scripted.start)
  = Throw "SERVER_TEMPORARILY_UNAVAILABLE".
Proof. vm_compute. reflexivity. Qed.

(** ** Crop geometry *)

Section Emits.
Context {Ext : Type} (P : Event -> Prop).

Lemma emitsOnly_ret {A} (a : A) : emitsOnly P (@Async.ret Ext A a).
Proof. intros w. constructor. Qed.

Lemma emitsOnly_throw {A} (e : string) : emitsOnly P (@Async.throw Ext A e).
Proof. intros w. constructor. Qed.

Lemma emitsOnly_emit (e : Event) : P e -> emitsOnly P (@Async.emit Ext e).
Proof. intros He w. repeat constructor. exact He. Qed.

Lemma emitsOnly_ask {A} (q : Ext -> Result A * Ext) : emitsOnly P (Async.ask q).
Proof. intros w. constructor. Qed.

Lemma emitsOnly_perform {A} (e : Event) (q : Ext -> Result A * Ext) :
  P e -> emitsOnly P (Async.perform e q).
Proof. intros He w. repeat constructor. exact He. Qed.

(** The events of [m] and then of [k], where [k] runs only on what [m]
    returns. *)
Lemma emitsOnly_bind_returned {A B} (R : A -> Prop) (m : Async Ext A)
      (k : A -> Async Ext B) :
  (forall w a, result (m w) = Ok a -> R a) ->
  emitsOnly P m -> (forall a, R a -> emitsOnly P (k a)) ->
  emitsOnly P (Async.bind m k).
Proof.
  intros HR Hm Hk w. unfold Async.bind.
  pose proof (Hm w) as Hevs. pose proof (HR w) as Hret.
  destruct (result (m w)) as [a|e]; cbn [events].
  - apply Forall_app. split; [exact Hevs | apply Hk, Hret; reflexivity].
  - exact Hevs.
Qed.

Lemma emitsOnly_bind {A B} (m : Async Ext A) (k : A -> Async Ext B) :
  emitsOnly P m -> (forall a, emitsOnly P (k a)) -> emitsOnly P (Async.bind m k).
Proof.
  intros Hm Hk. apply (emitsOnly_bind_returned (fun _ => True)); auto.
Qed.

Lemma emitsOnly_tryCatch {A} (body : Async Ext A) (handler : string -> Async Ext A) :
  emitsOnly P body -> (forall e, emitsOnly P (handler e)) ->
  emitsOnly P (Async.tryCatch body handler).
Proof.
  intros Hb Hh w. unfold Async.tryCatch.
  pose proof (Hb w) as Hevs.
  destruct (result (body w)) as [a|e]; cbn [events].
  - exact Hevs.
  - apply Forall_app. split; [exact Hevs | apply Hh].
Qed.

Lemma emitsOnly_tryFinally {A} (body : Async Ext A) (cleanup : Async Ext unit) :
  emitsOnly P body -> emitsOnly P cleanup -> emitsOnly P (Async.tryFinally body cleanup).
Proof.
  intros Hb Hc w. unfold Async.tryFinally. cbn [events].
  apply Forall_app. split; [apply Hb | apply Hc].
Qed.

Lemma emitsOnly_forRange {A} (n i : nat) (body : nat -> Async Ext (option A)) :
  (forall j, emitsOnly P (body j)) -> emitsOnly P (Async.forRange n i body).
Proof.
  intros Hbody. revert i.
  induction n as [|n IH]; intros i; simpl.
  - apply emitsOnly_ret.
  - apply emitsOnly_bind; [apply Hbody|].
    intros [a|]; [apply emitsOnly_ret | apply IH].
Qed.

Lemma emitsOnly_mkdtemp (host : Host Ext) (prefix : string) :
  (forall dir, P (Mkdtemp dir)) -> emitsOnly P (Async.mkdtemp host prefix).
Proof.
  intros Hdir w. unfold Async.mkdtemp.
  destruct (host_mkdtemp host prefix (ext w)) as [[dir|e] x].
  - destruct (bool_decide (dir ∈ tmpdirs w)); repeat constructor. apply Hdir.
  - constructor.
Qed.

Lemma emitsOnly_rm (dir : string) : P (Rm dir) -> emitsOnly P (@Async.rm Ext dir).
Proof. intros Hdir w. repeat constructor. exact Hdir. Qed.

End Emits.

(** Discharges [emitsOnly P] for code whose events satisfy [P] by what they
    are. *)
Ltac emits_step :=
  lazymatch goal with
  | |- emitsOnly _ (Async.ret _) => apply emitsOnly_ret
  | |- emitsOnly _ (Async.throw _) => apply emitsOnly_throw
  | |- emitsOnly _ (Async.emit _) => apply emitsOnly_emit; exact I
  | |- emitsOnly _ (Async.perform _ _) => apply emitsOnly_perform; exact I
  | |- emitsOnly _ (Async.ask _) => apply emitsOnly_ask
  | |- emitsOnly _ (Async.bind _ _) => apply emitsOnly_bind; [|intros ?]
  | |- emitsOnly _ (Async.tryCatch _ _) => apply emitsOnly_tryCatch; [|intros ?]
  | |- emitsOnly _ (Async.forRange _ _ _) => apply emitsOnly_forRange; intros ?
  | |- emitsOnly _ (let _ := _ in _) => cbv zeta
  | |- emitsOnly _ (match ?x with _ => _ end) => destruct x
  end.
Ltac emits := repeat emits_step.

Section CropCommand.
Context {Ext : Type} (host : Host Ext) (env : Env).
Variable payload : CropImage.CropImageTaskPayload.

(** What [getImageDimensions] returns is what [image-size] answered. *)
Lemma getImageDimensions_answered (filePath : string) (w : World Ext) (dims : Z * Z) :
  result (CropImage.getImageDimensions host filePath w) = Ok dims ->
  exists s, fst (host_imageSize host filePath s) = Ok (Some (fst dims), Some (snd dims)).
Proof.
  unfold CropImage.getImageDimensions.
  destruct (fst (host_imageSize host filePath (ext w))) as [size|e] eqn:Hsize.
  - rewrite (bind_perform_Ok _ _ _ _ size Hsize). unfold prepend. cbn [result].
    destruct size as [[width|] [height|]]; cbn [result Async.ret Async.throw];
      try discriminate.
    intros [= <-]. exists (ext w). exact Hsize.
  - rewrite (bind_perform_Throw _ _ _ _ e Hsize). discriminate.
Qed.

(** The one FFmpeg command of the [try] block of [run] crops the box
    computed from the dimensions that [image-size] answered. *)
Lemma crop_body_crops (inputPath outputPath : string) :
  emitsOnly (cropsTheBox host payload)
    (CropImage.body host env payload inputPath outputPath).
Proof.
  unfold CropImage.body.
  apply emitsOnly_bind; [emits | intros imageRes].
  destruct (negb (resp_ok imageRes)); [emits|].
  apply emitsOnly_bind; [emits | intros _].
  apply (emitsOnly_bind_returned _
           (fun dims =>
              exists s, fst (host_imageSize host inputPath s)
                        = Ok (Some (fst dims), Some (snd dims)))).
  - intros w dims. apply getImageDimensions_answered.
  - unfold CropImage.getImageDimensions. emits.
  - intros dims [s Hs]. cbv zeta.
    apply emitsOnly_bind; [emits | intros _].
    apply emitsOnly_bind; [|intros croppedUrl; emits].
    unfold CropImage.cropAndUpload. apply emitsOnly_tryCatch.
    + apply emitsOnly_bind; [unfold CropImage.getFfmpegPath; emits | intros ffmpegPath].
      apply emitsOnly_bind.
      * cbv zeta. apply emitsOnly_perform.
        exists (fst dims), (snd dims), s. split; [exact Hs|].
        destruct (CropImage.cropBox (fst dims) (snd dims) payload). reflexivity.
      * intros _. unfold CropImage.uploadCroppedImageToTransloaditV2. emits.
    + intros e. apply emitsOnly_bind; [emits | intros _].
      unfold CropImage.cropViaTransloadit. emits.
Qed.

Lemma crop_run_crops :
  emitsOnly (cropsTheBox host payload) (CropImage.run host env payload).
Proof.
  unfold CropImage.run.
  apply emitsOnly_bind; [emits | intros _].
  apply emitsOnly_bind; [apply emitsOnly_mkdtemp; intros dir; exact I | intros tmpDir].
  cbv zeta. apply emitsOnly_tryFinally; [apply crop_body_crops|].
  apply emitsOnly_rm. exact I.
Qed.

End CropCommand.

(** *** The scaling in binary64 *)

(** Scaling a percentage from 0 to 100 to a side of the image, in the
    numbers of the program, gives a number that is not negative and differs
    from the exact [side * percent / 100] by at most [side / 2^51]. *)
Lemma scaledPercent_close (W : Z) (p : Q) :
  (1 <= W)%Z -> (0 <= p)%Q -> (p <= 100)%Q ->
  (0 <= scaledPercent W p)%Q /\
  (Qabs (scaledPercent W p - inject_Z W * p / 100)
   <= inject_Z W * (1 # 2251799813685248))%Q.
Proof.
  intros HW Hp0 Hp1. unfold scaledPercent, Js.div, Js.mul, Js.number.
  assert (1 <= inject_Z W)%Q as Hw
    by (change 1%Q with (inject_Z 1); rewrite <- Zle_Qle; exact HW).
  set (w := inject_Z W) in *.
  pose proof tiny_bound as Ht. pose proof (pow2_pos (-1075)) as Ht0.
  set (t := Js.pow2 (-1075)) in *.
  destruct (binary64_close_nonneg p Hp0) as (Ha0 & Ha1 & Ha2). fold t in Ha1, Ha2.
  set (a := Js.binary64 p) in *.
  assert (0 <= w * a)%Q as HA0 by (apply Qmult_le_0_compat; lra).
  destruct (binary64_close_nonneg (w * a) HA0) as (Hm0 & Hm1 & Hm2). fold t in Hm1, Hm2.
  set (m := Js.binary64 (w * a)) in *.
  assert (0 <= m / 100)%Q as HM0 by (apply Qle_shift_div_l; lra).
  destruct (binary64_close_nonneg (m / 100) HM0) as (Hv0 & Hv1 & Hv2). fold t in Hv1, Hv2.
  set (v := Js.binary64 (m / 100)) in *.
  split; [exact Hv0|].
  assert (0 < w)%Q as Hwpos by lra.
  assert (w * a <= w * (p + (p * (1 # 9007199254740992) + t)))%Q as HA1
    by (apply Qmult_le_l; [exact Hwpos | lra]).
  assert (w * (p - (p * (1 # 9007199254740992) + t)) <= w * a)%Q as HA2
    by (apply Qmult_le_l; [exact Hwpos | lra]).
  assert (w * p <= w * 100)%Q as HP by (apply Qmult_le_l; [exact Hwpos | lra]).
  assert (0 <= w * p)%Q as HP0 by (apply Qmult_le_0_compat; lra).
  assert (w * t <= w * (1 # 1152921504606846976))%Q as HT
    by (apply Qmult_le_l; [exact Hwpos | lra]).
  assert (0 <= w * t)%Q as HT0 by (apply Qmult_le_0_compat; lra).
  assert (w * (p + (p * (1 # 9007199254740992) + t))
          == w * p + (w * p * (1 # 9007199254740992) + w * t))%Q as E1 by ring.
  assert (w * (p - (p * (1 # 9007199254740992) + t))
          == w * p - (w * p * (1 # 9007199254740992) + w * t))%Q as E2 by ring.
  rewrite E1 in HA1. rewrite E2 in HA2.
  set (A := (w * a)%Q) in *. set (P := (w * p)%Q) in *. set (T := (w * t)%Q) in *.
  apply Qabs_Qle_condition.
  assert (m / 100 == m * (1 # 100))%Q as Em by field.
  assert (P / 100 == P * (1 # 100))%Q as EP by field.
  rewrite Em in Hv1, Hv2. rewrite EP.
  clear E1 E2 Em EP. clearbody v m a A P T t w. split; lra.
Qed.

Lemma round_nearest (q : Q) :
  (q - (1 # 2) < inject_Z (Js.round q))%Q /\ (inject_Z (Js.round q) <= q + (1 # 2))%Q.
Proof.
  unfold Js.round. split; [|apply Qfloor_le].
  pose proof (Qlt_floor (q + (1 # 2))) as H.
  rewrite inject_Z_plus in H. change (inject_Z 1) with 1%Q in H. lra.
Qed.

Lemma round_nonneg (q : Q) : (0 <= q)%Q -> (0 <= Js.round q)%Z.
Proof.
  intros Hq. unfold Js.round. change 0%Z with (Qfloor 0). apply Qfloor_resp_le. lra.
Qed.

(** The rounded scaling of a percentage from 0 to 100 is the exact
    [side * percent / 100] rounded to the nearest integer, up to the error
    of the arithmetic. *)
Lemma scaledPercent_rounded (W : Z) (p : Q) :
  (1 <= W)%Z -> (0 <= p)%Q -> (p <= 100)%Q ->
  roundedScaling W p (Js.round (scaledPercent W p)).
Proof.
  intros HW Hp0 Hp1. unfold roundedScaling.
  destruct (scaledPercent_close W p HW Hp0 Hp1) as [_ Hclose].
  destruct (round_nearest (scaledPercent W p)) as [Hlo Hhi].
  apply Qabs_Qle_condition in Hclose. destruct Hclose as [Hc1 Hc2].
  apply Qabs_Qle_condition.
  set (r := inject_Z (Js.round (scaledPercent W p))) in *.
  set (v := scaledPercent W p) in *.
  set (exact := (inject_Z W * p / 100)%Q) in *.
  set (w := inject_Z W) in *.
  clearbody r v exact w. split; lra.
Qed.

(** On a side of at most [2^49] pixels, the rounded scaling of a percentage
    from 0 to 100 is between 0 and the side, and two rounded lengths whose
    percentages add up to at most 100 exceed the side together by at most
    one. *)
Lemma rounded_within_side (W : Z) (p : Q) :
  (1 <= W <= 2 ^ 49)%Z -> (0 <= p)%Q -> (p <= 100)%Q ->
  (0 <= Js.round (scaledPercent W p) <= W)%Z.
Proof.
  intros [HW HW'] Hp0 Hp1.
  destruct (scaledPercent_close W p HW Hp0 Hp1) as [Hv0 Hclose].
  split; [apply round_nonneg; exact Hv0|].
  destruct (round_nearest (scaledPercent W p)) as [_ Hhi].
  apply Qabs_Qle_condition in Hclose. destruct Hclose as [_ Hc].
  assert (inject_Z W <= inject_Z (2 ^ 49))%Q as Hw' by (rewrite <- Zle_Qle; exact HW').
  change (inject_Z (2 ^ 49)) with (562949953421312 # 1)%Q in Hw'.
  assert (1 <= inject_Z W)%Q as Hw
    by (change 1%Q with (inject_Z 1); rewrite <- Zle_Qle; exact HW).
  assert (inject_Z W * p <= inject_Z W * 100)%Q as HP
    by (apply Qmult_le_l; lra).
  assert (inject_Z W * p / 100 == inject_Z W * p * (1 # 100))%Q as EP by field.
  rewrite EP in Hc.
  assert (inject_Z (Js.round (scaledPercent W p)) < inject_Z (W + 1))%Q as Hlt.
  { rewrite inject_Z_plus. change (inject_Z 1) with 1%Q.
    set (r := inject_Z (Js.round (scaledPercent W p))) in *.
    set (v := scaledPercent W p) in *.
    set (P := (inject_Z W * p)%Q) in *. set (w := inject_Z W) in *.
    clearbody r v P w. lra. }
  rewrite <- Zlt_Qlt in Hlt. lia.
Qed.

Lemma rounded_pair_fits (W : Z) (p q : Q) :
  (1 <= W <= 2 ^ 49)%Z -> (0 <= p)%Q -> (0 <= q)%Q -> (p + q <= 100)%Q ->
  (Js.round (scaledPercent W p) + Js.round (scaledPercent W q) <= W + 1)%Z.
Proof.
  intros [HW HW'] Hp Hq Hsum.
  assert (p <= 100)%Q as Hp1 by lra. assert (q <= 100)%Q as Hq1 by lra.
  destruct (scaledPercent_close W p HW Hp Hp1) as [_ Hcp].
  destruct (scaledPercent_close W q HW Hq Hq1) as [_ Hcq].
  destruct (round_nearest (scaledPercent W p)) as [_ Ha].
  destruct (round_nearest (scaledPercent W q)) as [_ Hb].
  apply Qabs_Qle_condition in Hcp. destruct Hcp as [_ Hcp].
  apply Qabs_Qle_condition in Hcq. destruct Hcq as [_ Hcq].
  assert (inject_Z W <= inject_Z (2 ^ 49))%Q as Hw' by (rewrite <- Zle_Qle; exact HW').
  change (inject_Z (2 ^ 49)) with (562949953421312 # 1)%Q in Hw'.
  assert (1 <= inject_Z W)%Q as Hw
    by (change 1%Q with (inject_Z 1); rewrite <- Zle_Qle; exact HW).
  assert (inject_Z W * (p + q) <= inject_Z W * 100)%Q as HP
    by (apply Qmult_le_l; lra).
  assert (inject_Z W * (p + q) == inject_Z W * p + inject_Z W * q)%Q as Esum by ring.
  rewrite Esum in HP.
  assert (inject_Z W * p / 100 == inject_Z W * p * (1 # 100))%Q as EP by field.
  assert (inject_Z W * q / 100 == inject_Z W * q * (1 # 100))%Q as EQ by field.
  rewrite EP in Hcp. rewrite EQ in Hcq.
  assert (inject_Z (Js.round (scaledPercent W p) + Js.round (scaledPercent W q))
          < inject_Z (W + 2))%Q as Hlt.
  { rewrite !inject_Z_plus. change (inject_Z 2) with 2%Q.
    set (a := inject_Z (Js.round (scaledPercent W p))) in *.
    set (b := inject_Z (Js.round (scaledPercent W q))) in *.
    set (va := scaledPercent W p) in *. set (vb := scaledPercent W q) in *.
    set (P := (inject_Z W * p)%Q) in *. set (Q' := (inject_Z W * q)%Q) in *.
    set (w := inject_Z W) in *.
    clearbody a b va vb P Q' w. lra. }
  rewrite <- Zlt_Qlt in Hlt. lia.
Qed.

(** [cropBox], with the scaling named. *)
Lemma cropBox_scaled (W H : Z) (payload : CropImage.CropImageTaskPayload) :
  let x := Js.round (scaledPercent W (CropImage.cropX payload)) in
  let y := Js.round (scaledPercent H (CropImage.cropY payload)) in
  let w := Js.round (scaledPercent W (CropImage.cropWidth payload)) in
  let h := Js.round (scaledPercent H (CropImage.cropHeight payload)) in
  CropImage.cropBox W H payload
  = {| CropImage.x1 := Z.max 0 (Z.min x (W - 1));
       CropImage.y1 := Z.max 0 (Z.min y (H - 1));
       CropImage.w1 := Z.max 1 (Z.min w (W - Z.max 0 (Z.min x (W - 1))));
       CropImage.h1 := Z.max 1 (Z.min h (H - Z.max 0 (Z.min y (H - 1)))) |}.
Proof. reflexivity. Qed.

(** *** The rectangle handed to FFmpeg *)



(** The rounding is that of the program.  The payload spells a percentage
    that the program holds as the binary64 number nearest to 0.35; scaled to
    1000 pixels this is 3.5 in binary64 and rounds to 4, though the exact
    product, rounded, is 3: the two differ by one pixel, within the error
    the theorem states. *)
Example rounding_of_the_program :
  let payload :=
    {| CropImage.imageUrl := "https://example.com/a.jpg";
       CropImage.cropX := 34999999999999998 # 100000000000000000; CropImage.cropY := 0;
       CropImage.cropWidth := 50; CropImage.cropHeight := 50 |} in
  CropImage.x1 (CropImage.cropBox 1000 500 payload) = 4%Z /\
  Js.number (CropImage.cropX payload) = Js.number (35 # 100) /\
  scaledPercent 1000 (CropImage.cropX payload) = (7 # 2)%Q /\
  Js.round (inject_Z 1000 * CropImage.cropX payload / 100) = 3%Z /\
  roundedScaling 1000 (CropImage.cropX payload) 4.
Proof.
  intros payload. split; [|split; [|split; [|split]]]; try (vm_compute; reflexivity).
  apply scaledPercent_rounded; [lia | |]; unfold Qle; simpl; lia.
Qed.

(** ** Crop geometry for every payload *)



(** X2.  When the percentages describe a rectangle inside the image (none
    negative, [cropX + cropWidth] and [cropY + cropHeight] at most 100) and
    no side of the image is longer than [2^49] pixels, the clamping changes
    little of the rectangle the program has rounded: it moves the left and
    the top edge by at most one pixel, takes at most one pixel from the
    width and from the height, and adds to them only to make them 1. *)
Theorem cropBox_clamp_costs_a_pixel (W H : Z) (payload : CropImage.CropImageTaskPayload) :
  (1 <= W <= 2 ^ 49)%Z -> (1 <= H <= 2 ^ 49)%Z ->
  (0 <= CropImage.cropX payload)%Q -> (0 <= CropImage.cropWidth payload)%Q ->
  (CropImage.cropX payload + CropImage.cropWidth payload <= 100)%Q ->
  (0 <= CropImage.cropY payload)%Q -> (0 <= CropImage.cropHeight payload)%Q ->
  (CropImage.cropY payload + CropImage.cropHeight payload <= 100)%Q ->
  let x := Js.round (scaledPercent W (CropImage.cropX payload)) in
  let y := Js.round (scaledPercent H (CropImage.cropY payload)) in
  let w := Js.round (scaledPercent W (CropImage.cropWidth payload)) in
  let h := Js.round (scaledPercent H (CropImage.cropHeight payload)) in
  let box := CropImage.cropBox W H payload in
  (x - 1 <= CropImage.x1 box <= x)%Z /\
  (y - 1 <= CropImage.y1 box <= y)%Z /\
  (w - 1 <= CropImage.w1 box <= Z.max 1 w)%Z /\
  (h - 1 <= CropImage.h1 box <= Z.max 1 h)%Z.
Proof.
  intros HW HH Hx Hw Hxw Hy Hh Hyh x y w h box.
  assert (0 <= x <= W)%Z as Hxr by (apply rounded_within_side; (assumption || lra)).
  assert (0 <= y <= H)%Z as Hyr by (apply rounded_within_side; (assumption || lra)).
  assert (0 <= w <= W)%Z as Hwr by (apply rounded_within_side; (assumption || lra)).
  assert (0 <= h <= H)%Z as Hhr by (apply rounded_within_side; (assumption || lra)).
  pose proof (rounded_pair_fits W _ _ HW Hx Hw Hxw) as Hxfit.
  pose proof (rounded_pair_fits H _ _ HH Hy Hh Hyh) as Hyfit.
  fold x w in Hxfit. fold y h in Hyfit.
  subst box. rewrite cropBox_scaled. cbv zeta.
  cbn [CropImage.x1 CropImage.y1 CropImage.w1 CropImage.h1].
  fold x y w h.
  destruct HW as [HW _]. destruct HH as [HH _].
  repeat split; lia.
Qed.

(** On an image two pixels wide, a quarter in from the left and three
    quarters wide: the rounded rectangle starts at pixel 1 and is 2 wide, and
    the clamp takes the one pixel that does not fit. *)
Lemma cropBox_clamp_takes_a_pixel :
  let payload :=
    {| CropImage.imageUrl := "https://example.com/a.jpg";
       CropImage.cropX := 25; CropImage.cropY := 0;
       CropImage.cropWidth := 75; CropImage.cropHeight := 100 |} in
  let box := CropImage.cropBox 2 2 payload in
  (Js.round (scaledPercent 2 75) - 1 <= CropImage.w1 box
   <= Z.max 1 (Js.round (scaledPercent 2 75)))%Z /\
  CropImage.w1 box = 1%Z /\ Js.round (scaledPercent 2 75) = 2%Z.
Proof.
  intros payload box.
  assert (0 <= CropImage.cropX payload)%Q as H1 by (unfold Qle; simpl; lia).
  assert (0 <= CropImage.cropWidth payload)%Q as H2 by (unfold Qle; simpl; lia).
  assert (CropImage.cropX payload + CropImage.cropWidth payload <= 100)%Q as H3
    by (unfold Qle; simpl; lia).
  assert (0 <= CropImage.cropY payload)%Q as H4 by (unfold Qle; simpl; lia).
  assert (0 <= CropImage.cropHeight payload)%Q as H5 by (unfold Qle; simpl; lia).
  assert (CropImage.cropY payload + CropImage.cropHeight payload <= 100)%Q as H6
    by (unfold Qle; simpl; lia).
  assert (1 <= 2 <= 2 ^ 49)%Z as H0 by lia.
  split; [|split; vm_compute; reflexivity].
  exact (proj1 (proj2 (proj2 (cropBox_clamp_costs_a_pixel 2 2 payload H0 H0 H1 H2 H3 H4 H5 H6)))).
Defined.

(** Beyond that length the error of the arithmetic is more than a pixel.  On
    an image [2^60] pixels wide, with percentages that add up to 100, the
    rounded rectangle overshoots the right edge by 64 pixels, and the clamp
    takes them all. *)
Example cropBox_clamp_on_a_long_side :
  let payload :=
    {| CropImage.imageUrl := "https://example.com/a.jpg";
       CropImage.cropX := 28502284 # 1048576; CropImage.cropY := 0;
       CropImage.cropWidth := 100 - (28502284 # 1048576); CropImage.cropHeight := 100 |} in
  let W := (2 ^ 60)%Z in
  let box := CropImage.cropBox W 1 payload in
  (CropImage.cropX payload + CropImage.cropWidth payload == 100)%Q /\
  Js.number (CropImage.cropX payload) = Qred (CropImage.cropX payload) /\
  Js.number (CropImage.cropWidth payload) = Qred (CropImage.cropWidth payload) /\
  Js.round (scaledPercent W (CropImage.cropX payload)) = 313385926761738432%Z /\
  Js.round (scaledPercent W (CropImage.cropWidth payload)) = 839535577845108608%Z /\
  CropImage.x1 box = 313385926761738432%Z /\
  CropImage.w1 box = 839535577845108544%Z.
Proof. vm_compute. repeat split; reflexivity. Qed.
(** ** Budgets of the media tasks *)

Section Budgets.
Context {Ext : Type} (cost : Event -> N).

Lemma spent_app (l1 l2 : list Event) :
  spent cost (l1 ++ l2) = (spent cost l1 + spent cost l2)%N.
Proof.
  induction l1 as [|e l1 IH]; simpl; [reflexivity|]. rewrite IH. lia.
Qed.

Lemma spendsAtMost_ret {A} (n : N) (a : A) : spendsAtMost cost n (@Async.ret Ext A a).
Proof. intros w. simpl. lia. Qed.

Lemma spendsAtMost_throw {A} (n : N) (e : string) :
  spendsAtMost cost n (@Async.throw Ext A e).
Proof. intros w. simpl. lia. Qed.

Lemma spendsAtMost_ask {A} (n : N) (q : Ext -> Result A * Ext) :
  spendsAtMost cost n (Async.ask q).
Proof. intros w. simpl. lia. Qed.

Lemma spendsAtMost_emit (n : N) (e : Event) :
  (cost e <= n)%N -> spendsAtMost cost n (@Async.emit Ext e).
Proof. intros He w. simpl. lia. Qed.

Lemma spendsAtMost_perform {A} (n : N) (e : Event) (q : Ext -> Result A * Ext) :
  (cost e <= n)%N -> spendsAtMost cost n (Async.perform e q).
Proof. intros He w. simpl. lia. Qed.

Lemma spendsAtMost_bind {A B} (n1 n2 n : N) (m : Async Ext A) (k : A -> Async Ext B) :
  (n1 + n2 <= n)%N ->
  spendsAtMost cost n1 m -> (forall a, spendsAtMost cost n2 (k a)) ->
  spendsAtMost cost n (Async.bind m k).
Proof.
  intros Hn Hm Hk w. unfold Async.bind.
  specialize (Hm w).
  destruct (result (m w)) as [a|e]; simpl.
  - rewrite spent_app. specialize (Hk a (after (m w))). lia.
  - lia.
Qed.

Lemma spendsAtMost_bind_assoc {A B C} (n : N) (m : Async Ext A) (k1 : A -> Async Ext B)
      (k2 : B -> Async Ext C) :
  spendsAtMost cost n (Async.bind m (fun a => Async.bind (k1 a) k2)) ->
  spendsAtMost cost n (Async.bind (Async.bind m k1) k2).
Proof.
  intros H w. specialize (H w). revert H. unfold Async.bind.
  destruct (result (m w)) as [a|e]; simpl; [|trivial].
  destruct (result (k1 a (after (m w)))) as [b|e]; simpl.
  - rewrite app_assoc. trivial.
  - trivial.
Qed.

Lemma spendsAtMost_tryCatch {A} (n1 n2 n : N) (body : Async Ext A)
      (handler : string -> Async Ext A) :
  (n1 + n2 <= n)%N ->
  spendsAtMost cost n1 body -> (forall e, spendsAtMost cost n2 (handler e)) ->
  spendsAtMost cost n (Async.tryCatch body handler).
Proof.
  intros Hn Hb Hh w. unfold Async.tryCatch.
  specialize (Hb w).
  destruct (result (body w)) as [a|e]; simpl.
  - lia.
  - rewrite spent_app. specialize (Hh e (after (body w))). lia.
Qed.

Lemma spendsAtMost_tryFinally {A} (n1 n2 n : N) (body : Async Ext A)
      (cleanup : Async Ext unit) :
  (n1 + n2 <= n)%N ->
  spendsAtMost cost n1 body -> spendsAtMost cost n2 cleanup ->
  spendsAtMost cost n (Async.tryFinally body cleanup).
Proof.
  intros Hn Hb Hc w. unfold Async.tryFinally. simpl.
  rewrite spent_app. specialize (Hb w). specialize (Hc (after (body w))). lia.
Qed.

(** A loop of [rounds] rounds, each spending at most [k]. *)
Lemma spendsAtMost_forRange {A} (k n : N) (rounds i : nat)
      (body : nat -> Async Ext (option A)) :
  (N.of_nat rounds * k <= n)%N ->
  (forall j, spendsAtMost cost k (body j)) ->
  spendsAtMost cost n (Async.forRange rounds i body).
Proof.
  intros Hn Hbody. revert i n Hn.
  induction rounds as [|rounds IH]; intros i n Hn; simpl.
  - apply spendsAtMost_ret.
  - apply (spendsAtMost_bind k (N.of_nat rounds * k) n); [lia | apply Hbody |].
    intros [a|]; [apply spendsAtMost_ret | apply IH; lia].
Qed.

Lemma spendsAtMost_mkdtemp (n : N) (host : Host Ext) (prefix : string) :
  (forall dir, cost (Mkdtemp dir) = 0%N) ->
  spendsAtMost cost n (Async.mkdtemp host prefix).
Proof.
  intros Hfree w. unfold Async.mkdtemp.
  destruct (host_mkdtemp host prefix (ext w)) as [[dir|e] x]; simpl; [|lia].
  destruct (bool_decide (dir ∈ tmpdirs w)); simpl; [lia|].
  rewrite Hfree. lia.
Qed.

Lemma spendsAtMost_rm (n : N) (dir : string) :
  (cost (Rm dir) <= n)%N -> spendsAtMost cost n (@Async.rm Ext dir).
Proof. intros He w. simpl. lia. Qed.

End Budgets.

(** Discharges [spendsAtMost cost n] for code built from the operations of
    [Async]: a loop round spends at most [k], a [catch] block at most [h]. *)
Ltac spends_side := vm_compute; discriminate.

Ltac spends_step k h :=
  lazymatch goal with
  | |- spendsAtMost _ _ (Async.ret _) => apply spendsAtMost_ret
  | |- spendsAtMost _ _ (Async.throw _) => apply spendsAtMost_throw
  | |- spendsAtMost _ _ (Async.ask _) => apply spendsAtMost_ask
  | |- spendsAtMost _ _ (Async.emit _) => apply spendsAtMost_emit; spends_side
  | |- spendsAtMost _ _ (Async.perform _ _) => apply spendsAtMost_perform; spends_side
  | |- spendsAtMost _ _ (Async.rm _) => apply spendsAtMost_rm; spends_side
  | |- spendsAtMost _ _ (Async.mkdtemp _ _) =>
      apply spendsAtMost_mkdtemp; intros ?; reflexivity
  | |- spendsAtMost _ _ (Async.forRange _ _ _) =>
      apply (spendsAtMost_forRange _ k); [spends_side | intros ?]
  | |- spendsAtMost _ _ (Async.bind (Async.bind _ _) _) => apply spendsAtMost_bind_assoc
  | |- spendsAtMost _ _ (Async.bind (let _ := _ in _) _) => cbv zeta
  | |- spendsAtMost _ _ (Async.bind (match ?x with _ => _ end) _) => destruct x
  | |- spendsAtMost ?c ?n (Async.bind (Async.emit ?e) _) =>
      let n1 := eval vm_compute in (c e) in
      let n2 := eval vm_compute in (n - n1)%N in
      apply (spendsAtMost_bind c n1 n2); [spends_side | | intros ?]
  | |- spendsAtMost ?c ?n (Async.bind (Async.perform ?e _) _) =>
      let n1 := eval vm_compute in (c e) in
      let n2 := eval vm_compute in (n - n1)%N in
      apply (spendsAtMost_bind c n1 n2); [spends_side | | intros ?]
  | |- spendsAtMost ?c ?n (Async.bind (Async.forRange ?r _ _) _) =>
      let n1 := eval vm_compute in (N.of_nat r * k)%N in
      let n2 := eval vm_compute in (n - n1)%N in
      apply (spendsAtMost_bind c n1 n2); [spends_side | | intros ?]
  | |- spendsAtMost ?c ?n (Async.bind (Async.tryCatch _ _) _) =>
      apply (spendsAtMost_bind c n 0%N); [spends_side | | intros ?]
  | |- spendsAtMost ?c ?n (Async.bind _ _) =>
      apply (spendsAtMost_bind c 0%N n); [spends_side | | intros ?]
  | |- spendsAtMost ?c ?n (Async.tryCatch _ _) =>
      let n1 := eval vm_compute in (n - h)%N in
      apply (spendsAtMost_tryCatch c n1 h); [spends_side | | intros ?]
  | |- spendsAtMost ?c ?n (Async.tryFinally _ _) =>
      apply (spendsAtMost_tryFinally c n 0%N); [spends_side | |]
  | |- spendsAtMost _ _ (let _ := _ in _) => cbv zeta
  | |- spendsAtMost _ _ (match ?x with _ => _ end) => destruct x
  end.
Ltac spends k h := repeat spends_step k h.

Ltac unfold_crop :=
  unfold CropImage.run, CropImage.body, CropImage.cropAndUpload,
    CropImage.getImageDimensions, CropImage.getFfmpegPath,
    CropImage.uploadCroppedImageToTransloaditV2, CropImage.cropViaTransloadit.

Ltac unfold_extract :=
  unfold ExtractFrame.run, ExtractFrame.body, ExtractFrame.extractWithFallback,
    ExtractFrame.extractLocally, ExtractFrame.getVideoDuration,
    ExtractFrame.getFfprobePath, ExtractFrame.getFfmpegPath,
    ExtractFrame.uploadFrameToTransloadit, ExtractFrame.extractFrameViaTransloadit.

(** X4.  Whatever the outside does, an execution of the crop task downloads
    at most once, runs at most one command, creates at most two assemblies,
    polls at most 120 times and sleeps at most 120 seconds in all, which is
    less than the [maxDuration] of the task. *)
Theorem crop_run_budget {Ext} (host : Host Ext) (env : Env)
        (payload : CropImage.CropImageTaskPayload) (w : World Ext) :
  let evs := events (CropImage.run host env payload w) in
  (spent downloads evs <= 1)%N /\
  (spent commands evs <= 1)%N /\
  (spent assemblies evs <= 2)%N /\
  (spent polls evs <= 120)%N /\
  (spent sleptMs evs <= 120000)%N /\
  (Z.of_N (spent sleptMs evs) < 1000 * CropImage.maxDuration)%Z.
Proof.
  intros evs. subst evs.
  assert (spendsAtMost downloads 1 (CropImage.run host env payload)) as Hd
    by (unfold_crop; spends 0%N 0%N).
  assert (spendsAtMost commands 1 (CropImage.run host env payload)) as Hc
    by (unfold_crop; spends 0%N 0%N).
  assert (spendsAtMost assemblies 2 (CropImage.run host env payload)) as Ha
    by (unfold_crop; spends 0%N 1%N).
  assert (spendsAtMost polls 120 (CropImage.run host env payload)) as Hp
    by (unfold_crop; spends 1%N 60%N).
  assert (spendsAtMost sleptMs 120000 (CropImage.run host env payload)) as Hs
    by (unfold_crop; spends 1000%N 60000%N).
  specialize (Hd w). specialize (Hc w). specialize (Ha w). specialize (Hp w).
  specialize (Hs w).
  unfold CropImage.maxDuration. repeat split; try assumption. lia.
Qed.

(** Against a backend that never finishes an assembly, the crop task spends
    all of it. *)
Example crop_run_budget_reached :
  let evs :=
    events (CropImage.run (Scripted.host Scripted.stalledBackend) Scripted.env
              Scripted.squarePart Scripted.start) in
  spent assemblies evs = 2%N /\ spent polls evs = 120%N /\ spent sleptMs evs = 120000%N.
Proof. vm_compute. repeat split. Qed.

(** X5.  Whatever the outside does, an execution of the frame-extraction
    task downloads at most once, runs at most two commands (ffprobe and
    FFmpeg), creates at most three assemblies, polls at most 270 times and
    sleeps at most 270 seconds in all, which is less than the [maxDuration]
    of the task. *)
Theorem extract_run_budget {Ext} (host : Host Ext) (env : Env)
        (payload : ExtractFrame.ExtractFrameTaskPayload) (w : World Ext) :
  let evs := events (ExtractFrame.run host env payload w) in
  (spent downloads evs <= 1)%N /\
  (spent commands evs <= 2)%N /\
  (spent assemblies evs <= 3)%N /\
  (spent polls evs <= 270)%N /\
  (spent sleptMs evs <= 270000)%N /\
  (Z.of_N (spent sleptMs evs) < 1000 * ExtractFrame.maxDuration)%Z.
Proof.
  intros evs. subst evs.
  assert (spendsAtMost downloads 1 (ExtractFrame.run host env payload)) as Hd
    by (unfold_extract; spends 0%N 0%N).
  assert (spendsAtMost commands 2 (ExtractFrame.run host env payload)) as Hc
    by (unfold_extract; spends 0%N 0%N).
  assert (spendsAtMost assemblies 3 (ExtractFrame.run host env payload)) as Ha
    by (unfold_extract; spends 0%N 1%N).
  assert (spendsAtMost polls 270 (ExtractFrame.run host env payload)) as Hp
    by (unfold_extract; spends 1%N 90%N).
  assert (spendsAtMost sleptMs 270000 (ExtractFrame.run host env payload)) as Hs
    by (unfold_extract; spends 1000%N 90000%N).
  specialize (Hd w). specialize (Hc w). specialize (Ha w). specialize (Hp w).
  specialize (Hs w).
  unfold ExtractFrame.maxDuration. repeat split; try assumption. lia.
Qed.

(** Against a backend that never finishes an assembly, the frame-extraction
    task spends all of it: the upload of the frame and both remote
    extractions time out. *)
Example extract_run_budget_reached :
  let evs :=
    events (ExtractFrame.run (Scripted.host Scripted.stalledBackend) Scripted.env
              Scripted.atFiveSeconds Scripted.start) in
  spent commands evs = 1%N /\ spent assemblies evs = 3%N /\
  spent polls evs = 270%N /\ spent sleptMs evs = 270000%N.
Proof. vm_compute. repeat split. Qed.

(** ** Failures of the media tasks *)

Section Failures.
Context {Ext : Type}.

Lemma neverReturns_throw {A} (e : string) : neverReturns (@Async.throw Ext A e).
Proof. intros w. exists e. reflexivity. Qed.

Lemma neverReturns_bind {A B} (m : Async Ext A) (k : A -> Async Ext B) :
  (forall a, neverReturns (k a)) -> neverReturns (Async.bind m k).
Proof.
  intros Hk w. unfold Async.bind.
  destruct (result (m w)) as [a|e]; simpl.
  - apply Hk.
  - exists e. reflexivity.
Qed.

Lemma neverReturns_tryCatch {A} (body : Async Ext A) (handler : string -> Async Ext A) :
  neverReturns body -> (forall e, neverReturns (handler e)) ->
  neverReturns (Async.tryCatch body handler).
Proof.
  intros Hb Hh w. unfold Async.tryCatch.
  destruct (Hb w) as [e He]. rewrite He. simpl. apply Hh.
Qed.

(** Both [run] functions: either the scratch directory could not be made,
    and the execution threw and did nothing else; or it was made, and the
    execution ends as the body does, followed by the removal. *)
Lemma run_outcome {A} (host : Host Ext) (start : Event) (prefix : string)
      (body : string -> Async Ext A) (w : World Ext) :
  let o :=
    (Async.emit start ;;
     tmpDir <- Async.mkdtemp host prefix ;;
     Async.tryFinally (body tmpDir) (Async.rm tmpDir)) w in
  (events o = [start] /\ exists e, result o = Throw e) \/
  (exists dir w',
      events o = (start :: Mkdtemp dir :: events (body dir w') ++ [Rm dir])%list /\
      result o = result (body dir w')).
Proof.
  intros o. subst o. rewrite bind_emit.
  unfold prepend, Async.bind, Async.mkdtemp.
  destruct (host_mkdtemp host prefix (ext w)) as [[dir|e] x].
  - destruct (bool_decide (dir ∈ tmpdirs w)); simpl.
    + left. split; [reflexivity | eauto].
    + right. eexists dir, _. split; reflexivity.
  - simpl. left. split; [reflexivity | eauto].
Qed.

End Failures.

Ltac never_returns_step :=
  lazymatch goal with
  | |- neverReturns (Async.throw _) => apply neverReturns_throw
  | |- neverReturns (Async.bind _ _) => apply neverReturns_bind; intros ?
  | |- neverReturns (Async.tryCatch _ _) => apply neverReturns_tryCatch; [|intros ?]
  | |- neverReturns (let _ := _ in _) => cbv zeta
  | |- neverReturns (match ?x with _ => _ end) => destruct x
  end.
Ltac never_returns := repeat never_returns_step.

Lemma spent_nothing (cost : Event -> N) (evs : list Event) :
  (spent cost evs <= 0)%N -> spent cost evs = 0%N.
Proof. lia. Qed.

Lemma not_made_scratch_dir (lvl : Level) (msg : string) : ~ madeScratchDir [Log lvl msg].
Proof. intros (dir & [H|[]]). discriminate H. Qed.

Section WithoutKey.
Context {Ext : Type} (host : Host Ext) (env : Env).
Hypothesis Hmissing : Js.truthyOpt (NEXT_PUBLIC_TRANSLOADIT_KEY env) = false.

Lemma frame_key_falsy : Js.truthy (ExtractFrame.TRANSLOADIT_AUTH_KEY env) = false.
Proof.
  unfold ExtractFrame.TRANSLOADIT_AUTH_KEY.
  destruct (NEXT_PUBLIC_TRANSLOADIT_KEY env) as [key|]; [|reflexivity].
  cbn [Js.truthyOpt] in Hmissing. cbn [Js.orDefault]. rewrite Hmissing. reflexivity.
Qed.

Lemma extractFrameViaTransloadit_without_key
      (payload : ExtractFrame.ExtractFrameTaskPayload) (offsetSeconds : Q) (w : World Ext) :
  ExtractFrame.extractFrameViaTransloadit host env payload offsetSeconds w
  = Build_Outcome (Throw transloaditKeyMissing) [] w.
Proof.
  unfold ExtractFrame.extractFrameViaTransloadit. rewrite frame_key_falsy. reflexivity.
Qed.

Lemma extractLocally_without_key
      (payload : ExtractFrame.ExtractFrameTaskPayload) (videoPath framePath : string) :
  neverReturns (ExtractFrame.extractLocally host env payload videoPath framePath).
Proof.
  unfold ExtractFrame.extractLocally, ExtractFrame.uploadFrameToTransloadit,
    ExtractFrame.extractFrameViaTransloadit.
  rewrite frame_key_falsy. cbn [negb].
  never_returns.
Qed.

Lemma frame_body_without_key
      (payload : ExtractFrame.ExtractFrameTaskPayload) (videoPath framePath : string)
      (w : World Ext) :
  result (ExtractFrame.body host env payload videoPath framePath w)
  = Throw transloaditKeyMissing.
Proof.
  unfold ExtractFrame.body.
  destruct (extractLocally_without_key payload videoPath framePath w) as [e He].
  erewrite bind_Throw; [reflexivity|].
  rewrite (outer_catch_offset host env payload videoPath framePath w e He).
  rewrite extractFrameViaTransloadit_without_key. reflexivity.
Qed.

Lemma frame_run_without_key_spends (payload : ExtractFrame.ExtractFrameTaskPayload) :
  spendsAtMost assemblies 0 (ExtractFrame.run host env payload) /\
  spendsAtMost polls 0 (ExtractFrame.run host env payload).
Proof.
  split; unfold_extract; rewrite frame_key_falsy; cbn [negb]; spends 0%N 0%N.
Qed.

End WithoutKey.

(** X6.  Without a Transloadit key, no execution of the frame-extraction
    task returns a frame, whatever the outside does: it creates no assembly
    and polls none, and once its scratch directory is made, the error it
    throws is that the key is not configured. *)
Theorem frame_task_needs_transloadit_key {Ext} (host : Host Ext) (env : Env)
        (payload : ExtractFrame.ExtractFrameTaskPayload) (w : World Ext) :
  Js.truthyOpt (NEXT_PUBLIC_TRANSLOADIT_KEY env) = false ->
  let o := ExtractFrame.run host env payload w in
  spent assemblies (events o) = 0%N /\
  spent polls (events o) = 0%N /\
  exists e,
    result o = Throw e /\
    (madeScratchDir (events o) -> e = transloaditKeyMissing).
Proof.
  intros Hmissing o.
  destruct (frame_run_without_key_spends host env Hmissing payload) as [Ha Hp].
  split; [apply spent_nothing, Ha|]. split; [apply spent_nothing, Hp|].
  subst o. unfold ExtractFrame.run.
  destruct (run_outcome host (Log Info "Starting extract frame task (FFmpeg)")
              (Js.pathJoin (os_tmpdir env) "extract-frame-")
              (fun tmpDir =>
                 ExtractFrame.body host env payload (Js.pathJoin tmpDir "video")
                   (Js.pathJoin tmpDir "frame.jpg")) w)
    as [[Hevs [e He]]|(dir & w' & Hevs & Hres)].
  - exists e. split; [exact He|]. rewrite Hevs. intros Hmade.
    contradiction (not_made_scratch_dir _ _ Hmade).
  - exists transloaditKeyMissing. split; [|reflexivity].
    rewrite Hres. apply frame_body_without_key. exact Hmissing.
Qed.

(** Everything else works, and the key is missing. *)
Lemma frame_task_needs_transloadit_key_runs :
  let o :=
    ExtractFrame.run (Scripted.host Scripted.allWell) Scripted.envWithoutTransloadit
      Scripted.atFiveSeconds Scripted.start in
  spent assemblies (events o) = 0%N /\
  spent polls (events o) = 0%N /\
  exists e,
    result o = Throw e /\
    (madeScratchDir (events o) -> e = transloaditKeyMissing).
Proof.
  apply (frame_task_needs_transloadit_key (Scripted.host Scripted.allWell)
           Scripted.envWithoutTransloadit Scripted.atFiveSeconds Scripted.start).
  reflexivity.
Defined.

(** ** Refused downloads *)

Section Refused.
Context {Ext : Type} (host : Host Ext) (env : Env).

Lemma crop_body_refused (payload : CropImage.CropImageTaskPayload)
      (inputPath outputPath : string) (w : World Ext) :
  refusesDownload host (CropImage.imageUrl payload) ->
  exists resp,
    fst (host_fetch host (CropImage.imageUrl payload) (ext w)) = Ok resp /\
    CropImage.body host env payload inputPath outputPath w
    = Build_Outcome (Throw ("Failed to fetch image: " ++ resp_status resp))
        [Fetch (CropImage.imageUrl payload)]
        (Build_World (tmpdirs w) (snd (host_fetch host (CropImage.imageUrl payload) (ext w)))).
Proof.
  intros Hrefused. destruct (Hrefused (ext w)) as (resp & Hfetch & Hok).
  exists resp. split; [exact Hfetch|].
  unfold CropImage.body.
  rewrite (bind_perform_Ok _ _ _ _ resp Hfetch). rewrite Hok. reflexivity.
Qed.

Lemma extractLocally_refused (payload : ExtractFrame.ExtractFrameTaskPayload)
      (videoPath framePath : string) (w : World Ext) :
  refusesDownload host (ExtractFrame.videoUrl payload) ->
  exists resp,
    fst (host_fetch host (ExtractFrame.videoUrl payload) (ext w)) = Ok resp /\
    ExtractFrame.extractLocally host env payload videoPath framePath w
    = Build_Outcome (Throw ("Failed to fetch video: " ++ resp_status resp))
        [Fetch (ExtractFrame.videoUrl payload)]
        (Build_World (tmpdirs w)
           (snd (host_fetch host (ExtractFrame.videoUrl payload) (ext w)))).
Proof.
  intros Hrefused. destruct (Hrefused (ext w)) as (resp & Hfetch & Hok).
  exists resp. split; [exact Hfetch|].
  unfold ExtractFrame.extractLocally.
  rewrite (bind_perform_Ok _ _ _ _ resp Hfetch). rewrite Hok. reflexivity.
Qed.

End Refused.

(** X7.  When the download of the image is refused, the crop task fails
    with the fetch error and the status of the answer, and tries nothing
    else: the events of the execution are its start, the making of the
    scratch directory, the one download and the removal of the directory; no
    command is run and no assembly created, not even the one that crops from
    the URL. *)
Theorem crop_download_refused {Ext} (host : Host Ext) (env : Env)
        (payload : CropImage.CropImageTaskPayload) (w : World Ext) :
  refusesDownload host (CropImage.imageUrl payload) ->
  let o := CropImage.run host env payload w in
  exists e,
    result o = Throw e /\
    (madeScratchDir (events o) ->
     downloadError host (CropImage.imageUrl payload) "Failed to fetch image: " e /\
     exists dir,
       events o =
       [Log Info "Starting crop image task (FFmpeg)"; Mkdtemp dir;
        Fetch (CropImage.imageUrl payload); Rm dir]).
Proof.
  intros Hrefused o. subst o. unfold CropImage.run.
  destruct (run_outcome host (Log Info "Starting crop image task (FFmpeg)")
              (Js.pathJoin (os_tmpdir env) "crop-")
              (fun tmpDir =>
                 CropImage.body host env payload (Js.pathJoin tmpDir "input.jpg")
                   (Js.pathJoin tmpDir "output.jpg")) w)
    as [[Hevs [e He]]|(dir & w' & Hevs & Hres)].
  - exists e. split; [exact He|]. rewrite Hevs. intros Hmade.
    contradiction (not_made_scratch_dir _ _ Hmade).
  - destruct (crop_body_refused host env payload (Js.pathJoin dir "input.jpg")
                (Js.pathJoin dir "output.jpg") w' Hrefused) as (resp & Hfetch & Hbody).
    rewrite Hbody in Hevs, Hres. cbn [result events] in Hevs, Hres.
    exists ("Failed to fetch image: " ++ resp_status resp).
    split; [exact Hres|]. intros _. split.
    + exists (ext w'), resp. split; [exact Hfetch | reflexivity].
    + exists dir. exact Hevs.
Qed.

Lemma gone_refuses (url : string) : refusesDownload (Scripted.host Scripted.gone) url.
Proof. intros x. eexists. split; reflexivity. Qed.

(** The image is gone. *)
Lemma crop_download_refused_runs :
  let o :=
    CropImage.run (Scripted.host Scripted.gone) Scripted.env Scripted.squarePart
      Scripted.start in
  exists e,
    result o = Throw e /\
    (madeScratchDir (events o) ->
     downloadError (Scripted.host Scripted.gone) (CropImage.imageUrl Scripted.squarePart)
       "Failed to fetch image: " e /\
     exists dir,
       events o =
       [Log Info "Starting crop image task (FFmpeg)"; Mkdtemp dir;
        Fetch (CropImage.imageUrl Scripted.squarePart); Rm dir]).
Proof.
  apply (crop_download_refused (Scripted.host Scripted.gone) Scripted.env
           Scripted.squarePart Scripted.start).
  apply gone_refuses.
Defined.

Lemma requestedOffsets_app (l1 l2 : list Event) :
  requestedOffsets (l1 ++ l2) = (requestedOffsets l1 ++ requestedOffsets l2)%list.
Proof. apply omap_app. Qed.

Lemma no_assembly_no_offset (evs : list Event) :
  spent assemblies evs = 0%N -> requestedOffsets evs = [].
Proof.
  induction evs as [|e evs IH]; [reflexivity|].
  cbn [spent fold_right]. fold (spent assemblies evs). intros H.
  assert (assemblies e = 0%N /\ spent assemblies evs = 0%N) as [He Hevs] by lia.
  destruct e; try discriminate He; exact (IH Hevs).
Qed.

(** With a key, the remote extraction creates one assembly, at the offset
    it is given. *)
Lemma extractFrameViaTransloadit_offsets {Ext} (host : Host Ext) (env : Env)
      (payload : ExtractFrame.ExtractFrameTaskPayload) (offsetSeconds : Q) (w : World Ext) :
  Js.truthyOpt (NEXT_PUBLIC_TRANSLOADIT_KEY env) = true ->
  requestedOffsets
    (events (ExtractFrame.extractFrameViaTransloadit host env payload offsetSeconds w))
  = [offsetSeconds].
Proof.
  intros Hkey.
  assert (Js.truthy (ExtractFrame.TRANSLOADIT_AUTH_KEY env) = true) as Htruthy.
  { unfold ExtractFrame.TRANSLOADIT_AUTH_KEY.
    destruct (NEXT_PUBLIC_TRANSLOADIT_KEY env) as [key|]; [|discriminate Hkey].
    cbn [Js.truthyOpt] in Hkey. cbn [Js.orDefault]. rewrite Hkey. exact Hkey. }
  unfold ExtractFrame.extractFrameViaTransloadit. rewrite Htruthy. cbn [negb]. cbv zeta.
  set (request := VideoThumbs _ _ _).
  destruct (fst (host_createAssembly host request (ext w))) as [data|e] eqn:Hcreate.
  - rewrite (bind_perform_Ok _ _ _ _ data Hcreate).
    unfold prepend. cbn [events]. rewrite requestedOffsets_app.
    rewrite (no_assembly_no_offset (events _)); [reflexivity|].
    apply spent_nothing.
    match goal with
    | |- (spent assemblies (events (?m ?w')) <= 0)%N =>
        assert (spendsAtMost assemblies 0 m) as Hrest by spends 0%N 0%N;
        apply Hrest
    end.
  - rewrite (bind_perform_Throw _ _ _ _ e Hcreate). reflexivity.
Qed.

(** X8.  When the download of the video is refused and a Transloadit key
    is configured, the frame-extraction task does not fail as the crop task
    does: it runs no command and creates exactly one assembly, the remote
    extraction at the offset of the outer [catch] block. *)
Theorem frame_download_refused {Ext} (host : Host Ext) (env : Env)
        (payload : ExtractFrame.ExtractFrameTaskPayload) (w : World Ext) :
  refusesDownload host (ExtractFrame.videoUrl payload) ->
  Js.truthyOpt (NEXT_PUBLIC_TRANSLOADIT_KEY env) = true ->
  let o := ExtractFrame.run host env payload w in
  madeScratchDir (events o) ->
  spent commands (events o) = 0%N /\
  requestedOffsets (events o) = [ExtractFrame.fallbackOffset payload].
Proof.
  intros Hrefused Hkey o. subst o. unfold ExtractFrame.run.
  destruct (run_outcome host (Log Info "Starting extract frame task (FFmpeg)")
              (Js.pathJoin (os_tmpdir env) "extract-frame-")
              (fun tmpDir =>
                 ExtractFrame.body host env payload (Js.pathJoin tmpDir "video")
                   (Js.pathJoin tmpDir "frame.jpg")) w)
    as [[Hevs [e He]]|(dir & w' & Hevs & Hres)].
  - rewrite Hevs. intros Hmade.
    contradiction (not_made_scratch_dir _ _ Hmade).
  - intros _. rewrite Hevs. clear Hevs Hres.
    set (videoPath := Js.pathJoin dir "video").
    set (framePath := Js.pathJoin dir "frame.jpg").
    destruct (extractLocally_refused host env payload videoPath framePath w' Hrefused)
      as (resp & Hfetch & Hinner).
    assert (exists evs,
               events (ExtractFrame.body host env payload videoPath framePath w')
               = (Fetch (ExtractFrame.videoUrl payload)
                    :: Log Warn "FFmpeg extract failed; using Transloadit video/thumbs"
                    :: evs)%list /\
               spent commands evs = 0%N /\
               requestedOffsets evs = [ExtractFrame.fallbackOffset payload])
      as (evs & Hbody & Hseek & Hoffsets).
    { unfold ExtractFrame.body.
      assert (result (ExtractFrame.extractLocally host env payload videoPath framePath w')
              = Throw ("Failed to fetch video: " ++ resp_status resp)) as Hthrow
        by (rewrite Hinner; reflexivity).
      pose proof (outer_catch_offset host env payload videoPath framePath w' _ Hthrow)
        as Houter. cbv zeta in Houter. rewrite Hinner in Houter.
      cbn [events after] in Houter.
      set (remote := ExtractFrame.extractFrameViaTransloadit host env payload
                       (ExtractFrame.fallbackOffset payload) _) in Houter.
      pose proof (extractFrameViaTransloadit_offsets host env payload
                    (ExtractFrame.fallbackOffset payload)
                    (Build_World (tmpdirs w')
                       (snd (host_fetch host (ExtractFrame.videoUrl payload) (ext w'))))
                    Hkey) as Hremote.
      fold remote in Hremote.
      assert (spent commands (events remote) = 0%N) as Hnoseek.
      { subst remote. unfold ExtractFrame.extractFrameViaTransloadit.
        apply spent_nothing.
        match goal with
        | |- (spent commands (events (?m ?w0)) <= 0)%N =>
            assert (spendsAtMost commands 0 m) as Hrest by spends 0%N 0%N;
            apply Hrest
        end. }
      unfold Async.bind. rewrite Houter. unfold prepend. cbn [result events after].
      destruct (result remote) as [frameUrl|e'].
      - destruct (Js.truthy frameUrl); cbn [negb];
          eexists; (split; [reflexivity|]);
          rewrite spent_app, requestedOffsets_app, Hnoseek, Hremote;
          split; reflexivity.
      - eexists. split; [reflexivity|]. rewrite Hnoseek, Hremote. split; reflexivity. }
    rewrite Hbody.
    match goal with
    | |- context [(?a :: ?b :: (?c :: ?d :: evs) ++ ?r)%list] =>
        change (a :: b :: (c :: d :: evs) ++ r)%list with ([a; b; c; d] ++ evs ++ r)%list
    end.
    rewrite !spent_app, !requestedOffsets_app, Hseek, Hoffsets.
    split; reflexivity.
Qed.

(** The video is gone: the frame is asked of Transloadit at second 5. *)
Lemma frame_download_refused_runs :
  let o :=
    ExtractFrame.run (Scripted.host Scripted.gone) Scripted.env Scripted.atFiveSeconds
      Scripted.start in
  madeScratchDir (events o) /\
  spent commands (events o) = 0%N /\
  requestedOffsets (events o) = [ExtractFrame.fallbackOffset Scripted.atFiveSeconds].
Proof.
  intros o.
  assert (madeScratchDir (events o)) as Hmade
    by (exists "/tmp/extract-frame-Ab12Cd"; vm_compute; right; left; reflexivity).
  split; [exact Hmade|].
  apply (frame_download_refused (Scripted.host Scripted.gone) Scripted.env
           Scripted.atFiveSeconds Scripted.start);
    [apply gone_refuses | reflexivity | exact Hmade].
Defined.

(** ** Where the results of the media tasks come from *)

Section Returns.
Context {Ext : Type}.

Lemma returnsOnly_ret {A} (R : list Event -> A -> Prop) (a : A) :
  R [] a -> returnsOnly R (@Async.ret Ext A a).
Proof. intros Ha w a' [= <-]. exact Ha. Qed.

Lemma returnsOnly_throw {A} (R : list Event -> A -> Prop) (e : string) :
  returnsOnly R (@Async.throw Ext A e).
Proof. intros w a H. discriminate H. Qed.

Lemma returnsOnly_perform {A} (e : Event) (q : Ext -> Result A * Ext) :
  returnsOnly (fun evs a => evs = [e] /\ exists x, fst (q x) = Ok a) (Async.perform e q).
Proof. intros w a H. split; [reflexivity|]. exists (ext w). exact H. Qed.

(** What [m] returned, and the events it returned it with, may be used by
    what follows. *)
Lemma returnsOnly_bind {A B} (Q : list Event -> A -> Prop) (R : list Event -> B -> Prop)
      (m : Async Ext A) (k : A -> Async Ext B) :
  returnsOnly Q m ->
  (forall a pre, Q pre a -> returnsOnly (fun evs b => R (pre ++ evs)%list b) (k a)) ->
  returnsOnly R (Async.bind m k).
Proof.
  intros Hm Hk w b. unfold Async.bind.
  destruct (result (m w)) as [a|e] eqn:Hres; simpl; [|discriminate].
  apply (Hk a (events (m w)) (Hm w a Hres)).
Qed.

(** What precedes does not matter to a property that is monotone. *)
Lemma returnsOnly_skip {A B} (R : list Event -> B -> Prop)
      (m : Async Ext A) (k : A -> Async Ext B) :
  monotone R -> (forall a, returnsOnly R (k a)) -> returnsOnly R (Async.bind m k).
Proof.
  intros Hmono Hk w b. unfold Async.bind.
  destruct (result (m w)) as [a|e] eqn:Hres; simpl; [|discriminate].
  intros Hb. apply (Hmono (events (k a (after (m w))))); [|exact (Hk a _ b Hb)].
  intros e He. apply in_or_app. right. exact He.
Qed.

Lemma returnsOnly_tryCatch {A} (R : list Event -> A -> Prop) (body : Async Ext A)
      (handler : string -> Async Ext A) :
  monotone R ->
  returnsOnly R body -> (forall e, returnsOnly R (handler e)) ->
  returnsOnly R (Async.tryCatch body handler).
Proof.
  intros Hmono Hb Hh w a. unfold Async.tryCatch.
  destruct (result (body w)) as [a'|e] eqn:Hres; simpl.
  - rewrite Hres. intros [= <-]. exact (Hb w a' Hres).
  - intros Ha. apply (Hmono (events (handler e (after (body w))))); [|exact (Hh e _ a Ha)].
    intros ev Hev. apply in_or_app. right. exact Hev.
Qed.

Lemma returnsOnly_tryFinally {A} (R : list Event -> A -> Prop) (body : Async Ext A)
      (cleanup : Async Ext unit) :
  monotone R -> returnsOnly R body -> returnsOnly R (Async.tryFinally body cleanup).
Proof.
  intros Hmono Hb w a. unfold Async.tryFinally. simpl.
  destruct (result (cleanup (after (body w)))); [|discriminate].
  intros Ha. apply (Hmono (events (body w))); [|exact (Hb w a Ha)].
  intros ev Hev. apply in_or_app. left. exact Hev.
Qed.

Lemma returnsOnly_forRange {A} (R : list Event -> option A -> Prop) (n i : nat)
      (body : nat -> Async Ext (option A)) :
  monotone R -> (forall evs, R evs None) ->
  (forall j, returnsOnly R (body j)) ->
  returnsOnly R (Async.forRange n i body).
Proof.
  intros Hmono Hnone Hbody. revert i.
  induction n as [|n IH]; intros i; simpl.
  - apply returnsOnly_ret. apply Hnone.
  - apply (returnsOnly_bind R); [apply Hbody|].
    intros [a|] pre Ha.
    + apply returnsOnly_ret. rewrite app_nil_r. exact Ha.
    + intros w r Hr. apply (Hmono (events (Async.forRange n (S i) body w))).
      * intros ev Hev. apply in_or_app. right. exact Hev.
      * exact (IH (S i) w r Hr).
Qed.

Lemma reportedResult_more (host : Host Ext) (evs evs' : list Event) (url : string) :
  (forall e, In e evs -> In e evs') ->
  reportedResult host evs url -> reportedResult host evs' url.
Proof.
  intros Hmore (assemblyUrl & x & pollData & Hin & Hrest).
  exists assemblyUrl, x, pollData. split; [apply Hmore; exact Hin | exact Hrest].
Qed.

End Returns.

(** Monotonicity of the properties built from [reportedResult]. *)
Ltac more_events :=
  let evs := fresh "evs" in
  let evs' := fresh "evs'" in
  let Hmore := fresh "Hmore" in
  let H := fresh "H" in
  intros evs evs' ? Hmore H;
  try (let url := fresh "url" in
       let Hurl := fresh "Hurl" in
       unfold reportedSoFar in *; intros url Hurl; specialize (H url Hurl));
  eapply reportedResult_more; [|exact H];
  let e := fresh "e" in
  let He := fresh "He" in
  intros e He; rewrite ?in_app_iff in *;
  repeat match goal with
         | Hor : _ \/ _ |- _ => destruct Hor
         end;
  auto 12.

(** Walks through code that hands on what a polling loop returned. *)
Ltac returns_step host :=
  lazymatch goal with
  | |- returnsOnly _ (Async.throw _) => apply returnsOnly_throw
  | |- returnsOnly _ (Async.forRange _ _ _) =>
      apply returnsOnly_forRange;
      [more_events | intros ? ? ?; discriminate | intros ?]
  | |- returnsOnly _ (Async.bind (Async.forRange _ _ _) _) =>
      apply (returnsOnly_bind (reportedSoFar host)); [|intros ? ? ?]
  | |- returnsOnly _ (Async.bind (Async.perform (PollAssembly _) _) _) =>
      eapply returnsOnly_bind; [apply returnsOnly_perform | intros ? ? [-> [? ?]]]
  | |- returnsOnly _ (Async.bind _ _) =>
      apply returnsOnly_skip; [more_events | intros ?]
  | |- returnsOnly _ (let _ := _ in _) => cbv zeta
  | |- returnsOnly _ (match ?x with _ => _ end) => destruct x eqn:?
  end.
Ltac returns_steps host := repeat returns_step host.

(** The leaves: a URL is returned with the answer of the poll at hand, or as
    the loop handed it back. *)
Ltac reported :=
  apply returnsOnly_ret;
  lazymatch goal with
  | |- reportedSoFar _ _ None => intros ? ?; discriminate
  | |- reportedSoFar _ _ (Some _) =>
      intros ? [= <-];
      repeat match goal with
             | H : (if ?c then _ else _) = Some _ |- _ => destruct c eqn:?; try discriminate H
             | H : match ?c with Some _ => _ | None => _ end = Some _ |- _ =>
                 destruct c eqn:?; try discriminate H
             | H : Some _ = Some _ |- _ => injection H as ->
             end;
      eexists _, _, _; split; [left; reflexivity | repeat split; eassumption]
  | H : reportedSoFar _ _ (Some ?url) |- reportedResult _ _ ?url =>
      eapply reportedResult_more; [|exact (H _ eq_refl)];
      intros ? ?; rewrite ?in_app_iff; auto 12
  end.

Section Reported.
Context {Ext : Type} (host : Host Ext) (env : Env).

Lemma uploadCroppedImageV2_reported (localPath : string) :
  returnsOnly (reportedResult host)
    (CropImage.uploadCroppedImageToTransloaditV2 host env localPath).
Proof.
  unfold CropImage.uploadCroppedImageToTransloaditV2.
  returns_steps host; reported.
Qed.

Lemma cropViaTransloadit_reported (payload : CropImage.CropImageTaskPayload) :
  returnsOnly (reportedResult host) (CropImage.cropViaTransloadit host env payload).
Proof.
  unfold CropImage.cropViaTransloadit.
  returns_steps host; reported.
Qed.

Lemma uploadFrame_reported (localPath : string) :
  returnsOnly (reportedResult host)
    (ExtractFrame.uploadFrameToTransloadit host env localPath).
Proof.
  unfold ExtractFrame.uploadFrameToTransloadit.
  returns_steps host; reported.
Qed.

Lemma extractFrameViaTransloadit_reported
      (payload : ExtractFrame.ExtractFrameTaskPayload) (offsetSeconds : Q) :
  returnsOnly (reportedResult host)
    (ExtractFrame.extractFrameViaTransloadit host env payload offsetSeconds).
Proof.
  unfold ExtractFrame.extractFrameViaTransloadit.
  returns_steps host; reported.
Qed.

(** The end of both bodies: the URL, if not empty, in the result. *)
Ltac hands_on Hreported :=
  match goal with
  | |- returnsOnly _ (if negb (Js.truthy ?url) then _ else _) =>
      destruct (negb (Js.truthy url)); [apply returnsOnly_throw|];
      apply returnsOnly_skip; [more_events | intros _];
      apply returnsOnly_ret;
      eapply reportedResult_more; [|exact Hreported];
      intros ? ?; rewrite ?in_app_iff; auto 12
  end.

Lemma crop_run_reported (payload : CropImage.CropImageTaskPayload) :
  returnsOnly (fun evs r => reportedResult host evs (CropImage.croppedImageUrl r))
    (CropImage.run host env payload).
Proof.
  unfold CropImage.run.
  apply returnsOnly_skip; [more_events | intros _].
  apply returnsOnly_skip; [more_events | intros tmpDir].
  cbv zeta. apply returnsOnly_tryFinally; [more_events|]. unfold CropImage.body.
  apply returnsOnly_skip; [more_events | intros imageRes].
  destruct (negb (resp_ok imageRes)); [apply returnsOnly_throw|].
  apply returnsOnly_skip; [more_events | intros _].
  apply returnsOnly_skip; [more_events | intros dims].
  cbv zeta.
  apply returnsOnly_skip; [more_events | intros _].
  apply (returnsOnly_bind (reportedResult host)).
  - unfold CropImage.cropAndUpload. apply returnsOnly_tryCatch; [more_events | |].
    + apply returnsOnly_skip; [more_events | intros ffmpegPath].
      apply returnsOnly_skip; [more_events | intros _].
      apply uploadCroppedImageV2_reported.
    + intros e.
      apply returnsOnly_skip; [more_events | intros _].
      apply cropViaTransloadit_reported.
  - intros croppedUrl pre Hreported. hands_on Hreported.
Qed.

Lemma extract_run_reported (payload : ExtractFrame.ExtractFrameTaskPayload) :
  returnsOnly (fun evs r => reportedResult host evs (ExtractFrame.frameImageUrl r))
    (ExtractFrame.run host env payload).
Proof.
  unfold ExtractFrame.run.
  apply returnsOnly_skip; [more_events | intros _].
  apply returnsOnly_skip; [more_events | intros tmpDir].
  cbv zeta. apply returnsOnly_tryFinally; [more_events|]. unfold ExtractFrame.body.
  apply (returnsOnly_bind (reportedResult host)).
  - unfold ExtractFrame.extractWithFallback. apply returnsOnly_tryCatch; [more_events | |].
    + unfold ExtractFrame.extractLocally.
      apply returnsOnly_skip; [more_events | intros videoRes].
      destruct (negb (resp_ok videoRes)); [apply returnsOnly_throw|].
      apply returnsOnly_skip; [more_events | intros _].
      apply returnsOnly_skip; [more_events | intros timestampSeconds].
      apply returnsOnly_skip; [more_events | intros ffmpegPath].
      apply returnsOnly_skip; [more_events | intros _].
      apply returnsOnly_tryCatch; [more_events | apply uploadFrame_reported |].
      intros e.
      apply returnsOnly_skip; [more_events | intros _].
      apply extractFrameViaTransloadit_reported.
    + intros e.
      apply returnsOnly_skip; [more_events | intros _].
      cbv zeta. apply extractFrameViaTransloadit_reported.
  - intros frameUrl pre Hreported. hands_on Hreported.
Qed.

End Reported.

(** X9.  Whenever an execution of the crop task returns, the URL it
    returns is not empty and was reported by Transloadit: the execution
    polled an assembly that the backend answers with [ASSEMBLY_COMPLETED]
    and this URL as the result.  The task never returns a URL of its own
    making, nor the URL of an assembly that has not completed. *)
Theorem crop_result_reported {Ext} (host : Host Ext) (env : Env)
        (payload : CropImage.CropImageTaskPayload) (w : World Ext)
        (r : CropImage.CropImageTaskResult) :
  result (CropImage.run host env payload w) = Ok r ->
  CropImage.croppedImageUrl r <> "" /\
  reportedResult host (events (CropImage.run host env payload w))
    (CropImage.croppedImageUrl r).
Proof.
  intros Hrun.
  pose proof (crop_run_reported host env payload w r Hrun) as Hreported.
  cbv beta in Hreported.
  split; [|exact Hreported].
  destruct Hreported as (assemblyUrl & x & pollData & _ & _ & _ & _ & Htruthy).
  intros Hempty. rewrite Hempty in Htruthy. discriminate Htruthy.
Qed.

Lemma crop_result_reported_runs :
  "https://cdn.example.com/result.jpg" <> "" /\
  reportedResult (Scripted.host Scripted.allWell)
    (events (CropImage.run (Scripted.host Scripted.allWell) Scripted.env
               Scripted.squarePart Scripted.start))
    "https://cdn.example.com/result.jpg".
Proof.
  assert (result (CropImage.run (Scripted.host Scripted.allWell) Scripted.env
                    Scripted.squarePart Scripted.start)
          = Ok {| CropImage.croppedImageUrl := "https://cdn.example.com/result.jpg" |})
    as Hrun by (vm_compute; reflexivity).
  exact (crop_result_reported (Scripted.host Scripted.allWell) Scripted.env
           Scripted.squarePart Scripted.start _ Hrun).
Defined.

(** X10.  Whenever an execution of the frame-extraction task returns, the
    URL it returns is not empty and was reported by Transloadit: the
    execution polled an assembly that the backend answers with
    [ASSEMBLY_COMPLETED] and this URL as the result. *)
Theorem frame_result_reported {Ext} (host : Host Ext) (env : Env)
        (payload : ExtractFrame.ExtractFrameTaskPayload) (w : World Ext)
        (r : ExtractFrame.ExtractFrameTaskResult) :
  result (ExtractFrame.run host env payload w) = Ok r ->
  ExtractFrame.frameImageUrl r <> "" /\
  reportedResult host (events (ExtractFrame.run host env payload w))
    (ExtractFrame.frameImageUrl r).
Proof.
  intros Hrun.
  pose proof (extract_run_reported host env payload w r Hrun) as Hreported.
  cbv beta in Hreported.
  split; [|exact Hreported].
  destruct Hreported as (assemblyUrl & x & pollData & _ & _ & _ & _ & Htruthy).
  intros Hempty. rewrite Hempty in Htruthy. discriminate Htruthy.
Qed.

Lemma frame_result_reported_runs :
  "https://cdn.example.com/result.jpg" <> "" /\
  reportedResult (Scripted.host Scripted.allWell)
    (events (ExtractFrame.run (Scripted.host Scripted.allWell) Scripted.env
               Scripted.halfway Scripted.start))
    "https://cdn.example.com/result.jpg".
Proof.
  assert (result (ExtractFrame.run (Scripted.host Scripted.allWell) Scripted.env
                    Scripted.halfway Scripted.start)
          = Ok {| ExtractFrame.frameImageUrl := "https://cdn.example.com/result.jpg" |})
    as Hrun by (vm_compute; reflexivity).
  exact (frame_result_reported (Scripted.host Scripted.allWell) Scripted.env
           Scripted.halfway Scripted.start _ Hrun).
Defined.

(** ** Calls and errors of the inference task *)

Section TaskCalls.
Context {Ext : Type} (host : Host Ext) (env : Env).
Variables (payload : LlmTask.LLMTaskPayload) (apiKey : string) (w : World Ext).

Local Abbreviation first_call :=
  (host_generateContent host apiKey (LlmTask.model payload)
     (LlmTask.promptSegments payload) (ext w)).

(** The ways [generate] ends, by the credentials it used. *)
Lemma generate_calls :
  let o := LlmTask.generate host env payload (LlmTask.promptSegments payload) apiKey w in
  (geminiCalls (events o) = [apiKey] /\
   (forall e, result o = Throw e ->
              exists message, fst first_call = Throw message /\ e = taskError message)) \/
  (exists backupKey message,
      usableBackup env apiKey backupKey /\
      geminiCalls (events o) = [apiKey; backupKey] /\
      fst first_call = Throw message /\
      LlmTask.isQuotaOrRate (Js.toLowerCase message) = true /\
      forall e, result o = Throw e -> e = taskError message).
Proof.
  intros o. subst o.
  set (parts := LlmTask.promptSegments payload).
  destruct (fst (host_generateContent host apiKey (LlmTask.model payload) parts (ext w)))
    as [text|message] eqn:Hprimary.
  - left. rewrite (generate_primary_ok host env payload parts apiKey w text Hprimary).
    split; [reflexivity | intros e He; discriminate He].
  - destruct (LlmTask.isQuotaOrRate (Js.toLowerCase message)) eqn:Hquota.
    + assert ((exists backupKey, usableBackup env apiKey backupKey) \/
              (forall backupKey, ~ usableBackup env apiKey backupKey)) as [[backupKey Hb]|Hnone].
      { unfold usableBackup.
        destruct (GOOGLE_GEMINI_API_KEY_BACKUP env) as [backupKey|];
          [|right; intros k (Hk & _); discriminate Hk].
        destruct (Js.truthy backupKey) eqn:Hbt;
          [|right; intros k (Hk & Hk' & _); congruence].
        destruct (String.eqb_spec backupKey apiKey) as [Heq|Hne];
          [right; intros k (Hk & _ & Hk'); congruence|].
        left. exists backupKey. repeat split; assumption. }
      * right. exists backupKey, message.
        rewrite (generate_quota_backup host env payload parts apiKey w message backupKey
                   Hprimary Hquota Hb).
        cbn [result events].
        set (secondary :=
               fst (host_generateContent host backupKey (LlmTask.model payload) parts
                      (snd (host_generateContent host apiKey (LlmTask.model payload)
                              parts (ext w))))).
        split; [exact Hb|]. split; [destruct secondary; reflexivity|].
        split; [reflexivity|]. split; [exact Hquota|].
        unfold taskError. rewrite Hquota.
        destruct secondary; intros e He; [discriminate He | congruence].
      * left.
        rewrite (generate_quota_no_backup host env payload parts apiKey w message
                   Hprimary Hquota Hnone).
        split; [reflexivity|]. intros e [= <-]. exists message.
        unfold taskError. rewrite Hquota. split; reflexivity.
    + left. destruct (LlmTask.isApiKeyOrAuth (Js.toLowerCase message)) eqn:Hauth.
      * rewrite (generate_invalid_key host env payload parts apiKey w message
                   Hprimary Hquota Hauth).
        split; [reflexivity|]. intros e [= <-]. exists message.
        unfold taskError. rewrite Hquota, Hauth. split; reflexivity.
      * rewrite (generate_other_error host env payload parts apiKey w message
                   Hprimary Hquota Hauth).
        split; [reflexivity|]. intros e [= <-]. exists message.
        unfold taskError. rewrite Hquota, Hauth. split; reflexivity.
Qed.

End TaskCalls.

(** X11.  An execution of the inference task calls the model at most twice:
    not at all when no key is configured (it throws the configuration
    error), and otherwise once with the primary key and, at most, once more
    with a backup key that is configured, not empty and not the primary. *)
Theorem task_calls_at_most_twice {Ext} (host : Host Ext) (env : Env)
        (payload : LlmTask.LLMTaskPayload) (w : World Ext) :
  let o := LlmTask.run host env payload w in
  (Js.truthyOpt (GOOGLE_GEMINI_API_KEY env) = false /\
   geminiCalls (events o) = [] /\ result o = Throw notConfiguredTask) \/
  (exists apiKey,
      GOOGLE_GEMINI_API_KEY env = Some apiKey /\ Js.truthy apiKey = true /\
      (geminiCalls (events o) = [apiKey] \/
       exists backupKey,
         usableBackup env apiKey backupKey /\
         geminiCalls (events o) = [apiKey; backupKey])).
Proof.
  intros o. subst o.
  destruct (GOOGLE_GEMINI_API_KEY env) as [apiKey|] eqn:Hkey.
  - destruct (Js.truthy apiKey) eqn:Htruthy.
    + right. exists apiKey. split; [reflexivity|]. split; [exact Htruthy|].
      destruct (run_generate host env payload apiKey w Hkey Htruthy)
        as (pre & Hpre & _ & Hevs & _).
      rewrite Hevs, geminiCalls_app, (geminiCalls_logs pre Hpre).
      destruct (generate_calls host env payload apiKey w)
        as [[Hcalls _]|(backupKey & message & Hb & Hcalls & _)].
      * left. exact Hcalls.
      * right. exists backupKey. split; [exact Hb | exact Hcalls].
    + left. unfold LlmTask.run. rewrite Hkey, Htruthy.
      split; [exact Htruthy|]. split; reflexivity.
  - left. unfold LlmTask.run. rewrite Hkey.
    split; [reflexivity|]. split; reflexivity.
Qed.

(** X12.  When an execution of the inference task with a key configured
    throws, the call with the primary key has failed, and the error thrown is
    made of the message of that failure alone: it is the quota error around
    it, the invalid-key error around it, or the message itself; and for a
    message of ASCII characters it is the quota error when the message is
    classified as quota or rate-limit exhaustion, the invalid-key error when
    it is classified as a credential failure, and the message itself
    otherwise.  The error of a failed backup call is never the one thrown. *)
Theorem task_error_from_primary {Ext} (host : Host Ext) (env : Env)
        (payload : LlmTask.LLMTaskPayload) (apiKey e : string) (w : World Ext) :
  GOOGLE_GEMINI_API_KEY env = Some apiKey ->
  Js.truthy apiKey = true ->
  result (LlmTask.run host env payload w) = Throw e ->
  exists message,
    fst (host_generateContent host apiKey (LlmTask.model payload)
           (LlmTask.promptSegments payload) (ext w)) = Throw message /\
    (e = LlmTask.quotaExceeded message \/ e = LlmTask.invalidApiKey message \/
     e = message) /\
    (Js.isAscii message = true -> e = taskError message).
Proof.
  intros Hkey Htruthy Hthrow.
  destruct (run_generate host env payload apiKey w Hkey Htruthy)
    as (pre & _ & Hres & _).
  rewrite Hres in Hthrow.
  assert (exists message,
             fst (host_generateContent host apiKey (LlmTask.model payload)
                    (LlmTask.promptSegments payload) (ext w)) = Throw message /\
             e = taskError message) as (message & Hprimary & He).
  { destruct (generate_calls host env payload apiKey w)
      as [[_ Herr]|(backupKey & message & _ & _ & Hprimary & _ & Herr)].
    - exact (Herr e Hthrow).
    - exists message. split; [exact Hprimary | exact (Herr e Hthrow)]. }
  exists message. split; [exact Hprimary|]. split; [|intros _; exact He].
  rewrite He. unfold taskError.
  destruct (LlmTask.isQuotaOrRate _); [left; reflexivity|].
  destruct (LlmTask.isApiKeyOrAuth _); [right; left; reflexivity | right; right; reflexivity].
Qed.

(** The network is down: the task throws the message of the failed call. *)
Lemma task_error_from_primary_runs :
  exists message,
    fst (host_generateContent (Scripted.host Scripted.networkDown) "primary-key"
           (LlmTask.model Scripted.prompt) (LlmTask.promptSegments Scripted.prompt)
           (ext Scripted.start)) = Throw message /\
    Js.isAscii message = true /\
    "fetch failed" = taskError message.
Proof.
  assert (GOOGLE_GEMINI_API_KEY Scripted.env = Some "primary-key") as Hkey by reflexivity.
  assert (Js.truthy "primary-key" = true) as Htruthy by reflexivity.
  assert (result (LlmTask.run (Scripted.host Scripted.networkDown) Scripted.env
                    Scripted.prompt Scripted.start) = Throw "fetch failed") as Hthrow
    by (vm_compute; reflexivity).
  destruct (task_error_from_primary (Scripted.host Scripted.networkDown) Scripted.env
              Scripted.prompt "primary-key" "fetch failed" Scripted.start Hkey Htruthy Hthrow)
    as (message & Hprimary & _ & Hascii).
  exists message. split; [exact Hprimary|].
  assert (message = "fetch failed") as Hm
    by (cbn in Hprimary; injection Hprimary as <-; reflexivity).
  assert (Js.isAscii message = true) as Hplain by (rewrite Hm; reflexivity).
  split; [exact Hplain | exact (Hascii Hplain)].
Defined.

(** ** The server action [runLlm] *)

Lemma action_parts (input : LlmTask.LLMTaskPayload) :
  match LlmTask.images input with
  | Some imgs =>
      if (0 <? length imgs)%nat then
        fold_left
          (fun parts imageBase64 =>
             Js.push parts
               (InlineData (LlmAction.detectImageMimeType imageBase64) imageBase64))
          imgs
          (Js.push
             match LlmTask.systemPrompt input with
             | Some sp =>
                 if Js.truthy sp
                 then Js.push []
                        (TextPart ("System Instructions: " ++ sp ++ LlmTask.newline
                                   ++ LlmTask.newline))
                 else []
             | None => []
             end (TextPart (LlmTask.userMessage input)))
      else
        Js.push
          match LlmTask.systemPrompt input with
          | Some sp =>
              if Js.truthy sp
              then Js.push []
                     (TextPart ("System Instructions: " ++ sp ++ LlmTask.newline
                                ++ LlmTask.newline))
              else []
          | None => []
          end (TextPart (LlmTask.userMessage input))
  | None =>
      Js.push
        match LlmTask.systemPrompt input with
        | Some sp =>
            if Js.truthy sp
            then Js.push []
                   (TextPart ("System Instructions: " ++ sp ++ LlmTask.newline
                              ++ LlmTask.newline))
            else []
        | None => []
        end (TextPart (LlmTask.userMessage input))
  end = LlmTask.promptSegments input.
Proof.
  unfold LlmTask.promptSegments.
  destruct (LlmTask.images input) as [imgs|].
  - destruct imgs as [|img imgs].
    + cbn [length Nat.ltb Nat.leb map]. rewrite app_nil_r.
      destruct (LlmTask.systemPrompt input) as [sp|]; [destruct (Js.truthy sp)|];
        reflexivity.
    + cbn [length Nat.ltb Nat.leb]. rewrite fold_left_push.
      unfold Js.push. rewrite <- app_assoc.
      destruct (LlmTask.systemPrompt input) as [sp|]; [destruct (Js.truthy sp)|];
        reflexivity.
  - cbn [map]. rewrite app_nil_r.
    destruct (LlmTask.systemPrompt input) as [sp|]; [destruct (Js.truthy sp)|];
      reflexivity.
Qed.

Section ActionRuns.
Context {Ext User : Type} (host : Host Ext) (env : Env).
Context (getAuthUser : Ext -> Result User * Ext).
Variables (input : LlmTask.LLMTaskPayload) (w : World Ext).

(** The outcome of [runLlm], case by case. *)
Lemma runLlm_outcome :
  let o := LlmAction.runLlm host env getAuthUser input w in
  let signedIn := Build_World (tmpdirs w) (snd (getAuthUser (ext w))) in
  match fst (getAuthUser (ext w)) with
  | Throw e => o = Build_Outcome (Throw e) [] signedIn
  | Ok _ =>
      if Js.truthyOpt (GOOGLE_GEMINI_API_KEY env) then
        let apiKey := Js.orDefault (GOOGLE_GEMINI_API_KEY env) "" in
        let call :=
          host_generateContent host apiKey (LlmTask.model input)
            (LlmTask.promptSegments input) (snd (getAuthUser (ext w))) in
        o = Build_Outcome
              match fst call with
              | Ok text => Ok {| LlmTask.output := text |}
              | Throw message => Throw (actionError message)
              end
              [GenerateContent apiKey (LlmTask.model input) (LlmTask.promptSegments input)]
              (Build_World (tmpdirs w) (snd call))
      else o = Build_Outcome (Throw notConfiguredAction) [] signedIn
  end.
Proof.
  intros o signedIn. subst o. unfold LlmAction.runLlm.
  destruct (fst (getAuthUser (ext w))) as [user|e] eqn:Hauth.
  2:{ erewrite bind_outcome_Throw; [reflexivity|].
      unfold Async.ask. rewrite Hauth. reflexivity. }
  erewrite bind_outcome_Ok; [|unfold Async.ask; rewrite Hauth; reflexivity].
  fold signedIn.
  destruct (GOOGLE_GEMINI_API_KEY env) as [apiKey|]; [|reflexivity].
  cbn [Js.truthyOpt Js.orDefault].
  destruct (Js.truthy apiKey) eqn:Htruthy; [|reflexivity].
  cbn [negb]. cbv zeta. rewrite action_parts.
  set (parts := LlmTask.promptSegments input).
  change (snd (getAuthUser (ext w))) with (ext signedIn).
  destruct (fst (host_generateContent host apiKey (LlmTask.model input) parts
                   (ext signedIn))) as [text|message] eqn:Hcall.
  - erewrite tryCatch_outcome_Ok.
    2:{ rewrite (bind_perform_Ok _ _ _ _ text Hcall). reflexivity. }
    reflexivity.
  - erewrite tryCatch_outcome_Throw.
    2:{ rewrite (bind_perform_Throw _ _ _ _ message Hcall). reflexivity. }
    unfold actionError.
    destruct (LlmAction.isQuotaOrRate message); [reflexivity|].
    destruct (LlmAction.isApiKeyOrAuth message); reflexivity.
Qed.

End ActionRuns.

(** X13.  The server action [runLlm] calls the model only for a caller who is
    signed in and with a key configured; then it calls it exactly once, with
    the primary key, the model of the input and the prompt the task would
    send for the same input; the backup key is never used.  When
    [getAuthUser] throws, that error is the one thrown and the model is not
    called; when no key is configured, the configuration error is thrown and
    the model is not called. *)
Theorem action_calls_at_most_once {Ext User} (host : Host Ext) (env : Env)
        (getAuthUser : Ext -> Result User * Ext)
        (input : LlmTask.LLMTaskPayload) (w : World Ext) :
  let o := LlmAction.runLlm host env getAuthUser input w in
  (exists e, fst (getAuthUser (ext w)) = Throw e /\ result o = Throw e /\ events o = []) \/
  (Js.truthyOpt (GOOGLE_GEMINI_API_KEY env) = false /\
   result o = Throw notConfiguredAction /\ events o = []) \/
  (exists user apiKey,
      fst (getAuthUser (ext w)) = Ok user /\
      GOOGLE_GEMINI_API_KEY env = Some apiKey /\ Js.truthy apiKey = true /\
      events o = [GenerateContent apiKey (LlmTask.model input)
                    (LlmTask.promptSegments input)]).
Proof.
  intros o. subst o.
  pose proof (runLlm_outcome host env getAuthUser input w) as H. cbv zeta in H.
  destruct (fst (getAuthUser (ext w))) as [user|e].
  - destruct (GOOGLE_GEMINI_API_KEY env) as [apiKey|] eqn:Hkey.
    + cbn [Js.truthyOpt Js.orDefault] in H.
      destruct (Js.truthy apiKey) eqn:Htruthy.
      * right. right. exists user, apiKey. rewrite H.
        split; [reflexivity|]. split; [reflexivity|]. split; [exact Htruthy|].
        reflexivity.
      * right. left. rewrite H. split; [exact Htruthy|]. split; reflexivity.
    + right. left. cbn [Js.truthyOpt] in H. rewrite H.
      split; [reflexivity|]. split; reflexivity.
  - left. exists e. rewrite H. split; [reflexivity|]. split; reflexivity.
Qed.

(** A caller who is not signed in: the model is not asked. *)
Example action_refuses_signed_out :
  let o :=
    LlmAction.runLlm (Scripted.host Scripted.allWell) Scripted.env Scripted.signedOut
      Scripted.prompt Scripted.start in
  result o = Throw "Authentication required" /\ events o = [].
Proof. vm_compute. split; reflexivity. Qed.

(** X14.  When [runLlm] throws for a caller who is signed in and with a key
    configured, the error is made of the message of its one failed call: the
    quota error when the message contains ["quota"] or ["rate"], else the
    invalid-key error when it contains ["API key"] or ["authentication"],
    else the message itself. *)
Theorem action_error_from_call {Ext User} (host : Host Ext) (env : Env)
        (getAuthUser : Ext -> Result User * Ext)
        (input : LlmTask.LLMTaskPayload) (w : World Ext) (user : User)
        (apiKey e : string) :
  fst (getAuthUser (ext w)) = Ok user ->
  GOOGLE_GEMINI_API_KEY env = Some apiKey ->
  Js.truthy apiKey = true ->
  result (LlmAction.runLlm host env getAuthUser input w) = Throw e ->
  exists message,
    fst (host_generateContent host apiKey (LlmTask.model input)
           (LlmTask.promptSegments input) (snd (getAuthUser (ext w)))) = Throw message /\
    e = actionError message.
Proof.
  intros Hauth Hkey Htruthy Hthrow.
  pose proof (runLlm_outcome host env getAuthUser input w) as H. cbv zeta in H.
  rewrite Hauth, Hkey in H. cbn [Js.truthyOpt Js.orDefault] in H.
  rewrite Htruthy in H. rewrite H in Hthrow. cbn [result] in Hthrow.
  destruct (fst (host_generateContent host apiKey (LlmTask.model input)
                   (LlmTask.promptSegments input) (snd (getAuthUser (ext w)))))
    as [text|message]; [discriminate Hthrow|].
  exists message. split; [reflexivity | congruence].
Qed.

(** The key is rejected: the action throws its invalid-key error. *)
Lemma action_error_from_call_runs :
  exists message,
    fst (host_generateContent (Scripted.host Scripted.keyRejected) "primary-key"
           (LlmTask.model Scripted.prompt) (LlmTask.promptSegments Scripted.prompt)
           (snd (Scripted.signedIn (ext Scripted.start)))) = Throw message /\
    LlmAction.invalidApiKey = actionError message.
Proof.
  assert (fst (Scripted.signedIn (ext Scripted.start)) = Ok "user-ada") as Hauth
    by reflexivity.
  assert (GOOGLE_GEMINI_API_KEY Scripted.env = Some "primary-key") as Hkey by reflexivity.
  assert (Js.truthy "primary-key" = true) as Htruthy by reflexivity.
  assert (result (LlmAction.runLlm (Scripted.host Scripted.keyRejected) Scripted.env
                    Scripted.signedIn Scripted.prompt Scripted.start)
          = Throw LlmAction.invalidApiKey) as Hthrow
    by (vm_compute; reflexivity).
  exact (action_error_from_call (Scripted.host Scripted.keyRejected) Scripted.env
           Scripted.signedIn Scripted.prompt Scripted.start "user-ada" "primary-key"
           LlmAction.invalidApiKey Hauth Hkey Htruthy Hthrow).
Defined.

(** ** The two classifications of a failure *)

Lemma prefix_toLowerCase (p s : string) :
  String.prefix p s = true ->
  String.prefix (Js.toLowerCase p) (Js.toLowerCase s) = true.
Proof.
  revert s. induction p as [|c p IH]; intros s.
  - destruct s; reflexivity.
  - destruct s as [|d s]; [discriminate|].
    cbn [String.prefix Js.toLowerCase].
    destruct (ascii_dec c d) as [<-|Hne]; [|discriminate].
    intros H. destruct (ascii_dec (Js.lowerAscii c) (Js.lowerAscii c)) as [_|Hno];
      [apply IH; exact H | contradiction].
Qed.

Lemma includes_toLowerCase (s p : string) :
  Js.includes s p = true ->
  Js.includes (Js.toLowerCase s) (Js.toLowerCase p) = true.
Proof.
  induction s as [|c s IH]; cbn [Js.includes Js.toLowerCase]; intros H.
  - apply orb_true_iff in H. destruct H as [H|H]; [|discriminate].
    apply prefix_toLowerCase in H. cbn [Js.toLowerCase] in H. rewrite H. reflexivity.
  - apply orb_true_iff in H. destruct H as [H|H].
    + apply prefix_toLowerCase in H. cbn [Js.toLowerCase] in H. rewrite H. reflexivity.
    + rewrite (IH H). apply orb_true_r.
Qed.

(** X15.  The task classifies at least what the action classifies: a
    message in which the action finds quota or rate-limit exhaustion, or a
    credential failure, is classified the same way by the task, which tests
    the message in lower case.  The converse fails: the task finds quota
    exhaustion in a message that spells it with a capital, the action does
    not. *)
Theorem task_classifies_what_action_does :
  (forall message,
      (LlmAction.isQuotaOrRate message = true ->
       LlmTask.isQuotaOrRate (Js.toLowerCase message) = true) /\
      (LlmAction.isApiKeyOrAuth message = true ->
       LlmTask.isApiKeyOrAuth (Js.toLowerCase message) = true)) /\
  (LlmTask.isQuotaOrRate (Js.toLowerCase "Quota exceeded") = true /\
   LlmAction.isQuotaOrRate "Quota exceeded" = false).
Proof.
  split; [|split; vm_compute; reflexivity].
  intros message. split; intros H.
  - unfold LlmAction.isQuotaOrRate in H. unfold LlmTask.isQuotaOrRate.
    apply orb_true_iff in H. destruct H as [H|H];
      apply includes_toLowerCase in H; cbn [Js.toLowerCase] in H.
    + change (String (Js.lowerAscii "q") _) with "quota" in H. rewrite H. reflexivity.
    + change (String (Js.lowerAscii "r") _) with "rate" in H. rewrite H.
      rewrite orb_true_r. reflexivity.
  - unfold LlmAction.isApiKeyOrAuth in H. unfold LlmTask.isApiKeyOrAuth.
    apply orb_true_iff in H. destruct H as [H|H];
      apply includes_toLowerCase in H; cbn [Js.toLowerCase] in H.
    + change (String (Js.lowerAscii "A") _) with "api key" in H. rewrite H. reflexivity.
    + change (String (Js.lowerAscii "a") _) with "authentication" in H. rewrite H.
      apply orb_true_r.
Qed.

(** ** Workflow actions: what a successful action leaves behind *)

Section Rows.
Context {Json : Type}.
Implicit Types (db : gmap string (@WorkflowActions.Workflow Json)).

Lemma findFirst_owned (id : string) (caller : WorkflowActions.AuthUser) db
      (workflow : WorkflowActions.Workflow) :
  db !! id = Some workflow ->
  WorkflowActions.userId workflow = WorkflowActions.user_id caller ->
  WorkflowActions.findFirst id (WorkflowActions.user_id caller) db = Some workflow.
Proof.
  intros Hrow Howner. unfold WorkflowActions.findFirst. rewrite Hrow, Howner.
  rewrite String.eqb_refl. reflexivity.
Qed.

(** X16.  [getWorkflowById] never writes, and it returns a row exactly when
    the row with that id is owned by the caller: a row of another user is
    never returned. *)
Theorem getWorkflowById_own_rows_only
        (session : Result WorkflowActions.AuthUser) (id : string) db :
  snd (WorkflowActions.getWorkflowById session id db) = db /\
  forall workflow,
    fst (WorkflowActions.getWorkflowById session id db) = Ok workflow <->
    exists caller,
      session = Ok caller /\ db !! id = Some workflow /\
      WorkflowActions.userId workflow = WorkflowActions.user_id caller.
Proof.
  unfold WorkflowActions.getWorkflowById.
  destruct session as [caller|e].
  - destruct (WorkflowActions.findFirst id (WorkflowActions.user_id caller) db)
      as [found|] eqn:Hfound.
    + apply findFirst_Some in Hfound. destruct Hfound as [Hrow Howner].
      split; [reflexivity|]. intros workflow. split.
      * intros [= <-]. exists caller. repeat split; assumption.
      * intros (caller' & [= <-] & Hrow' & _). cbn [fst]. congruence.
    + split; [reflexivity|]. intros workflow. split; [discriminate|].
      intros (caller' & [= <-] & Hrow & Howner).
      rewrite (findFirst_owned id caller db workflow Hrow Howner) in Hfound.
      discriminate Hfound.
  - split; [reflexivity|]. intros workflow. split; [discriminate|].
    intros (caller & Hs & _). discriminate Hs.
Qed.

(** X17.  When [updateWorkflow] returns a row, the caller owned the row
    with that id and still does; the row returned is the one stored; each
    column is the value of the input, or the old value where the input
    leaves it undefined; every other row is as it was; and
    [getWorkflowById] then returns the same row. *)
Theorem updateWorkflow_changes_one_row
        (session : Result WorkflowActions.AuthUser)
        (input : @WorkflowActions.UpdateInput Json) db
        (workflow : WorkflowActions.Workflow) db' :
  WorkflowActions.updateWorkflow session input db = (Ok workflow, db') ->
  exists caller existing,
    session = Ok caller /\
    db !! WorkflowActions.id input = Some existing /\
    WorkflowActions.userId existing = WorkflowActions.user_id caller /\
    WorkflowActions.userId workflow = WorkflowActions.user_id caller /\
    WorkflowActions.name workflow
    = default (WorkflowActions.name existing) (WorkflowActions.new_name input) /\
    WorkflowActions.folderId workflow
    = default (WorkflowActions.folderId existing) (WorkflowActions.new_folderId input) /\
    WorkflowActions.nodes workflow
    = default (WorkflowActions.nodes existing) (WorkflowActions.new_nodes input) /\
    WorkflowActions.edges workflow
    = default (WorkflowActions.edges existing) (WorkflowActions.new_edges input) /\
    WorkflowActions.thumbnail workflow
    = match WorkflowActions.new_thumbnail input with
      | Some thumbnail => Some thumbnail
      | None => WorkflowActions.thumbnail existing
      end /\
    db' !! WorkflowActions.id input = Some workflow /\
    (forall other, other <> WorkflowActions.id input -> db' !! other = db !! other) /\
    WorkflowActions.getWorkflowById session (WorkflowActions.id input) db'
    = (Ok workflow, db').
Proof.
  unfold WorkflowActions.updateWorkflow.
  destruct session as [caller|e]; [|discriminate].
  destruct (WorkflowActions.findFirst (WorkflowActions.id input)
              (WorkflowActions.user_id caller) db) as [existing|] eqn:Hfound;
    [|discriminate].
  apply findFirst_Some in Hfound. destruct Hfound as [Hrow Howner].
  unfold WorkflowActions.update. rewrite Hrow. intros [= <- <-].
  exists caller, existing.
  split; [reflexivity|]. split; [reflexivity|]. split; [exact Howner|].
  split; [exact Howner|].
  split; [destruct (WorkflowActions.new_name input); reflexivity|].
  split; [destruct (WorkflowActions.new_folderId input); reflexivity|].
  split; [destruct (WorkflowActions.new_nodes input); reflexivity|].
  split; [destruct (WorkflowActions.new_edges input); reflexivity|].
  split; [reflexivity|].
  split; [apply lookup_insert_eq|].
  split; [intros other Hother; apply lookup_insert_ne; congruence|].
  unfold WorkflowActions.getWorkflowById.
  erewrite findFirst_owned; [reflexivity | apply lookup_insert_eq | exact Howner].
Qed.

(** X18.  When [deleteWorkflow] succeeds, the caller owned the row with that
    id; afterwards the row is gone, every other row is as it was, and
    [getWorkflowById] answers ["Workflow not found"] to everyone. *)
Theorem deleteWorkflow_removes_one_row
        (session : Result WorkflowActions.AuthUser) (id : string) db
        (message : string) db' :
  WorkflowActions.deleteWorkflow session id db = (Ok message, db') ->
  exists caller existing,
    session = Ok caller /\
    db !! id = Some existing /\
    WorkflowActions.userId existing = WorkflowActions.user_id caller /\
    db' !! id = None /\
    (forall other, other <> id -> db' !! other = db !! other) /\
    (forall anyone,
        WorkflowActions.getWorkflowById (Ok anyone) id db'
        = (Throw "Workflow not found", db')).
Proof.
  unfold WorkflowActions.deleteWorkflow.
  destruct session as [caller|e]; [|discriminate].
  destruct (WorkflowActions.findFirst id (WorkflowActions.user_id caller) db)
    as [existing|] eqn:Hfound; [|discriminate].
  apply findFirst_Some in Hfound. destruct Hfound as [Hrow Howner].
  unfold WorkflowActions.delete. rewrite Hrow. intros [= <- <-].
  exists caller, existing.
  split; [reflexivity|]. split; [reflexivity|]. split; [exact Howner|].
  split; [apply lookup_delete_eq|].
  split; [intros other Hother; apply lookup_delete_ne; congruence|].
  intros anyone. unfold WorkflowActions.getWorkflowById, WorkflowActions.findFirst.
  rewrite lookup_delete_eq. reflexivity.
Qed.

(** X19.  [createWorkflow] either throws and leaves the table as it was, or
    adds one row under the id the database generated, which was free: the
    row is owned by the caller, has no thumbnail, and has the name, folder,
    nodes and edges of the input, or ["untitled"], no folder and no nodes or
    edges where the input leaves them undefined; every other row is as it
    was, and [getWorkflowById] then returns the new row to the caller. *)
Theorem createWorkflow_adds_one_row
        (session : Result WorkflowActions.AuthUser) (generatedId : string)
        (input : @WorkflowActions.CreateInput Json) db :
  match WorkflowActions.createWorkflow session generatedId input db with
  | (Throw _, db') => db' = db
  | (Ok (id, workflow), db') =>
      exists caller,
        session = Ok caller /\
        id = generatedId /\
        db !! id = None /\
        db' !! id = Some workflow /\
        (forall other, other <> id -> db' !! other = db !! other) /\
        WorkflowActions.userId workflow = WorkflowActions.user_id caller /\
        WorkflowActions.thumbnail workflow = None /\
        WorkflowActions.name workflow = default "untitled" (WorkflowActions.init_name input) /\
        WorkflowActions.folderId workflow
        = default None (WorkflowActions.init_folderId input) /\
        WorkflowActions.nodes workflow = default [] (WorkflowActions.init_nodes input) /\
        WorkflowActions.edges workflow = default [] (WorkflowActions.init_edges input) /\
        WorkflowActions.getWorkflowById session id db' = (Ok workflow, db')
  end.
Proof.
  unfold WorkflowActions.createWorkflow.
  destruct session as [caller|e]; [|reflexivity].
  unfold WorkflowActions.create.
  destruct (db !! generatedId) as [taken|] eqn:Hfree; [reflexivity|].
  exists caller.
  split; [reflexivity|]. split; [reflexivity|]. split; [exact Hfree|].
  split; [apply lookup_insert_eq|].
  split; [intros other Hother; apply lookup_insert_ne; congruence|].
  split; [reflexivity|]. split; [reflexivity|].
  split; [destruct (WorkflowActions.init_name input); reflexivity|].
  split; [destruct (WorkflowActions.init_folderId input); reflexivity|].
  split; [destruct (WorkflowActions.init_nodes input); reflexivity|].
  split; [destruct (WorkflowActions.init_edges input); reflexivity|].
  unfold WorkflowActions.getWorkflowById.
  erewrite findFirst_owned; [reflexivity | apply lookup_insert_eq | reflexivity].
Qed.

End Rows.

(** Ada renames her workflow. *)
Lemma updateWorkflow_changes_one_row_runs :
  exists caller existing,
    Ok Scripted.ada = Ok caller /\
    Scripted.table !! "wf-1" = Some existing /\
    WorkflowActions.userId existing = WorkflowActions.user_id caller /\
    WorkflowActions.userId (Scripted.flow "user-ada" "Banner")
    = WorkflowActions.user_id caller.
Proof.
  assert (WorkflowActions.updateWorkflow (Ok Scripted.ada) (Scripted.rename "wf-1" "Banner")
            Scripted.table
          = (Ok (Scripted.flow "user-ada" "Banner"),
             <["wf-1" := Scripted.flow "user-ada" "Banner"]> Scripted.table)) as Hrun
    by (vm_compute; reflexivity).
  destruct (updateWorkflow_changes_one_row _ _ _ _ _ Hrun)
    as (caller & existing & H1 & H2 & H3 & H4 & _).
  exists caller, existing. repeat split; assumption.
Defined.

(** Ada deletes her workflow. *)
Lemma deleteWorkflow_removes_one_row_runs :
  exists caller existing,
    Ok Scripted.ada = Ok caller /\
    Scripted.table !! "wf-1" = Some existing /\
    WorkflowActions.userId existing = WorkflowActions.user_id caller /\
    base.delete "wf-1" Scripted.table !! "wf-1" = None.
Proof.
  assert (WorkflowActions.deleteWorkflow (Ok Scripted.ada) "wf-1" Scripted.table
          = (Ok "Workflow deleted successfully", base.delete "wf-1" Scripted.table)) as Hrun
    by (vm_compute; reflexivity).
  destruct (deleteWorkflow_removes_one_row _ _ _ _ _ Hrun)
    as (caller & existing & H1 & H2 & H3 & H4 & _).
  exists caller, existing. repeat split; assumption.
Defined.

(** ** Folder actions *)

Section Folders.
Context {Json : Type} (touch : Z -> Z).
Implicit Types (db : @FolderActions.Db Json).

Lemma folder_findFirst_Some (id userId : string) db (folder : FolderActions.Folder) :
  FolderActions.findFirst id userId db = Some folder ->
  FolderActions.folders db !! id = Some folder /\ FolderActions.userId folder = userId.
Proof.
  unfold FolderActions.findFirst.
  destruct (FolderActions.folders db !! id) as [row|]; [|discriminate].
  destruct (String.eqb_spec (FolderActions.userId row) userId) as [Heq|Hne];
    [|discriminate].
  intros [= <-]. split; [reflexivity | exact Heq].
Qed.

(** What the two [updateMany] calls do to a row. *)
Lemma unfileWorkflows_lookup (userId id key : string)
      (table : gmap string (@WorkflowActions.Workflow Json)) :
  FolderActions.unfileWorkflows userId id table !! key
  = (fun workflow =>
       if (WorkflowActions.userId workflow =? userId)%string
          && bool_decide (WorkflowActions.folderId workflow = Some id)
       then
         {| WorkflowActions.name := WorkflowActions.name workflow;
            WorkflowActions.thumbnail := WorkflowActions.thumbnail workflow;
            WorkflowActions.folderId := None;
            WorkflowActions.nodes := WorkflowActions.nodes workflow;
            WorkflowActions.edges := WorkflowActions.edges workflow;
            WorkflowActions.userId := WorkflowActions.userId workflow |}
       else workflow) <$> table !! key.
Proof. unfold FolderActions.unfileWorkflows. apply lookup_fmap. Qed.

Lemma orphanFolders_lookup (userId id key : string)
      (table : gmap string FolderActions.Folder) :
  FolderActions.orphanFolders touch userId id table !! key
  = (fun folder =>
       if (FolderActions.userId folder =? userId)%string
          && bool_decide (FolderActions.parentId folder = Some id)
       then
         {| FolderActions.name := FolderActions.name folder;
            FolderActions.parentId := None;
            FolderActions.userId := FolderActions.userId folder;
            FolderActions.createdAt := FolderActions.createdAt folder;
            FolderActions.updatedAt := touch (FolderActions.updatedAt folder) |}
       else folder) <$> table !! key.
Proof. unfold FolderActions.orphanFolders. apply lookup_fmap. Qed.

(** The outcome of [deleteFolder], case by case: it succeeds when the caller
    owns the folder and the database carries out all four calls; and when
    it throws, the database is as it was, or as the first write left it, or
    as the second write left it. *)
Lemma deleteFolder_outcome (session : Result WorkflowActions.AuthUser)
      (rejected : nat -> option string) (id : string) db :
  (exists caller existing,
      session = Ok caller /\
      FolderActions.folders db !! id = Some existing /\
      FolderActions.userId existing = WorkflowActions.user_id caller /\
      (forall n, (n < 4)%nat -> rejected n = None) /\
      FolderActions.deleteFolder touch session rejected id db
      = (Ok "Folder deleted successfully",
         {| FolderActions.folders := base.delete id (FolderActions.folders (orphaned touch caller id db));
            FolderActions.workflows := FolderActions.workflows (orphaned touch caller id db) |})) \/
  (exists e db',
      FolderActions.deleteFolder touch session rejected id db = (Throw e, db') /\
      (db' = db \/
       exists caller existing,
         session = Ok caller /\
         FolderActions.folders db !! id = Some existing /\
         FolderActions.userId existing = WorkflowActions.user_id caller /\
         ((rejected 2%nat = Some e /\ db' = unfiled caller id db) \/
          (rejected 3%nat = Some e /\ db' = orphaned touch caller id db)))).
Proof.
  unfold FolderActions.deleteFolder.
  destruct session as [caller|e]; [|right; eauto].
  unfold FolderActions.answered at 1.
  destruct (rejected 0%nat) as [e0|] eqn:H0; [right; eauto|].
  destruct (FolderActions.findFirst id (WorkflowActions.user_id caller) db)
    as [existing|] eqn:Hfound; [|right; eauto].
  apply folder_findFirst_Some in Hfound. destruct Hfound as [Hrow Howner].
  unfold FolderActions.answered at 1.
  destruct (rejected 1%nat) as [e1|] eqn:H1; [right; eauto|].
  cbv zeta. unfold FolderActions.answered at 1.
  destruct (rejected 2%nat) as [e2|] eqn:H2.
  { right. exists e2, (unfiled caller id db). split; [reflexivity|].
    right. exists caller, existing. repeat split; try assumption. left. split; reflexivity. }
  unfold FolderActions.answered.
  destruct (rejected 3%nat) as [e3|] eqn:H3.
  { right. exists e3, (orphaned touch caller id db). split; [reflexivity|].
    right. exists caller, existing. repeat split; try assumption. right. split; reflexivity. }
  left. exists caller, existing.
  split; [reflexivity|]. split; [exact Hrow|]. split; [exact Howner|].
  split.
  { intros n Hn. destruct n as [|[|[|[|n]]]]; try assumption. lia. }
  cbn [FolderActions.folders FolderActions.workflows].
  rewrite orphanFolders_lookup, Hrow. reflexivity.
Qed.

(** X20.  When [deleteFolder] succeeds, the caller owned the folder;
    afterwards the folder is gone and [getFolderById] answers ["Folder not
    found"] to everyone; no workflow and no folder of the caller refers to
    it any more; and nothing else was deleted: every workflow is still
    there, and so is every other folder. *)
Theorem deleteFolder_clears_references
        (session : Result WorkflowActions.AuthUser) (rejected : nat -> option string)
        (id : string) db (message : string) db' :
  FolderActions.deleteFolder touch session rejected id db = (Ok message, db') ->
  exists caller existing,
    session = Ok caller /\
    FolderActions.folders db !! id = Some existing /\
    FolderActions.userId existing = WorkflowActions.user_id caller /\
    FolderActions.folders db' !! id = None /\
    (forall anyone,
        FolderActions.getFolderById (Ok anyone) id db' = (Throw "Folder not found", db')) /\
    (forall key workflow,
        FolderActions.workflows db' !! key = Some workflow ->
        WorkflowActions.userId workflow = WorkflowActions.user_id caller ->
        WorkflowActions.folderId workflow <> Some id) /\
    (forall key folder,
        FolderActions.folders db' !! key = Some folder ->
        FolderActions.userId folder = WorkflowActions.user_id caller ->
        FolderActions.parentId folder <> Some id) /\
    (forall key, is_Some (FolderActions.workflows db' !! key)
                 <-> is_Some (FolderActions.workflows db !! key)) /\
    (forall key, is_Some (FolderActions.folders db' !! key)
                 <-> key <> id /\ is_Some (FolderActions.folders db !! key)).
Proof.
  intros Hrun.
  destruct (deleteFolder_outcome session rejected id db)
    as [(caller & existing & Hs & Hrow & Howner & _ & Hok)|(e & db'' & Hthrow & _)];
    [|rewrite Hthrow in Hrun; discriminate Hrun].
  rewrite Hok in Hrun. injection Hrun as <- <-.
  exists caller, existing. unfold orphaned.
  cbn [FolderActions.folders FolderActions.workflows].
  split; [exact Hs|]. split; [exact Hrow|]. split; [exact Howner|].
  split; [apply lookup_delete_eq|].
  split.
  { intros anyone. unfold FolderActions.getFolderById, FolderActions.findFirst.
    cbn [FolderActions.folders]. rewrite lookup_delete_eq. reflexivity. }
  split.
  { intros key workflow. rewrite unfileWorkflows_lookup.
    destruct (FolderActions.workflows db !! key) as [row|]; [|discriminate].
    cbn [fmap option_fmap option_map]. intros [= <-] Hmine.
    destruct (String.eqb_spec (WorkflowActions.userId row) (WorkflowActions.user_id caller))
      as [Heq|Hne].
    - destruct (bool_decide_reflect (WorkflowActions.folderId row = Some id)) as [Hin|Hout];
        cbn [andb]; [discriminate | exact Hout].
    - cbn [andb] in Hmine. contradiction. }
  split.
  { intros key folder Hlookup Hmine.
    destruct (decide (key = id)) as [->|Hkey];
      [rewrite lookup_delete_eq in Hlookup; discriminate Hlookup|].
    rewrite lookup_delete_ne in Hlookup by congruence.
    rewrite orphanFolders_lookup in Hlookup.
    destruct (FolderActions.folders db !! key) as [row|]; [|discriminate].
    cbn [fmap option_fmap option_map] in Hlookup. injection Hlookup as <-.
    destruct (String.eqb_spec (FolderActions.userId row) (WorkflowActions.user_id caller))
      as [Heq|Hne].
    - destruct (bool_decide_reflect (FolderActions.parentId row = Some id)) as [Hin|Hout];
        cbn [andb]; [discriminate | exact Hout].
    - cbn [andb] in Hmine. contradiction. }
  split.
  { intros key. rewrite unfileWorkflows_lookup. apply fmap_is_Some. }
  intros key. destruct (decide (key = id)) as [->|Hkey].
  - rewrite lookup_delete_eq. split; [intros [x Hx]; discriminate Hx | intros [H _]; contradiction].
  - rewrite lookup_delete_ne by congruence. rewrite orphanFolders_lookup, fmap_is_Some.
    split; [intros H; split; assumption | intros [_ H]; exact H].
Qed.

Lemma referencesOnly_refl (id : string) db : referencesOnly id db db.
Proof.
  split; [|split]; try (intros; assumption).
  intros key workflow Hlookup. exists workflow. repeat split. exact Hlookup.
Qed.

Lemma referencesOnly_workflows (caller : WorkflowActions.AuthUser) (id : string) db
      (table : gmap string FolderActions.Folder) :
  (forall key folder,
      FolderActions.folders db !! key = Some folder ->
      key <> id -> FolderActions.parentId folder <> Some id ->
      table !! key = Some folder) ->
  referencesOnly id db
    {| FolderActions.folders := table;
       FolderActions.workflows :=
         FolderActions.unfileWorkflows (WorkflowActions.user_id caller) id
           (FolderActions.workflows db) |}.
Proof.
  intros Htable. cbn [FolderActions.folders FolderActions.workflows].
  split; [|split]; cbn [FolderActions.folders FolderActions.workflows].
  - intros key workflow Hlookup Hout.
    rewrite unfileWorkflows_lookup, Hlookup. cbn [fmap option_fmap option_map].
    rewrite (bool_decide_eq_false_2 _ Hout), andb_false_r. reflexivity.
  - exact Htable.
  - intros key workflow Hlookup.
    rewrite unfileWorkflows_lookup, Hlookup. cbn [fmap option_fmap option_map].
    eexists. split; [reflexivity|].
    destruct (_ && _); repeat split.
Qed.

Lemma orphanFolders_keeps (userId id key : string) (table : gmap string FolderActions.Folder)
      (folder : FolderActions.Folder) :
  table !! key = Some folder ->
  FolderActions.parentId folder <> Some id ->
  FolderActions.orphanFolders touch userId id table !! key = Some folder.
Proof.
  intros Hlookup Hout.
  rewrite orphanFolders_lookup, Hlookup. cbn [fmap option_fmap option_map].
  rewrite (bool_decide_eq_false_2 _ Hout), andb_false_r. reflexivity.
Qed.

(** X21.  [deleteFolder] changes nothing but references to the folder,
    whether it returns or throws: every workflow that was not filed in the
    folder and every other folder that was not inside it is as it was, and a
    workflow that was filed in it keeps its name, thumbnail, nodes, edges and
    owner.  When it throws, no folder has been deleted, and the database is
    as it was, or, the three writes being made one after the other outside
    any transaction, as the writes before the rejected one have left it:
    with the workflows of the folder unfiled, or with these unfiled and the
    folders inside it moved to the top. *)
Theorem deleteFolder_touches_references_only
        (session : Result WorkflowActions.AuthUser) (rejected : nat -> option string)
        (id : string) db :
  referencesOnly id db (snd (FolderActions.deleteFolder touch session rejected id db)) /\
  forall e db',
    FolderActions.deleteFolder touch session rejected id db = (Throw e, db') ->
    (forall key, is_Some (FolderActions.folders db' !! key)
                 <-> is_Some (FolderActions.folders db !! key)) /\
    (db' = db \/
     exists caller existing,
       session = Ok caller /\
       FolderActions.folders db !! id = Some existing /\
       FolderActions.userId existing = WorkflowActions.user_id caller /\
       ((rejected 2%nat = Some e /\ db' = unfiled caller id db) \/
        (rejected 3%nat = Some e /\ db' = orphaned touch caller id db))).
Proof.
  destruct (deleteFolder_outcome session rejected id db)
    as [(caller & existing & Hs & Hrow & Howner & _ & Hok)|(e & db' & Hthrow & Hcases)].
  - rewrite Hok. cbn [snd]. split; [|intros e db' [=]].
    unfold orphaned. cbn [FolderActions.folders FolderActions.workflows].
    apply referencesOnly_workflows.
    intros key folder Hlookup Hkey Hout.
    rewrite lookup_delete_ne by congruence.
    apply orphanFolders_keeps; assumption.
  - rewrite Hthrow. cbn [snd].
    assert (referencesOnly id db db' /\
            forall key, is_Some (FolderActions.folders db' !! key)
                        <-> is_Some (FolderActions.folders db !! key)) as [Hrefs Hkeys].
    { destruct Hcases as [->|(caller & existing & _ & _ & _ & [[_ ->]|[_ ->]])].
      - split; [apply referencesOnly_refl | intros key; reflexivity].
      - split; [|intros key; reflexivity].
        unfold unfiled. apply referencesOnly_workflows.
        intros key folder Hlookup _ _. exact Hlookup.
      - split.
        + unfold orphaned. apply referencesOnly_workflows.
          intros key folder Hlookup _ Hout. apply orphanFolders_keeps; assumption.
        + intros key. unfold orphaned. cbn [FolderActions.folders].
          rewrite orphanFolders_lookup. apply fmap_is_Some. }
    split; [exact Hrefs|].
    intros e' db'' [= <- <-]. split; [exact Hkeys | exact Hcases].
Qed.

(** X22.  [createFolder] either throws and leaves the database as it was,
    or adds one folder under the id the database generated, which was free:
    the folder is owned by the caller, its view reports no file, the
    workflows and every other folder are as they were, and a parent that
    is given and not empty is a folder of the caller. *)
Theorem createFolder_under_own_parent
        (session : Result WorkflowActions.AuthUser) (generatedId : string) (now : Z)
        (input : FolderActions.CreateInput) db :
  match FolderActions.createFolder session generatedId now input db with
  | (Throw _, db') => db' = db
  | (Ok view, db') =>
      exists caller folder,
        session = Ok caller /\
        FolderActions.folders db !! generatedId = None /\
        FolderActions.folders db' !! generatedId = Some folder /\
        (forall other, other <> generatedId ->
                       FolderActions.folders db' !! other = FolderActions.folders db !! other) /\
        FolderActions.workflows db' = FolderActions.workflows db /\
        FolderActions.userId folder = WorkflowActions.user_id caller /\
        FolderActions.name folder = FolderActions.new_name input /\
        view = FolderActions.formatFolder generatedId folder (Some 0%nat) /\
        FolderActions.fileCount view = 0%nat /\
        forall parent,
          FolderActions.parentId folder = Some parent ->
          Js.truthy parent = true ->
          exists above,
            FolderActions.folders db !! parent = Some above /\
            FolderActions.userId above = WorkflowActions.user_id caller
  end.
Proof.
  unfold FolderActions.createFolder.
  destruct session as [caller|e]; [|reflexivity].
  cbv zeta.
  match goal with
  | |- context [if ?c then (Throw "Parent folder not found", db) else _] =>
      destruct c eqn:Hparent; [reflexivity|]
  end.
  destruct (FolderActions.folders db !! generatedId) as [taken|] eqn:Hfree; [reflexivity|].
  eexists caller, _.
  split; [reflexivity|]. split; [reflexivity|].
  cbn [FolderActions.folders FolderActions.workflows].
  split; [apply lookup_insert_eq|].
  split; [intros other Hother; apply lookup_insert_ne; congruence|].
  split; [reflexivity|]. split; [reflexivity|]. split; [reflexivity|].
  split; [reflexivity|]. split; [reflexivity|].
  cbn [FolderActions.parentId].
  intros parent Hgiven Htruthy.
  destruct (FolderActions.new_parentId input) as [[given|]|]; try discriminate Hgiven.
  injection Hgiven as ->. rewrite Htruthy in Hparent.
  destruct (FolderActions.findFirst parent (WorkflowActions.user_id caller) db)
    as [above|] eqn:Hfound; [|discriminate Hparent].
  apply folder_findFirst_Some in Hfound. exists above. exact Hfound.
Qed.

End Folders.

(** Ada deletes her folder [f-1]: her folder [f-2] and her workflow [wf-1]
    are kept and no longer refer to it. *)
Lemma deleteFolder_clears_references_runs :
  exists caller existing db',
    FolderActions.deleteFolder Scripted.stamp (Ok Scripted.ada) Scripted.carriedOut "f-1"
      Scripted.shelves
    = (Ok "Folder deleted successfully", db') /\
    Ok Scripted.ada = Ok caller /\
    FolderActions.folders Scripted.shelves !! "f-1" = Some existing /\
    FolderActions.folders db' !! "f-1" = None /\
    FolderActions.parentId <$> FolderActions.folders db' !! "f-2" = Some None /\
    WorkflowActions.folderId <$> FolderActions.workflows db' !! "wf-1" = Some None /\
    WorkflowActions.folderId <$> FolderActions.workflows db' !! "wf-2" = Some (Some "f-3").
Proof.
  destruct (FolderActions.deleteFolder Scripted.stamp (Ok Scripted.ada) Scripted.carriedOut
              "f-1" Scripted.shelves)
    as [[message|e] db'] eqn:Hrun; [|vm_compute in Hrun; discriminate Hrun].
  destruct (deleteFolder_clears_references Scripted.stamp _ _ _ _ _ _ Hrun)
    as (caller & existing & H1 & H2 & _ & H4 & _).
  exists caller, existing, db'.
  assert (message = "Folder deleted successfully") as ->
    by (vm_compute in Hrun; injection Hrun as <- _; reflexivity).
  split; [reflexivity|]. split; [exact H1|]. split; [exact H2|]. split; [exact H4|].
  vm_compute in Hrun. injection Hrun as <-. vm_compute. repeat split.
Defined.

(** The connection is lost before the last of the three writes: Ada's
    folder [f-1] is still there, and it has been emptied: her folder [f-2]
    and her workflow [wf-1] no longer refer to it. *)
Example deleteFolder_rejected_halfway :
  let outcome :=
    FolderActions.deleteFolder Scripted.stamp (Ok Scripted.ada) Scripted.deletionRejected
      "f-1" Scripted.shelves in
  fst outcome = Throw Scripted.connectionLost /\
  FolderActions.folders (snd outcome) !! "f-1"
  = FolderActions.folders Scripted.shelves !! "f-1" /\
  FolderActions.parentId <$> FolderActions.folders Scripted.shelves !! "f-2"
  = Some (Some "f-1") /\
  FolderActions.parentId <$> FolderActions.folders (snd outcome) !! "f-2" = Some None /\
  WorkflowActions.folderId <$> FolderActions.workflows Scripted.shelves !! "wf-1"
  = Some (Some "f-1") /\
  WorkflowActions.folderId <$> FolderActions.workflows (snd outcome) !! "wf-1" = Some None.
Proof. vm_compute. repeat split. Qed.

Section FolderUpdates.
Context {Json : Type} (touch : Z -> Z).
Implicit Types (db : @FolderActions.Db Json).

(** X23.  When [updateFolder] returns a view, the caller owned the folder
    with that id and still does; its name and parent are those of the
    input, or the old ones where the input leaves them undefined; its
    creation time is kept; the view returned shows the stored folder with
    the number of workflows filed in it; every other folder and every
    workflow is as it was. *)
Theorem updateFolder_changes_one_row
        (session : Result WorkflowActions.AuthUser) (input : FolderActions.UpdateInput) db
        (view : FolderActions.FolderView) db' :
  FolderActions.updateFolder touch session input db = (Ok view, db') ->
  exists caller existing folder,
    session = Ok caller /\
    FolderActions.folders db !! FolderActions.id input = Some existing /\
    FolderActions.userId existing = WorkflowActions.user_id caller /\
    FolderActions.folders db' !! FolderActions.id input = Some folder /\
    FolderActions.userId folder = WorkflowActions.user_id caller /\
    FolderActions.name folder
    = default (FolderActions.name existing) (FolderActions.upd_name input) /\
    FolderActions.parentId folder
    = default (FolderActions.parentId existing) (FolderActions.upd_parentId input) /\
    FolderActions.createdAt folder = FolderActions.createdAt existing /\
    view = FolderActions.formatFolder (FolderActions.id input) folder
             (Some (FolderActions.countWorkflows (FolderActions.id input) db)) /\
    (forall other, other <> FolderActions.id input ->
                   FolderActions.folders db' !! other = FolderActions.folders db !! other) /\
    FolderActions.workflows db' = FolderActions.workflows db.
Proof.
  unfold FolderActions.updateFolder.
  destruct session as [caller|e]; [|discriminate].
  destruct (FolderActions.findFirst (FolderActions.id input)
              (WorkflowActions.user_id caller) db) as [existing|] eqn:Hfound;
    [|discriminate].
  apply folder_findFirst_Some in Hfound. destruct Hfound as [Hrow Howner].
  rewrite Hrow. cbv zeta. intros [= <- <-].
  eexists caller, existing, _.
  split; [reflexivity|]. split; [reflexivity|]. split; [exact Howner|].
  cbn [FolderActions.folders FolderActions.workflows].
  split; [apply lookup_insert_eq|].
  cbn [FolderActions.userId FolderActions.name FolderActions.parentId
         FolderActions.createdAt].
  split; [exact Howner|].
  split; [destruct (FolderActions.upd_name input); reflexivity|].
  split; [destruct (FolderActions.upd_parentId input); reflexivity|].
  split; [reflexivity|]. split; [reflexivity|].
  split; [intros other Hother; apply lookup_insert_ne; congruence | reflexivity].
Qed.

End FolderUpdates.

(** Ada moves her folder [f-2] to the top and renames it. *)
Lemma updateFolder_changes_one_row_runs :
  exists view db' folder,
    FolderActions.updateFolder Scripted.stamp (Ok Scripted.ada) (Scripted.archive "f-2")
      Scripted.shelves = (Ok view, db') /\
    FolderActions.folders db' !! "f-2" = Some folder /\
    FolderActions.name folder = "Archive" /\
    FolderActions.parentId folder = None /\
    FolderActions.userId folder = "user-ada".
Proof.
  destruct (FolderActions.updateFolder Scripted.stamp (Ok Scripted.ada)
              (Scripted.archive "f-2") Scripted.shelves)
    as [[view|e] db'] eqn:Hrun; [|vm_compute in Hrun; discriminate Hrun].
  destruct (updateFolder_changes_one_row Scripted.stamp _ _ _ _ _ Hrun)
    as (caller & existing & folder & Hs & Hrow & _ & Hstored & Howner & Hname & Hparent & _).
  injection Hs as <-.
  assert (FolderActions.folders Scripted.shelves !! "f-2"
          = Some (Scripted.folder "user-ada" "Drafts" (Some "f-1"))) as Hold
    by (vm_compute; reflexivity).
  cbn [FolderActions.id Scripted.archive] in Hrow, Hstored, Hname, Hparent.
  rewrite Hold in Hrow. injection Hrow as <-.
  exists view, db', folder.
  split; [reflexivity|]. split; [exact Hstored|].
  split; [exact Hname|]. split; [exact Hparent | exact Howner].
Defined.

(** ** The server-side auth helper *)

Lemma find_primary (clerkUser : AuthServer.ClerkUser) (address : AuthServer.EmailAddress) :
  find (fun e => Js.strictEq (AuthServer.primaryEmailAddressId clerkUser)
                   (AuthServer.address_id e))
    (AuthServer.emailAddresses clerkUser) = Some address ->
  In address (AuthServer.emailAddresses clerkUser) /\
  AuthServer.primaryEmailAddressId clerkUser = Some (AuthServer.address_id address).
Proof.
  intros Hfind. apply find_some in Hfind. destruct Hfind as [Hin Heq].
  split; [exact Hin|].
  unfold Js.strictEq in Heq.
  destruct (AuthServer.primaryEmailAddressId clerkUser) as [primary|]; [|discriminate Heq].
  apply String.eqb_eq in Heq. congruence.
Qed.

(** What [find] returns is the first element that passes the test. *)
Lemma find_first {A} (f : A -> bool) (l : list A) (x : A) :
  find f l = Some x ->
  f x = true /\
  exists before after,
    l = (before ++ x :: after)%list /\ forall y, In y before -> f y = false.
Proof.
  induction l as [|a l IH]; cbn [find]; [discriminate|].
  destruct (f a) eqn:Ha.
  - intros [= <-]. split; [exact Ha|]. exists [], l. split; [reflexivity|]. intros y [].
  - intros Hfind. destruct (IH Hfind) as (Hx & before & after & -> & Hbefore).
    split; [exact Hx|]. exists (a :: before), after. split; [reflexivity|].
    intros y [<-|Hy]; [exact Ha | exact (Hbefore y Hy)].
Qed.

Lemma strictEq_false (o : option string) (s : string) :
  Js.strictEq o s = false -> o <> Some s.
Proof.
  unfold Js.strictEq. intros Hne ->. rewrite String.eqb_refl in Hne. discriminate Hne.
Qed.

(** The address [getAuthUser] picks: one of the addresses Clerk has, the
    first one that carries the primary id when there is one, and the first
    one otherwise. *)
Lemma chosenEmail_of_clerk (clerkUser : AuthServer.ClerkUser) (email : string) :
  AuthServer.chosenEmail clerkUser = Some email ->
  exists address,
    In address (AuthServer.emailAddresses clerkUser) /\
    AuthServer.emailAddress address = email /\
    primaryOrFirst clerkUser address /\
    ((exists other,
         In other (AuthServer.emailAddresses clerkUser) /\
         AuthServer.primaryEmailAddressId clerkUser = Some (AuthServer.address_id other)) ->
     AuthServer.primaryEmailAddressId clerkUser = Some (AuthServer.address_id address)).
Proof.
  unfold AuthServer.chosenEmail.
  destruct (find _ (AuthServer.emailAddresses clerkUser)) as [primaryEmail|] eqn:Hfind.
  - intros [= <-].
    pose proof (find_primary _ _ Hfind) as [Hin Hid].
    apply find_first in Hfind. destruct Hfind as (_ & before & after & Hlist & Hbefore).
    exists primaryEmail. split; [exact Hin|]. split; [reflexivity|].
    split; [|intros _; exact Hid].
    left. split; [exact Hid|]. exists before, after. split; [exact Hlist|].
    intros earlier Hearlier. apply strictEq_false. exact (Hbefore earlier Hearlier).
  - destruct (AuthServer.emailAddresses clerkUser) as [|first rest] eqn:Hlist;
      [discriminate|].
    intros [= <-]. exists first. split; [left; reflexivity|]. split; [reflexivity|].
    assert (forall other, In other (first :: rest) ->
                          AuthServer.primaryEmailAddressId clerkUser
                          <> Some (AuthServer.address_id other)) as Hnone.
    { intros other Hin. apply strictEq_false.
      exact (find_none _ _ Hfind other Hin). }
    rewrite <- Hlist in Hnone.
    split.
    + right. split; [exact Hnone|]. exists rest. exact Hlist.
    + intros (other & Hin & Hid). exfalso. rewrite <- Hlist in Hin.
      exact (Hnone other Hin Hid).
Qed.

(** The outcome of [getAuthUser], case by case. *)
Lemma getAuthUser_outcome (outside : AuthServer.Outside) (users : gmap string AuthServer.AuthUser) :
  (exists e, AuthServer.getAuthUser outside users = (Throw e, users) /\
             (AuthServer.auth outside = Throw e \/
              (e = "Authentication required" /\
               exists session, AuthServer.auth outside = Ok session /\
                               Js.truthyOpt session = false) \/
              (exists clerkUserId, AuthServer.auth outside = Ok (Some clerkUserId) /\
                                   Js.truthy clerkUserId = true /\
                                   AuthServer.findUnique outside = Throw e) \/
              (e = AuthServer.masked /\
               exists clerkUserId, AuthServer.auth outside = Ok (Some clerkUserId) /\
                                   Js.truthy clerkUserId = true /\
                                   AuthServer.findUnique outside = Ok tt /\
                                   users !! clerkUserId = None))) \/
  (exists clerkUserId user,
      AuthServer.auth outside = Ok (Some clerkUserId) /\
      Js.truthy clerkUserId = true /\
      AuthServer.findUnique outside = Ok tt /\
      ((users !! clerkUserId = Some user /\
        AuthServer.getAuthUser outside users = (Ok user, users)) \/
       (users !! clerkUserId = None /\
        AuthServer.getAuthUser outside users = (Ok user, <[clerkUserId := user]> users) /\
        exists clerkUser newId now,
          AuthServer.getUser outside clerkUserId = Ok clerkUser /\
          AuthServer.generated outside = Ok (newId, now) /\
          AuthServer.chosenEmail clerkUser = Some (AuthServer.email user) /\
          Js.truthy (AuthServer.email user) = true /\
          AuthServer.id user = newId /\
          AuthServer.clerkUserId user = clerkUserId /\
          AuthServer.avatar user = AuthServer.imageUrl clerkUser /\
          AuthServer.createdAt user = now /\ AuthServer.updatedAt user = now))).
Proof.
  unfold AuthServer.getAuthUser.
  destruct (AuthServer.auth outside) as [session|e] eqn:Hauth; [|left; eauto].
  destruct session as [clerkUserId|]; cbn [Js.truthyOpt Js.orDefault];
    [|left; eexists; split; [reflexivity|]; right; left; split; [reflexivity|]; eauto].
  destruct (Js.truthy clerkUserId) eqn:Htruthy; cbn [negb];
    [|left; eexists; split; [reflexivity|]; right; left; split; [reflexivity|];
      exists (Some clerkUserId); split; [reflexivity | exact Htruthy]].
  destruct (AuthServer.findUnique outside) as [[]|e] eqn:Hlookup;
    [|left; exists e; split; [reflexivity|]; right; right; left;
      exists clerkUserId; repeat split; assumption].
  destruct (users !! clerkUserId) as [user|] eqn:Hrow.
  { right. exists clerkUserId, user. split; [reflexivity|]. split; [exact Htruthy|].
    split; [reflexivity|]. left. split; [exact Hrow | reflexivity]. }
  assert (exists clerk, Ok (Some clerkUserId) = Ok (Some clerk) /\
                        Js.truthy clerk = true /\ Ok tt = Ok tt /\
                        users !! clerk = None) as Hmasked
    by (exists clerkUserId; repeat split; assumption).
  destruct (AuthServer.getUser outside clerkUserId) as [clerkUser|e] eqn:Hclerk;
    [|left; eexists; split; [reflexivity|]; right; right; right; split;
      [reflexivity | exact Hmasked]].
  destruct (AuthServer.chosenEmail clerkUser) as [email|] eqn:Hemail;
    cbn [Js.truthyOpt Js.orDefault];
    [|left; eexists; split; [reflexivity|]; right; right; right; split;
      [reflexivity | exact Hmasked]].
  destruct (Js.truthy email) eqn:Hnonempty; cbn [negb];
    [|left; eexists; split; [reflexivity|]; right; right; right; split;
      [reflexivity | exact Hmasked]].
  destruct (AuthServer.generated outside) as [[newId now]|e] eqn:Hcreate;
    [|left; eexists; split; [reflexivity|]; right; right; right; split;
      [reflexivity | exact Hmasked]].
  right. eexists clerkUserId, _. split; [reflexivity|]. split; [exact Htruthy|].
  split; [reflexivity|].
  right. split; [exact Hrow|]. split; [reflexivity|].
  exists clerkUser, newId, now. cbn [AuthServer.email AuthServer.id AuthServer.clerkUserId
    AuthServer.avatar AuthServer.createdAt AuthServer.updatedAt].
  repeat split; assumption.
Qed.

(** X24.  Once [getAuthUser] has returned a user, a later call of the same
    session depends on the lookup in the user table alone: when the database
    answers the lookup, the call returns the same user, whatever Clerk and
    the database would answer to anything else, and without writing to the
    user table; when the database rejects the lookup, the call throws the
    error of the database as it is, and the table is as it was. *)
Theorem getAuthUser_settles (outside later : AuthServer.Outside)
        (users users' : gmap string AuthServer.AuthUser) (user : AuthServer.AuthUser) :
  AuthServer.getAuthUser outside users = (Ok user, users') ->
  AuthServer.auth later = AuthServer.auth outside ->
  (AuthServer.findUnique later = Ok tt ->
   AuthServer.getAuthUser later users' = (Ok user, users')) /\
  (forall e, AuthServer.findUnique later = Throw e ->
             AuthServer.getAuthUser later users' = (Throw e, users')).
Proof.
  intros Hfirst Hsame.
  destruct (getAuthUser_outcome outside users)
    as [(e & Hthrow & _)|(clerkUserId & found & Hauth & Htruthy & _ & Hcases)];
    [rewrite Hthrow in Hfirst; discriminate Hfirst|].
  assert (users' !! clerkUserId = Some user) as Hrow.
  { destruct Hcases as [[Hrow Hrun]|(Hrow & Hrun & _)];
      rewrite Hrun in Hfirst; injection Hfirst as <- <-.
    - exact Hrow.
    - apply lookup_insert_eq. }
  unfold AuthServer.getAuthUser. rewrite Hsame, Hauth.
  cbn [Js.truthyOpt Js.orDefault]. rewrite Htruthy. cbn [negb].
  split.
  - intros ->. rewrite Hrow. reflexivity.
  - intros e ->. reflexivity.
Qed.

(** Ada's first visit creates her row; at her next visit Clerk is down, and
    she is the same user; at a visit when the database is down, the error of
    the database is what she gets. *)
Lemma getAuthUser_settles_runs :
  exists user users',
    AuthServer.getAuthUser Scripted.firstVisit ∅ = (Ok user, users') /\
    AuthServer.email user = "ada@example.com" /\
    AuthServer.name user = "Ada" /\
    AuthServer.getAuthUser Scripted.clerkDown users' = (Ok user, users') /\
    AuthServer.getAuthUser Scripted.databaseDown users'
    = (Throw Scripted.databaseMessage, users').
Proof.
  destruct (AuthServer.getAuthUser Scripted.firstVisit ∅) as [[user|e] users'] eqn:Hrun;
    [|vm_compute in Hrun; discriminate Hrun].
  exists user, users'.
  split; [reflexivity|].
  split; [vm_compute in Hrun; injection Hrun as <- _; reflexivity|].
  split; [vm_compute in Hrun; injection Hrun as <- _; reflexivity|].
  assert (AuthServer.auth Scripted.clerkDown = AuthServer.auth Scripted.firstVisit) as Hsame
    by reflexivity.
  assert (AuthServer.auth Scripted.databaseDown = AuthServer.auth Scripted.firstVisit)
    as Hsame' by reflexivity.
  split.
  - apply (proj1 (getAuthUser_settles Scripted.firstVisit Scripted.clerkDown ∅ users' user
                    Hrun Hsame)).
    reflexivity.
  - apply (proj2 (getAuthUser_settles Scripted.firstVisit Scripted.databaseDown ∅ users'
                    user Hrun Hsame')).
    reflexivity.
Defined.

(** X25.  When [getAuthUser] throws, the user table is as it was, and the
    error is the one [auth()] threw; or ["Authentication required"] for a
    session without a user id; or, for a signed-in user, the error with
    which the database rejected the lookup in the user table, as the
    database worded it; or, for a signed-in user without a row, one and the
    same message whatever failed while the row was made (Clerk, a user
    without an email address, the creation of the row): of these the cause
    is not reported. *)
Theorem getAuthUser_failure_masked (outside : AuthServer.Outside)
        (users users' : gmap string AuthServer.AuthUser) (e : string) :
  AuthServer.getAuthUser outside users = (Throw e, users') ->
  users' = users /\
  (AuthServer.auth outside = Throw e \/
   (e = "Authentication required" /\
    exists session, AuthServer.auth outside = Ok session /\ Js.truthyOpt session = false) \/
   (exists clerkUserId,
      AuthServer.auth outside = Ok (Some clerkUserId) /\
      Js.truthy clerkUserId = true /\
      AuthServer.findUnique outside = Throw e) \/
   (e = "User not found. Please sign out and sign in again." /\
    exists clerkUserId,
      AuthServer.auth outside = Ok (Some clerkUserId) /\
      Js.truthy clerkUserId = true /\
      AuthServer.findUnique outside = Ok tt /\
      users !! clerkUserId = None /\
      (is_Some (match AuthServer.getUser outside clerkUserId with
                | Ok clerkUser =>
                    if Js.truthyOpt (AuthServer.chosenEmail clerkUser) then None
                    else Some "No email found for user"
                | Throw cause => Some cause
                end)
       \/ exists cause, AuthServer.generated outside = Throw cause))).
Proof.
  intros Hrun.
  assert (users' = users /\
          (AuthServer.auth outside = Throw e \/
           (e = "Authentication required" /\
            exists session, AuthServer.auth outside = Ok session /\
                            Js.truthyOpt session = false) \/
           (exists clerkUserId,
               AuthServer.auth outside = Ok (Some clerkUserId) /\
               Js.truthy clerkUserId = true /\
               AuthServer.findUnique outside = Throw e) \/
           (e = AuthServer.masked /\
            exists clerkUserId,
              AuthServer.auth outside = Ok (Some clerkUserId) /\
              Js.truthy clerkUserId = true /\
              AuthServer.findUnique outside = Ok tt /\
              users !! clerkUserId = None))) as [Htable Hwhy].
  { destruct (getAuthUser_outcome outside users)
      as [(e' & Hthrow & Hwhy)|(clerkUserId & user & _ & _ & _ & Hcases)].
    - rewrite Hthrow in Hrun. injection Hrun as <- <-. split; [reflexivity | exact Hwhy].
    - destruct Hcases as [[_ Hok]|(_ & Hok & _)]; rewrite Hok in Hrun; discriminate Hrun. }
  split; [exact Htable|].
  destruct Hwhy as [H|[H|[H|(He & clerkUserId & Hauth & Htruthy & Hlookup & Hrow)]]];
    [left; exact H | right; left; exact H | right; right; left; exact H |].
  right. right. right. split; [exact He|].
  exists clerkUserId. split; [exact Hauth|]. split; [exact Htruthy|].
  split; [exact Hlookup|]. split; [exact Hrow|].
  (* what failed while the row was made *)
  revert Hrun. unfold AuthServer.getAuthUser.
  rewrite Hauth. cbn [Js.truthyOpt Js.orDefault]. rewrite Htruthy. cbn [negb].
  rewrite Hlookup, Hrow.
  destruct (AuthServer.getUser outside clerkUserId) as [clerkUser|cause];
    [|intros _; left; eexists; reflexivity].
  destruct (Js.truthyOpt (AuthServer.chosenEmail clerkUser)); cbn [negb];
    [|intros _; left; eexists; reflexivity].
  destruct (AuthServer.generated outside) as [[newId now]|cause];
    [discriminate | intros _; right; exists cause; reflexivity].
Qed.

(** Clerk cannot be reached at Ada's first visit: the message says nothing
    of it. *)
Lemma getAuthUser_failure_masked_runs :
  exists clerkUserId,
    AuthServer.getAuthUser Scripted.clerkDown ∅ = (Throw AuthServer.masked, ∅) /\
    AuthServer.auth Scripted.clerkDown = Ok (Some clerkUserId) /\
    AuthServer.getUser Scripted.clerkDown clerkUserId = Throw "connect ETIMEDOUT".
Proof.
  assert (AuthServer.getAuthUser Scripted.clerkDown ∅ = (Throw AuthServer.masked, ∅)) as Hrun
    by (vm_compute; reflexivity).
  destruct (getAuthUser_failure_masked Scripted.clerkDown ∅ ∅ AuthServer.masked Hrun)
    as [_ [H|[[H _]|[(c & _ & _ & H)|(_ & clerkUserId & Hauth & _)]]]];
    try discriminate H.
  exists clerkUserId. split; [exact Hrun|]. split; [exact Hauth|].
  cbn in Hauth. injection Hauth as <-. reflexivity.
Defined.

(** The database cannot be reached at Ada's first visit: the error of the
    lookup is thrown as the database worded it. *)
Example getAuthUser_lookup_error_not_masked :
  AuthServer.getAuthUser Scripted.databaseDown ∅ = (Throw Scripted.databaseMessage, ∅) /\
  Scripted.databaseMessage <> AuthServer.masked.
Proof. split; [vm_compute; reflexivity | discriminate]. Qed.

(** X26.  A row that [getAuthUser] creates is stored under the session's
    user id and carries it; its email address is not empty and is one of the
    addresses Clerk has for the user: the first address that carries the
    primary id, or, when no address carries it, the first address; its
    avatar is Clerk's image. *)
Theorem getAuthUser_creates_from_clerk (outside : AuthServer.Outside)
        (users users' : gmap string AuthServer.AuthUser) (user : AuthServer.AuthUser)
        (clerkUserId : string) :
  AuthServer.auth outside = Ok (Some clerkUserId) ->
  users !! clerkUserId = None ->
  AuthServer.getAuthUser outside users = (Ok user, users') ->
  exists clerkUser address,
    AuthServer.getUser outside clerkUserId = Ok clerkUser /\
    users' = <[clerkUserId := user]> users /\
    AuthServer.clerkUserId user = clerkUserId /\
    In address (AuthServer.emailAddresses clerkUser) /\
    AuthServer.email user = AuthServer.emailAddress address /\
    AuthServer.email user <> "" /\
    primaryOrFirst clerkUser address /\
    ((exists other,
         In other (AuthServer.emailAddresses clerkUser) /\
         AuthServer.primaryEmailAddressId clerkUser = Some (AuthServer.address_id other)) ->
     AuthServer.primaryEmailAddressId clerkUser = Some (AuthServer.address_id address)) /\
    AuthServer.avatar user = AuthServer.imageUrl clerkUser.
Proof.
  intros Hauth Hrow Hrun.
  destruct (getAuthUser_outcome outside users)
    as [(e & Hthrow & _)|(clerk & made & Hauth' & _ & _ & Hcases)];
    [rewrite Hthrow in Hrun; discriminate Hrun|].
  rewrite Hauth in Hauth'. injection Hauth' as <-.
  destruct Hcases as [[Hfound _]|(_ & Hok & clerkUser & newId & now & Hclerk & _ & Hemail
                                   & Hnonempty & _ & Hcid & Havatar & _)];
    [congruence|].
  rewrite Hok in Hrun. injection Hrun as <- <-.
  destruct (chosenEmail_of_clerk clerkUser _ Hemail)
    as (address & Hin & Haddr & Hchoice & Hprimary).
  exists clerkUser, address.
  split; [exact Hclerk|]. split; [reflexivity|]. split; [exact Hcid|].
  split; [exact Hin|]. split; [symmetry; exact Haddr|].
  split; [intros Hempty; rewrite Hempty in Hnonempty; discriminate Hnonempty|].
  split; [exact Hchoice|].
  split; [exact Hprimary | exact Havatar].
Qed.

(** Ada's first visit: of her two addresses, the second is the primary one
    and is taken.  Bob's first visit: neither of his addresses carries the
    primary id, and the first is taken. *)
Lemma getAuthUser_creates_from_clerk_runs :
  (exists user users' address,
      AuthServer.getAuthUser Scripted.firstVisit ∅ = (Ok user, users') /\
      primaryOrFirst Scripted.adaAtClerk address /\
      AuthServer.email user = AuthServer.emailAddress address /\
      AuthServer.email user = "ada@example.com" /\
      nth_error (AuthServer.emailAddresses Scripted.adaAtClerk) 1 = Some address) /\
  (exists user users' address,
      AuthServer.getAuthUser Scripted.bobsFirstVisit ∅ = (Ok user, users') /\
      primaryOrFirst Scripted.bobAtClerk address /\
      AuthServer.email user = AuthServer.emailAddress address /\
      AuthServer.email user = "bob@example.com" /\
      nth_error (AuthServer.emailAddresses Scripted.bobAtClerk) 0 = Some address).
Proof.
  split.
  - destruct (AuthServer.getAuthUser Scripted.firstVisit ∅) as [[user|e] users'] eqn:Hrun;
      [|vm_compute in Hrun; discriminate Hrun].
    assert (AuthServer.auth Scripted.firstVisit = Ok (Some "clerk-ada")) as Hauth
      by reflexivity.
    assert ((∅ : gmap string AuthServer.AuthUser) !! "clerk-ada" = None) as Hrow
      by reflexivity.
    destruct (getAuthUser_creates_from_clerk Scripted.firstVisit ∅ users' user "clerk-ada"
                Hauth Hrow Hrun)
      as (clerkUser & address & H1 & _ & _ & H4 & H5 & _ & H7 & _).
    cbn in H1. injection H1 as <-.
    assert (AuthServer.email user = "ada@example.com") as Hemail
      by (vm_compute in Hrun; injection Hrun as <- _; reflexivity).
    exists user, users', address.
    split; [reflexivity|]. split; [exact H7|]. split; [exact H5|]. split; [exact Hemail|].
    rewrite Hemail in H5.
    destruct H4 as [<-|[<-|[]]]; [discriminate H5 | reflexivity].
  - destruct (AuthServer.getAuthUser Scripted.bobsFirstVisit ∅) as [[user|e] users'] eqn:Hrun;
      [|vm_compute in Hrun; discriminate Hrun].
    assert (AuthServer.auth Scripted.bobsFirstVisit = Ok (Some "clerk-bob")) as Hauth
      by reflexivity.
    assert ((∅ : gmap string AuthServer.AuthUser) !! "clerk-bob" = None) as Hrow
      by reflexivity.
    destruct (getAuthUser_creates_from_clerk Scripted.bobsFirstVisit ∅ users' user
                "clerk-bob" Hauth Hrow Hrun)
      as (clerkUser & address & H1 & _ & _ & H4 & H5 & _ & H7 & _).
    cbn in H1. injection H1 as <-.
    assert (AuthServer.email user = "bob@example.com") as Hemail
      by (vm_compute in Hrun; injection Hrun as <- _; reflexivity).
    exists user, users', address.
    split; [reflexivity|]. split; [exact H7|]. split; [exact H5|]. split; [exact Hemail|].
    rewrite Hemail in H5.
    destruct H4 as [<-|[<-|[]]]; [reflexivity | discriminate H5].
Defined.

(** ** The client-side auth utilities *)

(** X27.  In the browser, a token that is stored is read back and makes the
    client authenticated; storing [null] or the empty string removes the
    token instead, and the client is then not authenticated.  On the server
    nothing is stored and no token is read.  In every case no other key of
    the storage is touched. *)
Theorem token_round_trip (token : option string) (b : ClientAuth.Browser) :
  let b' := ClientAuth.setStoredToken token b in
  (ClientAuth.window b = true ->
   ClientAuth.getStoredToken b' = (if Js.truthyOpt token then token else None) /\
   ClientAuth.isAuthenticated b' = Js.truthyOpt token) /\
  (ClientAuth.window b = false ->
   b' = b /\ ClientAuth.getStoredToken b = None /\ ClientAuth.isAuthenticated b = false) /\
  ClientAuth.window b' = ClientAuth.window b /\
  (forall key, key <> ClientAuth.AUTH_TOKEN_KEY ->
               ClientAuth.localStorage b' !! key = ClientAuth.localStorage b !! key).
Proof.
  intros b'. subst b'.
  unfold ClientAuth.setStoredToken, ClientAuth.isAuthenticated, ClientAuth.getStoredToken.
  destruct (ClientAuth.window b) eqn:Hwindow; cbn [negb].
  - destruct token as [t|]; cbn [Js.truthyOpt Js.orDefault].
    + destruct (Js.truthy t) eqn:Htruthy;
        cbn [ClientAuth.window ClientAuth.localStorage negb]; rewrite ?Hwindow; cbn [negb].
      * rewrite lookup_insert_eq. cbn [Js.truthyOpt].
        split; [intros _; split; [reflexivity | exact Htruthy]|].
        split; [discriminate|]. split; [reflexivity|].
        intros key Hkey. apply lookup_insert_ne. congruence.
      * rewrite lookup_delete_eq.
        split; [intros _; split; reflexivity|].
        split; [discriminate|]. split; [reflexivity|].
        intros key Hkey. apply lookup_delete_ne. congruence.
    + cbn [ClientAuth.window ClientAuth.localStorage negb].
      rewrite lookup_delete_eq.
      split; [intros _; split; reflexivity|].
      split; [discriminate|]. split; [reflexivity|].
      intros key Hkey. apply lookup_delete_ne. congruence.
  - rewrite ?Hwindow. cbn [negb Js.truthyOpt].
    split; [discriminate|]. split; [intros _; repeat split|].
    split; reflexivity.
Qed.

Section StoredUser.
Context {Value : Type}.
Context (stringify : Value -> string) (parse : string -> option Value)
        (truthy : Value -> bool).

(** X28.  In the browser, a user that is stored is read back, provided it
    is truthy and [JSON.parse] gives it back from what [JSON.stringify]
    made of it; the token and every other key of the storage are as they
    were. *)
Theorem user_round_trip (user : Value) (b : ClientAuth.Browser) :
  ClientAuth.window b = true ->
  truthy user = true ->
  parse (stringify user) = Some user ->
  Js.truthy (stringify user) = true ->
  let b' := ClientAuth.setStoredUser stringify truthy (Some user) b in
  ClientAuth.getStoredUser parse b' = Some user /\
  ClientAuth.getStoredToken b' = ClientAuth.getStoredToken b /\
  (forall key, key <> ClientAuth.AUTH_USER_KEY ->
               ClientAuth.localStorage b' !! key = ClientAuth.localStorage b !! key).
Proof.
  intros Hwindow Htruthy Hjson Hraw b'. subst b'.
  unfold ClientAuth.setStoredUser, ClientAuth.getStoredUser, ClientAuth.getStoredToken.
  rewrite Hwindow, Htruthy. cbn [negb ClientAuth.window ClientAuth.localStorage].
  rewrite ?Hwindow. cbn [negb]. rewrite lookup_insert_eq, Hraw.
  split; [exact Hjson|]. split.
  - apply lookup_insert_ne. discriminate.
  - intros key Hkey. apply lookup_insert_ne. congruence.
Qed.

(** X29.  After [clearAuth], no token and no user is read and the client is
    not authenticated, in the browser and on the server; the two keys are
    gone from the storage of the browser and every other key is as it was. *)
Theorem clearAuth_signs_out (b : ClientAuth.Browser) :
  let b' := ClientAuth.clearAuth stringify truthy b in
  ClientAuth.getStoredToken b' = None /\
  ClientAuth.getStoredUser parse b' = None /\
  ClientAuth.isAuthenticated b' = false /\
  ClientAuth.window b' = ClientAuth.window b /\
  (ClientAuth.window b = true ->
   ClientAuth.localStorage b' !! ClientAuth.AUTH_TOKEN_KEY = None /\
   ClientAuth.localStorage b' !! ClientAuth.AUTH_USER_KEY = None) /\
  (forall key,
      key <> ClientAuth.AUTH_TOKEN_KEY -> key <> ClientAuth.AUTH_USER_KEY ->
      ClientAuth.localStorage b' !! key = ClientAuth.localStorage b !! key).
Proof.
  intros b'. subst b'.
  unfold ClientAuth.clearAuth, ClientAuth.setStoredUser, ClientAuth.setStoredToken,
    ClientAuth.isAuthenticated, ClientAuth.getStoredUser, ClientAuth.getStoredToken.
  destruct (ClientAuth.window b) eqn:Hwindow;
    cbn [negb Js.truthyOpt ClientAuth.window ClientAuth.localStorage];
    rewrite ?Hwindow; cbn [negb ClientAuth.window ClientAuth.localStorage];
    rewrite ?Hwindow; cbn [negb].
  - rewrite lookup_delete_eq.
    rewrite lookup_delete_ne by discriminate. rewrite lookup_delete_eq.
    repeat split.
    intros key Htoken Huser.
    rewrite lookup_delete_ne by congruence. apply lookup_delete_ne. congruence.
  - repeat split; discriminate.
Qed.

End StoredUser.

(** A user kept as its JSON text. *)
Lemma user_round_trip_runs :
  let b := {| ClientAuth.window := true; ClientAuth.localStorage := ∅ |} in
  let b' := ClientAuth.setStoredUser (fun text : string => text) Js.truthy (Some "{}") b in
  ClientAuth.getStoredUser Some b' = Some "{}" /\
  ClientAuth.getStoredToken b' = ClientAuth.getStoredToken b.
Proof.
  intros b b'.
  assert (ClientAuth.window b = true) as Hwindow by reflexivity.
  assert (Js.truthy "{}" = true) as Htruthy by reflexivity.
  assert (Some "{}" = Some "{}") as Hjson by reflexivity.
  destruct (user_round_trip (fun text : string => text) Some Js.truthy "{}" b
              Hwindow Htruthy Hjson Htruthy) as (H1 & H2 & _).
  split; [exact H1 | exact H2].
Defined.


